(** * The interactive MAP-Elites web application: step orchestration,
      selection handling and the process lock

    A shallow embedding of [pcgsepy/guis/main_webapp/webapp.py].  The module
    keeps its state in globals ([app_settings], [process_semaphore],
    [download_semaphore], [first_launch], [base_color]) and mutates the
    MAP-Elites archive in place; here that state is one record, [World],
    threaded through a state-and-exception monad.  Python exceptions keep
    every mutation made before the raise, so a raised outcome carries the
    world at the time of the raise.

    The classes [MAPElites], [MAPBin], [CandidateSolution], [Semaphore],
    [AppSettings], the emitters and the L-system live in modules of the
    repository that are outside [src/]; what the web application reads and
    writes of them is modelled as records, and what they compute is taken
    from the class [Collaborators]. *)

From Stdlib Require Import Ascii QArith.
From stdpp Require Import base option list strings gmap pretty.

Local Open Scope string_scope.
Local Open Scope list_scope.

(** ** Data model *)

(** [pcgsepy.common.vecs.Vec], as far as the application uses it. *)
Record Vec := v3f { vx : Q; vy : Q; vz : Q }.

Definition scale (v : Vec) (k : Q) : Vec :=
  v3f (vx v * k) (vy v * k) (vz v * k).

(** Modelled from the spec: the realized phenotype of a candidate.  The
    application reads its blocks, recolours its base blocks and drops its
    cached air mask; everything else is opaque. *)
Record Structure := mkStructure {
  _blocks : list string;
  color : Vec;
  _air_gridmask : option (list bool)
}.

Definition set_color (c : Vec) (s : Structure) : Structure :=
  mkStructure (_blocks s) c (_air_gridmask s).

Definition clear_air_gridmask (s : Structure) : Structure :=
  mkStructure (_blocks s) (color s) None.

(** Modelled from the spec: a candidate is a genotype string, an optional
    cached phenotype, fitness and behaviour metadata, a feasibility flag, an
    age and a display colour.  The attribute [string] is called [cs_string]
    here. *)
Record CandidateSolution := mkCS {
  cs_string : string;
  ll_string : string;
  _content : option Structure;
  base_color : Vec;
  c_fitness : Q;
  b_descs : Q * Q;
  is_feasible : bool;
  age : Z
}.

Definition set_cs_string (s : string) (c : CandidateSolution) : CandidateSolution :=
  mkCS s (ll_string c) (_content c) (base_color c) (c_fitness c) (b_descs c)
       (is_feasible c) (age c).

Definition set_ll_string (s : string) (c : CandidateSolution) : CandidateSolution :=
  mkCS (cs_string c) s (_content c) (base_color c) (c_fitness c) (b_descs c)
       (is_feasible c) (age c).

Definition set_content (o : option Structure) (c : CandidateSolution) : CandidateSolution :=
  mkCS (cs_string c) (ll_string c) o (base_color c) (c_fitness c) (b_descs c)
       (is_feasible c) (age c).

Definition set_base_color (v : Vec) (c : CandidateSolution) : CandidateSolution :=
  mkCS (cs_string c) (ll_string c) (_content c) v (c_fitness c) (b_descs c)
       (is_feasible c) (age c).

(** [CandidateSolution(string=s)]: a fresh candidate with nothing cached. *)
Definition new_candidate (s : string) : CandidateSolution :=
  mkCS s "" None (v3f 0 0 0) 0%Q (0%Q, 0%Q) true 0%Z.

Inductive Pop := feasible | infeasible.

#[global] Instance Pop_eq_dec : EqDecision Pop.
Proof. solve_decision. Defined.

(** Modelled from the spec: a bin owns two populations, a grid coordinate, a
    size and one transient new-elite flag per population. *)
Record MAPBin := mkBin {
  bin_idx : nat * nat;
  bin_size : Q * Q;
  _feasible : list CandidateSolution;
  _infeasible : list CandidateSolution;
  new_elite : bool * bool
}.

Definition population (p : Pop) (b : MAPBin) : list CandidateSolution :=
  match p with feasible => _feasible b | infeasible => _infeasible b end.

Definition set_population (p : Pop) (l : list CandidateSolution) (b : MAPBin) : MAPBin :=
  match p with
  | feasible => mkBin (bin_idx b) (bin_size b) l (_infeasible b) (new_elite b)
  | infeasible => mkBin (bin_idx b) (bin_size b) (_feasible b) l (new_elite b)
  end.

Definition new_elite_at (p : Pop) (b : MAPBin) : bool :=
  match p with feasible => (new_elite b).1 | infeasible => (new_elite b).2 end.

(** [MAPBin.non_empty(pop)]. *)
Definition non_empty (p : Pop) (b : MAPBin) : bool :=
  match population p b with [] => false | _ :: _ => true end.

(** The emitter classes imported by the application. *)
Inductive EmitterClass :=
| RandomEmitter | GreedyEmitter | HumanPrefMatrixEmitter
| ContextualBanditEmitter | PreferenceBanditEmitter | KNEmitter
| KernelEmitter | HumanEmitter | SimpleTabularEmitter.

#[global] Instance EmitterClass_eq_dec : EqDecision EmitterClass.
Proof. solve_decision. Defined.

(** An emitter instance: its class and its emitter-local statistics. *)
Record Emitter := mkEmitter {
  emitter_class : EmitterClass;
  emitter_state : list Q
}.

(** [RandomEmitter()], [GreedyEmitter()], ...: a fresh instance. *)
Definition new_emitter (c : EmitterClass) : Emitter := mkEmitter c [].

Record HullBuilder := mkHullBuilder {
  erosion_type : string;
  apply_erosion : bool;
  apply_smoothing : bool
}.

Record LModule := mkLModule { module_name : string; active : bool }.

(** [StochasticRules]: the rules added with [add_rule(lhs, rhs, p)]. *)
Record Rule := mkRule { rule_lhs : string; rule_rhs : string; rule_p : Q }.

(** Modelled from the spec: the archive, as far as the application touches
    it.  [hl_rules] is [lsystem.hl_solver.parser.rules]. *)
Record MAPElites := mkMAPElites {
  bins : list (list MAPBin);
  enforce_qnt : bool;
  emitter : Emitter;
  n_new_solutions : nat;
  hull_builder : option HullBuilder;
  lsystem_modules : list LModule;
  hl_rules : list Rule;
  active_descriptors : string * string;
  fitness_weights : list Q
}.

Definition set_bins (x : list (list MAPBin)) (m : MAPElites) : MAPElites :=
  mkMAPElites x (enforce_qnt m) (emitter m) (n_new_solutions m) (hull_builder m)
              (lsystem_modules m) (hl_rules m) (active_descriptors m) (fitness_weights m).

Definition set_enforce_qnt (x : bool) (m : MAPElites) : MAPElites :=
  mkMAPElites (bins m) x (emitter m) (n_new_solutions m) (hull_builder m)
              (lsystem_modules m) (hl_rules m) (active_descriptors m) (fitness_weights m).

Definition set_emitter (x : Emitter) (m : MAPElites) : MAPElites :=
  mkMAPElites (bins m) (enforce_qnt m) x (n_new_solutions m) (hull_builder m)
              (lsystem_modules m) (hl_rules m) (active_descriptors m) (fitness_weights m).

Definition set_n_new_solutions (x : nat) (m : MAPElites) : MAPElites :=
  mkMAPElites (bins m) (enforce_qnt m) (emitter m) x (hull_builder m)
              (lsystem_modules m) (hl_rules m) (active_descriptors m) (fitness_weights m).

Definition set_hull_builder (x : option HullBuilder) (m : MAPElites) : MAPElites :=
  mkMAPElites (bins m) (enforce_qnt m) (emitter m) (n_new_solutions m) x
              (lsystem_modules m) (hl_rules m) (active_descriptors m) (fitness_weights m).

Definition set_hl_rules (x : list Rule) (m : MAPElites) : MAPElites :=
  mkMAPElites (bins m) (enforce_qnt m) (emitter m) (n_new_solutions m) (hull_builder m)
              (lsystem_modules m) x (active_descriptors m) (fitness_weights m).

Inductive AppMode := USER | DEV.

#[global] Instance AppMode_eq_dec : EqDecision AppMode.
Proof. solve_decision. Defined.

(** Modelled from the spec: the attributes of [AppSettings] the application
    uses.  [zmax_feasible_fitness] is
    [hm_callback_props['metric']['Fitness']['zmax']['feasible']]. *)
Record AppSettings := mkAppSettings {
  current_mapelites : MAPElites;
  gen_counter : nat;
  selected_bins : list (nat * nat);
  symmetry : option string;
  emitter_steps : nat;
  app_mode : AppMode;
  step_progress : Q;
  behavior_descriptors : list string;
  rngseed : nat;
  voxelised : bool;
  safe_mode : bool;
  zmax_feasible_fitness : Q
}.

(** Modelled from the spec: a binary lock with its busy state readable;
    [lock_name] is the name passed to [lock]. *)
Record Semaphore := mkSemaphore {
  is_locked : bool;
  _running : string;
  lock_name : option string
}.

Definition lock (name : option string) (s : Semaphore) : Semaphore :=
  mkSemaphore true (_running s) name.

Definition unlock (s : Semaphore) : Semaphore :=
  mkSemaphore false (_running s) (lock_name s).

Definition set_running (r : string) (s : Semaphore) : Semaphore :=
  mkSemaphore (is_locked s) r (lock_name s).

(** The records of the logger ['webapp'] that pass the filter of
    [dashLoggerHandler] ([levelno >= logging.INFO]); debug records are not
    part of the model. *)
Inductive Level := INFO | WARNING | ERROR.

#[global] Instance Level_eq_dec : EqDecision Level.
Proof. solve_decision. Defined.

Record LogRecord := mkLog { levelno : Level; msg : string }.

#[global] Instance LogRecord_eq_dec : EqDecision LogRecord.
Proof. solve_decision. Defined.

(** The methods of the archive the application calls for their effect on
    the archive.  What they do is the collaborator's business; that, and in
    which order, they are called is the application's. *)
Inductive Method :=
| update_elites (reset : bool)
| interactive_step (bin_idxs : list (nat * nat)) (gen : nat)
| emitter_step (gen : nat)
| reset
| update_behavior_descriptors (b0 b1 : string)
| subdivide_range (idx : nat * nat)
| toggle_module_mutability (module : string)
| update_fitness_weights (weights : list Q)
| load_population (filename : string).

(** The handlers of [triggers_map]. *)
Inductive Handler :=
| H_apply_step | H_reset | H_bc_change | H_subdivide | H_lsystem_modules
| H_update_rules | H_fitness_weights | H_update_heatmap | H_apply_symmetry
| H_update_content | H_toggle_voxelization | H_selection | H_clear_selection
| H_emitter | H_population_download | H_population_upload | H_close_error
| H_color | H_show_quickstart_modal | H_default
| H_show_toggle_unsafe_mode_modal | H_toggle_unsafe_mode.

#[global] Instance Handler_eq_dec : EqDecision Handler.
Proof. solve_decision. Defined.

(** What a run leaves in the call history: the handlers dispatched by the
    general callback and the archive methods called. *)
Inductive Event :=
| Dispatched (h : Handler)
| Called (c : Method).

(** The module's globals, the log and the call history. *)
Record World := mkWorld {
  app_settings : AppSettings;
  process_semaphore : Semaphore;
  download_semaphore : Semaphore;
  first_launch : bool;
  base_color_global : Vec;
  log : list LogRecord;
  calls : list Event
}.

(** The exceptions raised in the application.  Modelled from the spec:
    [InvalidGenotype] is the failure of the realisation of a genotype (§6);
    its class is outside [src/]. *)
Inductive Exn :=
| ValueError | KeyError | IndexError | AttributeError | UnboundLocalError
| InvalidGenotype.

#[global] Instance Exn_eq_dec : EqDecision Exn.
Proof. solve_decision. Defined.

Definition set_current_mapelites (x : MAPElites) (a : AppSettings) : AppSettings :=
  mkAppSettings x (gen_counter a) (selected_bins a) (symmetry a) (emitter_steps a)
                (app_mode a) (step_progress a) (behavior_descriptors a) (rngseed a)
                (voxelised a) (safe_mode a) (zmax_feasible_fitness a).

Definition set_gen_counter (x : nat) (a : AppSettings) : AppSettings :=
  mkAppSettings (current_mapelites a) x (selected_bins a) (symmetry a) (emitter_steps a)
                (app_mode a) (step_progress a) (behavior_descriptors a) (rngseed a)
                (voxelised a) (safe_mode a) (zmax_feasible_fitness a).

Definition set_selected_bins (x : list (nat * nat)) (a : AppSettings) : AppSettings :=
  mkAppSettings (current_mapelites a) (gen_counter a) x (symmetry a) (emitter_steps a)
                (app_mode a) (step_progress a) (behavior_descriptors a) (rngseed a)
                (voxelised a) (safe_mode a) (zmax_feasible_fitness a).

Definition set_symmetry (x : option string) (a : AppSettings) : AppSettings :=
  mkAppSettings (current_mapelites a) (gen_counter a) (selected_bins a) x (emitter_steps a)
                (app_mode a) (step_progress a) (behavior_descriptors a) (rngseed a)
                (voxelised a) (safe_mode a) (zmax_feasible_fitness a).

Definition set_emitter_steps (x : nat) (a : AppSettings) : AppSettings :=
  mkAppSettings (current_mapelites a) (gen_counter a) (selected_bins a) (symmetry a) x
                (app_mode a) (step_progress a) (behavior_descriptors a) (rngseed a)
                (voxelised a) (safe_mode a) (zmax_feasible_fitness a).

Definition set_step_progress (x : Q) (a : AppSettings) : AppSettings :=
  mkAppSettings (current_mapelites a) (gen_counter a) (selected_bins a) (symmetry a)
                (emitter_steps a) (app_mode a) x (behavior_descriptors a) (rngseed a)
                (voxelised a) (safe_mode a) (zmax_feasible_fitness a).

Definition set_voxelised (x : bool) (a : AppSettings) : AppSettings :=
  mkAppSettings (current_mapelites a) (gen_counter a) (selected_bins a) (symmetry a)
                (emitter_steps a) (app_mode a) (step_progress a) (behavior_descriptors a)
                (rngseed a) x (safe_mode a) (zmax_feasible_fitness a).

Definition set_safe_mode (x : bool) (a : AppSettings) : AppSettings :=
  mkAppSettings (current_mapelites a) (gen_counter a) (selected_bins a) (symmetry a)
                (emitter_steps a) (app_mode a) (step_progress a) (behavior_descriptors a)
                (rngseed a) (voxelised a) x (zmax_feasible_fitness a).

Definition set_zmax_feasible_fitness (x : Q) (a : AppSettings) : AppSettings :=
  mkAppSettings (current_mapelites a) (gen_counter a) (selected_bins a) (symmetry a)
                (emitter_steps a) (app_mode a) (step_progress a) (behavior_descriptors a)
                (rngseed a) (voxelised a) (safe_mode a) x.

Definition set_app_settings (x : AppSettings) (w : World) : World :=
  mkWorld x (process_semaphore w) (download_semaphore w) (first_launch w)
          (base_color_global w) (log w) (calls w).

Definition set_process_semaphore (x : Semaphore) (w : World) : World :=
  mkWorld (app_settings w) x (download_semaphore w) (first_launch w)
          (base_color_global w) (log w) (calls w).

Definition set_download_semaphore (x : Semaphore) (w : World) : World :=
  mkWorld (app_settings w) (process_semaphore w) x (first_launch w)
          (base_color_global w) (log w) (calls w).

Definition set_first_launch (x : bool) (w : World) : World :=
  mkWorld (app_settings w) (process_semaphore w) (download_semaphore w) x
          (base_color_global w) (log w) (calls w).

Definition set_base_color_global (x : Vec) (w : World) : World :=
  mkWorld (app_settings w) (process_semaphore w) (download_semaphore w) (first_launch w)
          x (log w) (calls w).

Definition set_log (x : list LogRecord) (w : World) : World :=
  mkWorld (app_settings w) (process_semaphore w) (download_semaphore w) (first_launch w)
          (base_color_global w) x (calls w).

Definition set_calls (x : list Event) (w : World) : World :=
  mkWorld (app_settings w) (process_semaphore w) (download_semaphore w) (first_launch w)
          (base_color_global w) (log w) x.

(** The archive of a world, and the four pieces of shared state the process
    lock protects. *)
Definition mapelites (w : World) : MAPElites := current_mapelites (app_settings w).

Definition on_settings (f : AppSettings -> AppSettings) (w : World) : World :=
  set_app_settings (f (app_settings w)) w.

Definition on_mapelites (f : MAPElites -> MAPElites) (w : World) : World :=
  on_settings (fun a => set_current_mapelites (f (current_mapelites a)) a) w.

(** ** Collaborators

    What the application calls in the rest of the repository and uses as a
    black box.  [py_float] stands for Python's [float] on a string. *)
Class Collaborators := {
  (** the effect of an archive method on the archive *)
  mapelites_method : Method -> MAPElites -> MAPElites;
  (** [MAPElites._valid_bins()] *)
  _valid_bins : MAPElites -> list MAPBin;
  (** [pcgsepy.hullbuilder.enforce_symmetry(string, axis)] *)
  enforce_symmetry : string -> string -> string;
  (** the low-level string [lsystem._add_ll_strings] derives from a string *)
  hl_to_ll : string -> string;
  (** Modelled from the spec: the structure [lsystem._set_structure] places
      from a low-level string, [realize(genotype, seed) -> phenotype |
      Fails(InvalidGenotype)]; [None] when the realisation fails *)
  realize : string -> option Structure;
  (** [MAPElites._prepare_cs_content(cs)], which has the hull builder of
      the archive at hand *)
  _prepare_cs_content : option HullBuilder -> CandidateSolution -> CandidateSolution;
  (** [HullBuilder.add_external_hull(structure)] *)
  add_external_hull : HullBuilder -> Structure -> Structure;
  (** [HumanPrefMatrixEmitter._build_pref_matrix(bins)] *)
  _build_pref_matrix : list (list MAPBin) -> Emitter -> Emitter;
  (** [StochasticRules.validate()]: the message of the assertion it fails *)
  validate : list Rule -> option string;
  (** [RuleMaker(ruleset).get_rules()], or the message of its assertion *)
  get_rules : string -> list Rule + string;
  (** [str] of a rule set *)
  rules_str : list Rule -> string;
  py_float : string -> option Q;
  (** the upper end of the fitness colour scale:
      [sum(x.weight * x.bounds[1]) + nsc] over the feasible fitnesses *)
  fitness_zmax : MAPElites -> Q;
  (** the name of an emitter, its attribute [name] *)
  emitter_name_of : Emitter -> string;
  (** [json.dumps([b.to_json() for b in bins.flatten().tolist()])] *)
  population_json : list (list MAPBin) -> string
}.

(** ** The state-and-exception monad *)

Inductive Outcome (A : Type) :=
| Return (a : A) (w : World)
| Raise (e : Exn) (w : World).

Arguments Return {A} a w.
Arguments Raise {A} e w.

Definition M (A : Type) : Type := World -> Outcome A.

Definition ret {A} (a : A) : M A := fun w => Return a w.

Definition bind {A B} (m : M A) (k : A -> M B) : M B :=
  fun w => match m w with
           | Return a w' => k a w'
           | Raise e w' => Raise e w'
           end.

Definition raise {A} (e : Exn) : M A := fun w => Raise e w.

Definition get : M World := fun w => Return w w.

Definition modify (f : World -> World) : M unit := fun w => Return tt (f w).

Notation "'let*' x ':=' m 'in' k" := (bind m (fun x => k))
  (at level 10, x pattern, m at level 100, k at level 200).

Notation "m1 >> m2" := (bind m1 (fun _ => m2))
  (at level 62, right associativity).

(** The world an outcome ends in, whether it returned or raised. *)
Definition final {A} (o : Outcome A) : World :=
  match o with Return _ w => w | Raise _ w => w end.

Definition returned {A} (o : Outcome A) : option A :=
  match o with Return a _ => Some a | Raise _ _ => None end.

(** [x] of an optional value, raising [e] when there is none. *)
Definition expect {A} (e : Exn) (o : option A) : M A :=
  match o with Some a => ret a | None => raise e end.

(** [if c: body]. *)
Definition when (c : bool) (body : M unit) : M unit :=
  if c then body else ret tt.

(** [for _ in range(n): body]. *)
Fixpoint repeatM (n : nat) (body : M unit) : M unit :=
  match n with
  | O => ret tt
  | S n' => body >> repeatM n' body
  end.

(** [for x in l: body(x)]. *)
Fixpoint forM {A} (l : list A) (body : A -> M unit) : M unit :=
  match l with
  | [] => ret tt
  | x :: l' => body x >> forM l' body
  end.

(** [logging.getLogger('webapp').info / .warn / .error]. *)
Definition logger (lvl : Level) (text : string) : M unit :=
  modify (fun w => set_log (log w ++ [mkLog lvl text]) w).

Definition record (e : Event) : M unit :=
  modify (fun w => set_calls (calls w ++ [e]) w).

(** ** Component values

    Figures and tables are presentation; a figure is kept as the data it was
    drawn from. *)
Inductive Mark := Selected | NewElite | NoMark.

Inductive Figure :=
| FigGiven (ndata : nat) (name : string)
| FigHeatmap (pop_name metric_name method_name : string) (text : list (list Mark))
| FigElite (structure : Structure) (camera : option string) (show_voxel : bool) (base : Vec)
| FigEmpty (camera : option string).

(** [len(fig['data'])]: the heat map and the scatter preview are one trace,
    the voxel preview is two meshes, the empty preview is one empty mesh. *)
Definition ndata_of (f : Figure) : nat :=
  match f with
  | FigGiven n _ => n
  | FigHeatmap _ _ _ _ => 1
  | FigElite _ _ v _ => if v then 2 else 1
  | FigEmpty _ => 1
  end.

Inductive Val :=
| VNone
| no_update
| VBool (b : bool)
| VStr (s : string)
| VFigure (f : Figure)
| VProperties (cs : option CandidateSolution)
| VLegend (base : Vec)
| VDownload (content filename : string)
| VBinsLabel (prefix : string) (entries : list ((nat * nat) * (Q * Q)))
| VComponent (c : string).

(** The arguments of the general callback that some handler reads: the
    [State] values, the [Input] values that carry data, and [event_trig].
    The click counters are never read.  [curr_camera] is the [relayoutData]
    of the preview: absent, or a dictionary that may hold ['scene.camera'];
    [clickData] holds the [x] and [y] of the clicked heat-map cell. *)
Record Kwargs := mkKwargs {
  event_trig : option string;
  curr_heatmap : Figure;
  rules : string;
  curr_content : Figure;
  cs_string_shown : string;
  cs_properties : Val;
  pop_name : string;
  metric_name : string;
  b0 : string;
  b1 : string;
  symm_axis : string;
  emitter_name : string;
  qs_um_modal_show : bool;
  nbs_err_modal_show : bool;
  rand_step_btn_style : Val;
  reset_btn_style : Val;
  dlbtn_label : string;
  curr_legend : Val;
  color_picked : string;
  curr_camera : option (option string);
  curr_voxel_display : bool;
  curr_unsafemode : bool;
  curr_unsafemode_div_style : Val;
  curr_unsafemode_title : Val;
  curr_unsafemode_body : Val;
  curr_emittersteps_style : Val;
  method_name : string;
  weights : list Q;
  modules : list string;
  clickData : nat * nat;
  upload_filename : string
}.

Definition set_event_trig (e : option string) (k : Kwargs) : Kwargs :=
  mkKwargs e (curr_heatmap k) (rules k) (curr_content k) (cs_string_shown k)
    (cs_properties k) (pop_name k) (metric_name k) (b0 k) (b1 k) (symm_axis k)
    (emitter_name k) (qs_um_modal_show k) (nbs_err_modal_show k)
    (rand_step_btn_style k) (reset_btn_style k) (dlbtn_label k) (curr_legend k)
    (color_picked k) (curr_camera k) (curr_voxel_display k) (curr_unsafemode k)
    (curr_unsafemode_div_style k) (curr_unsafemode_title k) (curr_unsafemode_body k)
    (curr_emittersteps_style k) (method_name k) (weights k) (modules k) (clickData k)
    (upload_filename k).

(** ** Small helpers of the module *)

(** [_switch]: [[(e[1], e[0]) for e in ls]]. *)
Definition _switch {A B : Type} (ls : list (A * B)) : list (B * A) :=
  map (fun e => (e.2, e.1)) ls.

(** [_switch([b])[0]]. *)
Definition switch1 (b : nat * nat) : nat * nat := (b.2, b.1).

(** [l[-1]] of a non-empty list. *)
Definition last_of {A} (l : list A) : option A := last l.

(** [l.remove(x)] when [x in l]: drops the first occurrence. *)
Fixpoint remove_first (x : nat * nat) (l : list (nat * nat)) : list (nat * nat) :=
  match l with
  | [] => []
  | y :: l' => if bool_decide (x = y) then l' else y :: remove_first x l'
  end.

Definition mem (x : nat * nat) (l : list (nat * nat)) : bool := bool_decide (x ∈ l).

(** [mapelites.bins[i, j]]. *)
Definition bin_at (m : MAPElites) (idx : nat * nat) : option MAPBin :=
  row ← bins m !! idx.1; row !! idx.2.

(** [np.ndenumerate(mapelites.bins)] visits the grid row by row. *)
Definition all_bins (m : MAPElites) : list MAPBin := concat (bins m).

Definition alter_bin (idx : nat * nat) (f : MAPBin -> MAPBin) (m : MAPElites) : MAPElites :=
  set_bins (alter (alter f idx.2) idx.1 (bins m)) m.

Definition map_bins (f : MAPBin -> MAPBin) (m : MAPElites) : MAPElites :=
  set_bins (fmap (M := list) (fmap (M := list) f) (bins m)) m.

(** Modelled from the spec: [MAPBin.get_elite] is outside [src/]; the elite
    of a population is its highest-fitness member, the first of them on a
    tie. *)
Fixpoint elite_pos_from (best_i : nat) (best : Q) (i : nat)
    (l : list CandidateSolution) : nat :=
  match l with
  | [] => best_i
  | c :: l' =>
      if Qle_bool (c_fitness c) best
      then elite_pos_from best_i best (S i) l'
      else elite_pos_from i (c_fitness c) (S i) l'
  end.

Definition elite_pos (l : list CandidateSolution) : option nat :=
  match l with
  | [] => None
  | c :: l' => Some (elite_pos_from 0 (c_fitness c) 1 l')
  end.

(** A candidate is a shared object: the application obtains it from the
    archive and assigns to its attributes, and the archive sees the
    assignment.  A reference names the place of the object in the archive. *)
Record Ref := mkRef { ref_bin : nat * nat; ref_pop : Pop; ref_pos : nat }.

Definition deref (m : MAPElites) (r : Ref) : option CandidateSolution :=
  b ← bin_at m (ref_bin r); population (ref_pop r) b !! ref_pos r.

Definition assign (r : Ref) (f : CandidateSolution -> CandidateSolution)
    (m : MAPElites) : MAPElites :=
  alter_bin (ref_bin r)
    (fun b => set_population (ref_pop r) (alter f (ref_pos r) (population (ref_pop r) b)) b) m.

(** Modelled from the spec: [pcgsepy.mapelites.map.get_elite(mapelites,
    bin_idx, pop)] is outside [src/]; it indexes the grid and returns the
    elite of the population, the object itself. *)
Definition get_elite (idx : nat * nat) (pop : Pop) : M Ref :=
  let* w := get in
  let* b := expect IndexError (bin_at (mapelites w) idx) in
  let* k := expect IndexError (elite_pos (population pop b)) in
  ret (mkRef idx pop k).

Definition read (r : Ref) : M CandidateSolution :=
  let* w := get in expect IndexError (deref (mapelites w) r).

Definition write (r : Ref) (f : CandidateSolution -> CandidateSolution) : M unit :=
  modify (on_mapelites (assign r f)).

(** ['feasible' if kwargs['pop_name'] == 'Feasible' else 'infeasible']. *)
Definition pop_of_name (name : string) : Pop :=
  if bool_decide (name = "Feasible") then feasible else infeasible.

(** Modelled from the spec: [app_settings.hm_callback_props['pop']] maps the
    two labels of the population menu to the population names. *)
Definition hm_pop (name : string) : option Pop :=
  if bool_decide (name = "Feasible") then Some feasible
  else if bool_decide (name = "Infeasible") then Some infeasible
  else None.

(** [x.get('scene.camera', None)] of the [relayoutData]. *)
Definition scene_camera (c : option (option string)) : M (option string) :=
  expect AttributeError c.

(** ** The application *)

Section Webapp.

Context `{Collaborators}.

(** A call of an archive method: the archive is replaced by what the method
    leaves, and the call is remembered. *)
Definition call (c : Method) : M unit :=
  modify (on_mapelites (mapelites_method c)) >> record (Called c).

(** [[x.bin_idx for x in mapelites._valid_bins()]]. *)
Definition valid_bins_idx (m : MAPElites) : list (nat * nat) :=
  bin_idx <$> _valid_bins m.

(** [lsystem._add_ll_strings(cs)] and [lsystem._set_structure(cs)] assign to
    the candidate they are given and return it.  [_set_structure] realises
    the low-level string of the candidate; when the realisation fails it
    raises with the candidate as it was given. *)
Definition _add_ll_strings (c : CandidateSolution) : CandidateSolution :=
  set_ll_string (hl_to_ll (cs_string c)) c.

Definition _set_structure (c : CandidateSolution) : option CandidateSolution :=
  st ← realize (ll_string c); Some (set_content (Some st) c).

(** [lsystem._set_structure(cs=elite)] on a candidate of the archive. *)
Definition set_structure_of (elite : Ref) : M unit :=
  let* c := read elite in
  let* c' := expect InvalidGenotype (_set_structure c) in
  write elite (fun _ => c').

(** An assignment through [cs.content], for a candidate that has one. *)
Definition on_content (f : Structure -> Structure) (c : CandidateSolution)
    : CandidateSolution :=
  set_content (f <$> _content c) c.

(** [cs.content]: the candidate has no way to build it, so reading it
    without a cached structure fails. *)
Definition content (c : CandidateSolution) : M Structure :=
  expect AttributeError (_content c).

Definition set_selection (l : list (nat * nat)) : M unit :=
  modify (on_settings (set_selected_bins l)).

Definition add_step_progress (d : Q) : M unit :=
  modify (on_settings (fun a => set_step_progress (step_progress a + d)%Q a)).

(** [get_properties_table(cs)]: with a candidate it reads the candidate's
    content. *)
Definition get_properties_table (cs : option CandidateSolution) : M Val :=
  match cs with
  | Some c => content c >> ret (VProperties (Some c))
  | None => ret (VProperties None)
  end.

(** [get_content_legend()] reads the global [base_color]. *)
Definition get_content_legend : M Val :=
  let* w := get in ret (VLegend (base_color_global w)).

(** The text of one heat-map cell in [_build_heatmap]. *)
Definition heat_mark (valid sel : list (nat * nat)) (gen : nat) (population : Pop)
    (i j : nat) (b : MAPBin) : Mark :=
  if non_empty feasible b then
    if mem (i, j) valid then
      if mem (j, i) sel then Selected
      else if (0 <? gen)%nat && new_elite_at population b then NewElite
      else NoMark
    else NoMark
  else NoMark.

(** [_build_heatmap]: reads the archive, the selection and the generation
    counter; the metric values come from the bins and are not kept.  The
    metric and method labels come from fixed menus and always have an entry
    in [hm_callback_props]. *)
Definition _build_heatmap (pop_name metric_name method_name : string) : M Figure :=
  let* w := get in
  let m := mapelites w in
  let valid := valid_bins_idx m in
  let* population := expect KeyError (hm_pop pop_name) in
  ret (FigHeatmap pop_name metric_name method_name
         (imap (fun i row =>
                  imap (fun j b =>
                          heat_mark valid (selected_bins (app_settings w))
                                    (gen_counter (app_settings w)) population i j b)
                       row)
               (bins m))).

(** [_get_elite_content]: the preview of an elite.  With a symmetry axis set
    it rebuilds the content of the elite from the symmetric string, in
    place, and puts the original string back; nothing is put back when the
    realisation raises. *)
Definition _get_elite_content (idx : option (nat * nat)) (pop : Pop)
    (camera : option string) (show_voxel : bool) : M Figure :=
  match idx with
  | Some idx =>
      let* elite := get_elite idx pop in
      let* w := get in
      (match symmetry (app_settings w) with
       | Some axis =>
           let* e := read elite in
           let original_string := cs_string e in
           write elite (set_content None) >>
           write elite (set_cs_string (enforce_symmetry (cs_string e) axis)) >>
           write elite _add_ll_strings >>
           set_structure_of elite >>
           write elite (on_content clear_air_gridmask) >>
           when (is_feasible e)
             (match hull_builder (mapelites w) with
              | Some hb => write elite (on_content (add_external_hull hb))
              | None => ret tt
              end) >>
           write elite (set_cs_string original_string) >>
           write elite (fun c => on_content (set_color (base_color c)) c)
       | None => ret tt
       end) >>
      let* e := read elite in
      let* structure := content e in
      let* w' := get in
      ret (FigElite structure camera show_voxel (base_color_global w'))
  | None => ret (FigEmpty camera)
  end.

(** The prefix sums of bin sizes [_format_bins] prints:
    [np.sum([b.bin_size[0] for b in bins[:i, j]])] and
    [np.sum([b.bin_size[1] for b in bins[i, :j]])]. *)
Definition ncols (m : MAPElites) : nat :=
  match bins m with [] => 0 | row :: _ => length row end.

Definition Qsum (l : list Q) : Q := foldr Qplus 0%Q l.

Definition column_prefix (m : MAPElites) (i j : nat) : option (list MAPBin) :=
  if (j <? ncols m)%nat then Some (omap (fun row => row !! j) (take i (bins m))) else None.

Definition row_prefix (m : MAPElites) (i j : nat) : option (list MAPBin) :=
  take j <$> bins m !! i.

Definition bin_label (i j : nat) : M ((nat * nat) * (Q * Q)) :=
  let* w := get in
  let* c := expect IndexError (column_prefix (mapelites w) i j) in
  let* r := expect IndexError (row_prefix (mapelites w) i j) in
  ret ((i, j), (Qsum ((fun b => (bin_size b).1) <$> c),
                Qsum ((fun b => (bin_size b).2) <$> r))).

(** [_format_bins(mapelites, app_settings.selected_bins, prefix,
    do_switch, filter_out_empty)].  The list it is given is the selection
    itself, and it removes from it in place. *)
Definition format_bin (do_switch filter_out_empty : bool) (b : MAPBin)
    (entries : list ((nat * nat) * (Q * Q))) : M (list ((nat * nat) * (Q * Q))) :=
  let '(i, j) := bin_idx b in
  if filter_out_empty then
    if non_empty feasible b || non_empty infeasible b then
      let '(i, j) := if do_switch then (j, i) else (i, j) in
      let* e := bin_label i j in
      ret (entries ++ [e])%list
    else
      let* w := get in
      let sel := selected_bins (app_settings w) in
      (if mem (bin_idx b) sel then set_selection (remove_first (i, j) sel) else ret tt) >>
      ret entries
  else
    let* e := bin_label i j in
    ret (entries ++ [e])%list.

Fixpoint format_bins_loop (do_switch filter_out_empty : bool) (bs : list MAPBin)
    (entries : list ((nat * nat) * (Q * Q))) : M (list ((nat * nat) * (Q * Q))) :=
  match bs with
  | [] => ret entries
  | b :: bs' =>
      let* entries' := format_bin do_switch filter_out_empty b entries in
      format_bins_loop do_switch filter_out_empty bs' entries'
  end.

Fixpoint bins_of (m : MAPElites) (do_switch : bool) (l : list (nat * nat))
    : option (list MAPBin) :=
  match l with
  | [] => Some []
  | (i, j) :: l' =>
      b ← bin_at m (if do_switch then (j, i) else (i, j));
      bs ← bins_of m do_switch l';
      Some (b :: bs)
  end.

Definition _format_bins (str_prefix : string) (do_switch filter_out_empty : bool)
    : M Val :=
  let* w := get in
  let* bins_list :=
    expect IndexError (bins_of (mapelites w) do_switch (selected_bins (app_settings w))) in
  let* entries := format_bins_loop do_switch filter_out_empty bins_list [] in
  ret (VBinsLabel str_prefix entries).

(** *** Text of log records *)

Definition py_bool (b : bool) : string := if b then "True" else "False".

Definition py_tuple (x : nat * nat) : string :=
  "(" +:+ pretty x.1 +:+ ", " +:+ pretty x.2 +:+ ")".

Definition py_list (l : list (nat * nat)) : string :=
  "[" +:+ String.concat ", " (py_tuple <$> l) +:+ "]".

Definition module_name_ : string := "pcgsepy.guis.main_webapp.webapp".

(** *** One generation step *)

(** The post-processing of [_apply_step]: for every bin, row by row, and
    both populations, [if b.non_empty(pop)] the elite [b.get_elite(pop)]
    without cached content gets it rebuilt, in place.  A realisation that
    fails ends the loop with the elites before it rebuilt. *)
Definition grid_indices (m : MAPElites) : list (nat * nat) :=
  concat (imap (fun i row => imap (fun j _ => (i, j)) row) (bins m)).

Definition refresh_elite (idx : nat * nat) (pop : Pop) : M unit :=
  let* w := get in
  match bin_at (mapelites w) idx with
  | Some b =>
      if non_empty pop b then
        let* elite := get_elite idx pop in
        let* e := read elite in
        match _content e with
        | None =>
            set_structure_of elite >>
            write elite (_prepare_cs_content (hull_builder (mapelites w)))
        | Some _ => ret tt
        end
      else ret tt
  | None => ret tt
  end.

Definition refresh_contents : M unit :=
  let* w := get in
  forM (grid_indices (mapelites w))
       (fun idx => refresh_elite idx feasible >> refresh_elite idx infeasible).

Definition perc_step (n : nat) : Q := (100 / inject_Z (Z.of_nat (1 + n)))%Q.

(** [_apply_step(mapelites, selected_bins, gen_counter, only_emitter)]. *)
Definition _apply_step (selected : list (nat * nat)) (gen : nat) (only_emitter : bool)
    : M bool :=
  let* w := get in
  let m := mapelites w in
  let steps := emitter_steps (app_settings w) in
  let valid :=
    if enforce_qnt m
    then forallb (fun idx => mem idx (valid_bins_idx m)) selected
    else true in
  if valid then
    logger INFO ("Started step " +:+ pretty (gen + 1) +:+ "...") >>
    call (update_elites true) >>
    modify (on_settings (set_step_progress 0%Q)) >>
    when (negb only_emitter) (call (interactive_step selected gen)) >>
    add_step_progress (perc_step steps) >>
    (let* w1 := get in
     logger INFO ("Completed step " +:+ pretty (gen + 1) +:+ " (created "
                  +:+ pretty (n_new_solutions (mapelites w1)) +:+ " solutions); running "
                  +:+ pretty steps +:+ " additional emitter steps if available...")) >>
    modify (on_mapelites (set_n_new_solutions 0)) >>
    (let* w2 := get in
     let tmp_emitter := emitter (mapelites w2) in
     when only_emitter (modify (on_mapelites (set_emitter (new_emitter RandomEmitter)))) >>
     repeatM steps (call (emitter_step gen) >> add_step_progress (perc_step steps)) >>
     when only_emitter (modify (on_mapelites (set_emitter tmp_emitter)))) >>
    (let* w3 := get in
     logger INFO ("Emitter step(s) completed (created "
                  +:+ pretty (n_new_solutions (mapelites w3)) +:+ " solutions).")) >>
    modify (on_mapelites (set_n_new_solutions 0)) >>
    call (update_elites false) >>
    refresh_contents >>
    modify (on_settings (set_step_progress (-1)%Q)) >>
    ret true
  else
    logger INFO "Step not applied: invalid bin(s) selected." >>
    ret false.

(** [_update_base_color(color)]. *)
Definition recolor (c : Vec) (cs : CandidateSolution) : CandidateSolution :=
  on_content (set_color c) (set_base_color c cs).

Definition recolor_bin (c : Vec) (b : MAPBin) : MAPBin :=
  mkBin (bin_idx b) (bin_size b) (recolor c <$> _feasible b) (recolor c <$> _infeasible b)
        (new_elite b).

Definition _update_base_color (c : Vec) : M unit :=
  modify (on_mapelites (map_bins (recolor_bin c))).

(** *** The handlers of the general callback

    A handler returns the dictionary of the component values it updates. *)

Definition is_empty {A} (l : list A) : bool :=
  match l with [] => true | _ => false end.

(** The loop of [__apply_step] that pops, in place, every selected bin that
    is no longer valid. *)
Definition drop_invalid_selected : M unit :=
  modify (on_settings
            (fun a => set_selected_bins
                        (filter (fun b => switch1 b ∈ valid_bins_idx (current_mapelites a))
                                (selected_bins a))
                        a)).

(** [__apply_step]. *)
Definition __apply_step (kw : Kwargs) : M (gmap string Val) :=
  let* w := get in
  let a := app_settings w in
  let rand := bool_decide (event_trig kw = Some "rand-step-btn") in
  let result (content : Figure) (cs_string : string) (heatmap : Figure) (nbs : bool)
             (props : Val) : gmap string Val :=
    list_to_map [("content-plot.figure", VFigure content);
                 ("content-string.value", VStr cs_string);
                 ("heatmap-plot.figure", VFigure heatmap);
                 ("nbs-err-modal.is_open", VBool nbs);
                 ("spaceship-properties.children", props);
                 ("download-btn.children", VStr (dlbtn_label kw))] in
  let unchanged := (curr_content kw, cs_string_shown kw, cs_properties kw) in
  if negb (is_empty (selected_bins a)) || rand then
    let* res := _apply_step (_switch (selected_bins a)) (gen_counter a)
                            (rand && bool_decide (app_mode a = USER)) in
    if res then
      modify (on_settings (fun a => set_gen_counter (gen_counter a + 1) a)) >>
      let* w1 := get in
      let* shown :=
        if negb (is_empty (selected_bins (app_settings w1))) then
          drop_invalid_selected >>
          let* w2 := get in
          match last_of (selected_bins (app_settings w2)) with
          | None =>
              let* fig := _get_elite_content None feasible None false in
              let* props := get_properties_table None in
              ret (fig, "", props)
          | Some lastb =>
              let lb := switch1 lastb in
              let* b := expect IndexError (bin_at (mapelites w2) lastb) in
              let* pop := expect KeyError (hm_pop (pop_name kw)) in
              if new_elite_at pop b then
                let* camera := scene_camera (curr_camera kw) in
                let* fig := _get_elite_content (Some lb) (pop_of_name (pop_name kw))
                                               camera (curr_voxel_display kw) in
                let* elite := get_elite lb (pop_of_name (pop_name kw)) in
                let* e := read elite in
                let* props := get_properties_table (Some e) in
                ret (fig, cs_string e, props)
              else ret unchanged
          end
        else ret unchanged in
      let* heatmap := _build_heatmap (pop_name kw) (metric_name kw) (method_name kw) in
      ret (result shown.1.1 shown.1.2 heatmap (nbs_err_modal_show kw) shown.2)
    else
      ret (result (curr_content kw) (cs_string_shown kw) (curr_heatmap kw)
                  (nbs_err_modal_show kw) (cs_properties kw))
  else
    logger ERROR "Step not applied: no bin(s) selected." >>
    ret (result (curr_content kw) (cs_string_shown kw) (curr_heatmap kw) true
                (cs_properties kw)).

(** [__reset]. *)
Definition __reset (kw : Kwargs) : M (gmap string Val) :=
  logger INFO "Started resetting all bins (this may take a while)..." >>
  call reset >>
  logger INFO "Reset completed." >>
  modify (on_settings (set_gen_counter 0)) >>
  set_selection [] >>
  (let* w := get in _update_base_color (base_color_global w)) >>
  let* heatmap := _build_heatmap (pop_name kw) (metric_name kw) (method_name kw) in
  let* fig := _get_elite_content None feasible None false in
  let* props := get_properties_table None in
  ret (list_to_map [("heatmap-plot.figure", VFigure heatmap);
                    ("content-plot.figure", VFigure fig);
                    ("spaceship-properties.children", props)]).

(** *** Python string operations

    A character of the model is one code point below 256; text with other
    code points is outside the model. *)

(** [s.replace(old, new)] for a non-empty [old]. *)
Fixpoint replace_from (old new : string) (skip : nat) (s : string) : string :=
  match s with
  | EmptyString => EmptyString
  | String c s' =>
      match skip with
      | S k => replace_from old new k s'
      | O =>
          if String.prefix old s
          then new +:+ replace_from old new (String.length old - 1) s'
          else String c (replace_from old new 0 s')
      end
  end.

Definition replace (old new s : string) : string := replace_from old new 0 s.

(** [s.split(sep)] for a one-character separator. *)
Fixpoint split_on (sep : ascii) (s : string) : list string :=
  match s with
  | EmptyString => [EmptyString]
  | String c s' =>
      if Ascii.eqb c sep then EmptyString :: split_on sep s'
      else match split_on sep s' with
           | x :: r => String c x :: r
           | [] => [String c EmptyString]
           end
  end.

(** [c.isspace()], the characters [s.strip()] removes: U+0009 to U+000D,
    U+001C to U+0020, U+0085 and U+00A0. *)
Definition is_space (c : ascii) : bool :=
  let n := nat_of_ascii c in
  ((9 <=? n) && (n <=? 13) || (28 <=? n) && (n <=? 32) || (n =? 133) || (n =? 160))%nat.

(** The white space [int(s, 16)] skips at both ends of [s]: U+0009 to
    U+000D, the space, U+0085 and U+00A0, and not U+001C to U+001F. *)
Definition is_int_space (c : ascii) : bool :=
  let n := nat_of_ascii c in
  ((9 <=? n) && (n <=? 13) || (n =? 32) || (n =? 133) || (n =? 160))%nat.

Fixpoint lstrip_while (f : ascii -> bool) (s : string) : string :=
  match s with
  | EmptyString => EmptyString
  | String c s' => if f c then lstrip_while f s' else s
  end.

Definition rev_string (s : string) : string :=
  String.string_of_list_ascii (rev (String.list_ascii_of_string s)).

(** [s.strip()]. *)
Definition strip (s : string) : string :=
  rev_string (lstrip_while is_space (rev_string (lstrip_while is_space s))).

Definition hex_digit (c : ascii) : option Z :=
  let n := nat_of_ascii c in
  if ((48 <=? n) && (n <=? 57))%nat then Some (Z.of_nat n - 48)%Z
  else if ((65 <=? n) && (n <=? 70))%nat then Some (Z.of_nat n - 55)%Z
  else if ((97 <=? n) && (n <=? 102))%nat then Some (Z.of_nat n - 87)%Z
  else None.

Fixpoint hex_value (acc : Z) (s : string) : option Z :=
  match s with
  | EmptyString => Some acc
  | String c s' => d ← hex_digit c; hex_value (16 * acc + d)%Z s'
  end.

(** [int(s, 16)] for a string of at most two characters, the only ones the
    colour parser passes: surrounding white space, one sign, hexadecimal
    digits.  (Prefixes and digit separators need three characters.) *)
Definition int16 (s : string) : option Z :=
  match rev_string (lstrip_while is_int_space (rev_string (lstrip_while is_int_space s))) with
  | EmptyString => None
  | String "+" EmptyString => None
  | String "-" EmptyString => None
  | String "+" d => hex_value 0 d
  | String "-" d => Z.opp <$> hex_value 0 d
  | d => hex_value 0 d
  end.

(** [__bc_change]. *)
Definition descriptor_of_event (prefix ev : string) : string :=
  replace "-" " " (replace "_" " / " (replace prefix "" ev)).

Definition __bc_change (kw : Kwargs) : M (gmap string Val) :=
  let* ev := expect AttributeError (event_trig kw) in
  let* heatmap :=
    if String.prefix "bc0" ev || String.prefix "bc1" ev then
      let b0' := if String.prefix "bc0" ev then descriptor_of_event "bc0-" ev else b0 kw in
      let b1' := if String.prefix "bc0" ev then b1 kw else descriptor_of_event "bc1-" ev in
      logger INFO ("Updating feature descriptors to (" +:+ b0' +:+ ", " +:+ b1' +:+ ")...") >>
      let* w := get in
      let names := behavior_descriptors (app_settings w) in
      (if bool_decide (b0' ∈ names) then ret tt else raise ValueError) >>
      (if bool_decide (b1' ∈ names) then ret tt else raise ValueError) >>
      call (update_behavior_descriptors b0' b1') >>
      let* heatmap := _build_heatmap (pop_name kw) (metric_name kw) (method_name kw) in
      logger INFO "Feature descriptors update completed." >>
      ret heatmap
    else
      logger ERROR ("Could not change BC: passed unrecognized value (" +:+ ev +:+ ").") >>
      ret (curr_heatmap kw) in
  ret (list_to_map [("heatmap-plot.figure", VFigure heatmap)]).

(** [__subdivide]. *)
Definition __subdivide (kw : Kwargs) : M (gmap string Val) :=
  let* w := get in
  let sel := selected_bins (app_settings w) in
  forM (_switch sel) (fun idx => call (subdivide_range idx)) >>
  let* heatmap := _build_heatmap (pop_name kw) (metric_name kw) (method_name kw) in
  logger INFO ("Subdivided bin(s): " +:+ py_list sel +:+ ".") >>
  set_selection [] >>
  ret (list_to_map [("heatmap-plot.figure", VFigure heatmap)]).

(** [__lsystem_modules]: toggles the first module whose activity disagrees
    with the check list, and stops. *)
Fixpoint first_to_toggle (chosen : list string) (ms : list LModule) : option string :=
  match ms with
  | [] => None
  | m :: ms' =>
      let listed := bool_decide (module_name m ∈ chosen) in
      if listed && negb (active m) then Some (module_name m)
      else if negb listed && active m then Some (module_name m)
      else first_to_toggle chosen ms'
  end.

Definition __lsystem_modules (kw : Kwargs) : M (gmap string Val) :=
  let* w := get in
  (match first_to_toggle (modules kw) (lsystem_modules (mapelites w)) with
   | Some name => call (toggle_module_mutability name)
   | None => ret tt
   end) >>
  logger INFO "L-system modules updated" >>
  ret ∅.

(** [__update_rules]: every line is [lhs p rhs]. *)
Definition parse_rule (line : string) : M Rule :=
  match split_on " " (strip line) with
  | [l; x; r] =>
      let* p := expect ValueError (py_float x) in
      ret (mkRule l r p)
  | _ => raise ValueError
  end.

Fixpoint parse_rules (lines : list string) : M (list Rule) :=
  match lines with
  | [] => ret []
  | line :: lines' =>
      let* r := parse_rule line in
      let* rs := parse_rules lines' in
      ret (r :: rs)
  end.

Definition newline : ascii := ascii_of_nat 10.

Definition __update_rules (kw : Kwargs) : M (gmap string Val) :=
  let* new_rules := parse_rules (split_on newline (rules kw)) in
  (match validate new_rules with
   | None =>
       modify (on_mapelites (set_hl_rules new_rules)) >>
       logger INFO "L-system rules updated."
   | Some e =>
       logger INFO ("Failed updating L-system rules (" +:+ e +:+ ").")
   end) >>
  let* w := get in
  ret (list_to_map [("hl-rules.value", VStr (rules_str (hl_rules (mapelites w))))]).

(** [__fitness_weights]. *)
Definition __fitness_weights (kw : Kwargs) : M (gmap string Val) :=
  call (update_fitness_weights (weights kw)) >>
  logger INFO "Updated fitness functions weights." >>
  modify (fun w => on_settings (set_zmax_feasible_fitness (fitness_zmax (mapelites w))) w) >>
  let* heatmap := _build_heatmap (pop_name kw) (metric_name kw) (method_name kw) in
  ret (list_to_map [("heatmap-plot.figure", VFigure heatmap)]).

(** [__update_heatmap]. *)
Definition __update_heatmap (kw : Kwargs) : M (gmap string Val) :=
  let ev := event_trig kw in
  let pop :=
    if bool_decide (ev = Some "population-feasible") then "Feasible"
    else if bool_decide (ev = Some "population-infeasible") then "Infeasible"
    else pop_name kw in
  let metric :=
    if bool_decide (ev = Some "population-feasible") then metric_name kw
    else if bool_decide (ev = Some "population-infeasible") then metric_name kw
    else if bool_decide (ev = Some "metric-fitness") then "Fitness"
    else if bool_decide (ev = Some "metric-age") then "Age"
    else if bool_decide (ev = Some "metric-coverage") then "Coverage"
    else metric_name kw in
  let* heatmap := _build_heatmap pop metric (method_name kw) in
  ret (list_to_map [("heatmap-plot.figure", VFigure heatmap)]).

(** [__apply_symmetry]. *)
Definition __apply_symmetry (kw : Kwargs) : M (gmap string Val) :=
  logger INFO "Updating all solutions to enforce symmetry..." >>
  let ev := event_trig kw in
  let* axis :=
    if bool_decide (ev = Some "symmetry-none") then ret ("None", None)
    else if bool_decide (ev = Some "symmetry-x") then ret ("X-axis", Some "x")
    else if bool_decide (ev = Some "symmetry-z") then ret ("Z-axis", Some "z")
    else raise UnboundLocalError in
  modify (on_settings (set_symmetry axis.2)) >>
  set_selection [] >>
  let* heatmap := _build_heatmap (pop_name kw) (metric_name kw) (method_name kw) in
  let* fig := _get_elite_content None feasible None false in
  logger INFO "Symmetry enforcement completed." >>
  let* props := get_properties_table None in
  ret (list_to_map [("content-plot.figure", VFigure fig);
                    ("heatmap-plot.figure", VFigure heatmap);
                    ("content-string.value", VStr "");
                    ("symmetry-dropdown.label", VStr axis.1);
                    ("spaceship-properties.children", props)]).

(** The selection after a click on the cell [(i, j)]: without the
    single-bin limit and with bins already selected the cell is toggled in
    the selection, otherwise it becomes the selection. *)
Definition select_clicked (cell : nat * nat) : M unit :=
  let* w := get in
  let sel := selected_bins (app_settings w) in
  if negb (enforce_qnt (mapelites w)) && negb (is_empty sel) then
    if negb (mem cell sel)
    then set_selection (sel ++ [cell])
    else set_selection (remove_first cell sel)
  else set_selection [cell].

(** [__update_content]: a click on a heat-map cell. *)
Definition __update_content (kw : Kwargs) : M (gmap string Val) :=
  let result (heatmap content : Figure) (cs_string : string) (props : Val)
      : gmap string Val :=
    list_to_map [("heatmap-plot.figure", VFigure heatmap);
                 ("content-plot.figure", VFigure content);
                 ("content-string.value", VStr cs_string);
                 ("spaceship-properties.children", props)] in
  let '(i, j) := clickData kw in
  let pop := pop_of_name (pop_name kw) in
  let* w := get in
  let* b := expect IndexError (bin_at (mapelites w) (j, i)) in
  if non_empty pop b then
    if mem (j, i) (valid_bins_idx (mapelites w)) then
      let* content := _get_elite_content (Some (j, i)) pop None (curr_voxel_display kw) in
      select_clicked (i, j) >>
      let* props0 := get_properties_table None in
      let* w2 := get in
      match last_of (selected_bins (app_settings w2)) with
      | Some lastb =>
          let* elite := get_elite (switch1 lastb) pop in
          let* e := read elite in
          let* props := get_properties_table (Some e) in
          let* heatmap := _build_heatmap (pop_name kw) (metric_name kw) (method_name kw) in
          ret (result heatmap content (cs_string e) props)
      | None => ret (result (curr_heatmap kw) content "" props0)
      end
    else
      ret (result (curr_heatmap kw) (curr_content kw) (cs_string_shown kw) (cs_properties kw))
  else
    logger ERROR ("[" +:+ module_name_ +:+ ".__update_content] Empty bin selected: (i, j)="
                  +:+ py_tuple (i, j)) >>
    ret (result (curr_heatmap kw) (curr_content kw) (cs_string_shown kw) (cs_properties kw)).

(** The preview of the last selected bin, as several handlers draw it. *)
Definition preview_last_selected (kw : Kwargs) : M Figure :=
  let* w := get in
  match last_of (selected_bins (app_settings w)) with
  | Some lastb =>
      let* camera := scene_camera (curr_camera kw) in
      _get_elite_content (Some (switch1 lastb)) (pop_of_name (pop_name kw)) camera
                         (curr_voxel_display kw)
  | None => ret (curr_content kw)
  end.

(** [__toggle_voxelization]. *)
Definition __toggle_voxelization (kw : Kwargs) : M (gmap string Val) :=
  modify (on_settings (set_voxelised (curr_voxel_display kw))) >>
  let* content := preview_last_selected kw in
  ret (list_to_map [("content-plot.figure", VFigure content)]).

(** [__selection]: toggles the single-bin limit. *)
Definition __selection (kw : Kwargs) : M (gmap string Val) :=
  modify (on_mapelites (fun m => set_enforce_qnt (negb (enforce_qnt m)) m)) >>
  let* w := get in
  logger INFO ("MAP-Elites single bin selection set to "
               +:+ py_bool (enforce_qnt (mapelites w)) +:+ ".") >>
  (match last_of (selected_bins (app_settings w)) with
   | Some lastb => when (enforce_qnt (mapelites w)) (set_selection [lastb])
   | None => ret tt
   end) >>
  ret ∅.

(** [__clear_selection]. *)
Definition __clear_selection (kw : Kwargs) : M (gmap string Val) :=
  logger INFO "Cleared bins selection." >>
  set_selection [] >>
  let* content := _get_elite_content None feasible None false in
  let* props := get_properties_table None in
  ret (list_to_map [("content-plot.figure", VFigure content);
                    ("content-string.value", VStr "");
                    ("spaceship-properties.children", props)]).

(** [__emitter]: the names of the menu entries, then the chain of tests on
    the name. *)
Definition emitter_names : gmap string string :=
  list_to_map [("emitter-human", "Human");
               ("emitter-random", "Random");
               ("emitter-greedy", "Greedy");
               ("emitter-prefmatrix", "Preference Matrix");
               ("emitter-prefbandit", "Preference Bandit");
               ("emitter-conbandit", "Contextual Bandit");
               ("emitter-knn", "KNN");
               ("emitter-linkernel", "Linear Kernel");
               ("emitter-rbfkernel", "RBF Kernel")].

Definition use_emitter (c : EmitterClass) (name : string) : M unit :=
  modify (on_mapelites (set_emitter (new_emitter c))) >>
  logger INFO ("Emitter set to " +:+ name).

Definition __emitter (kw : Kwargs) : M (gmap string Val) :=
  let* ev := expect KeyError (event_trig kw) in
  let* name := expect KeyError (emitter_names !! ev) in
  when (bool_decide (name = "Random")) (use_emitter RandomEmitter name) >>
  (if bool_decide (name = "Greedy") then use_emitter GreedyEmitter name
   else if bool_decide (name = "Preference-matrix") then
     modify (on_mapelites (set_emitter (new_emitter HumanPrefMatrixEmitter))) >>
     modify (on_mapelites (fun m => set_emitter (_build_pref_matrix (bins m) (emitter m)) m)) >>
     logger INFO ("Emitter set to " +:+ name)
   else if bool_decide (name = "Contextual Bandit") then
     use_emitter ContextualBanditEmitter name
   else if bool_decide (name = "Preference Bandit") then
     use_emitter PreferenceBanditEmitter name
   else if bool_decide (name = "KNN") then use_emitter KNEmitter name
   else if bool_decide (name = "Linear Kernel") then use_emitter KernelEmitter name
   else if bool_decide (name = "Human") then use_emitter HumanEmitter name
   else
     logger ERROR ("[" +:+ module_name_ +:+ ".__emitter] Unrecognized emitter_name='"
                   +:+ name +:+ "'")) >>
  ret (list_to_map [("emitter-dropdown.label", VStr name)]).

(** [__population_download]. *)
Definition __population_download (kw : Kwargs) : M (gmap string Val) :=
  let* w := get in
  let a := app_settings w in
  let filename :=
    "population_" +:+ pretty (rngseed a) +:+ "_exp" +:+ pretty (gen_counter a) +:+ "_"
    +:+ emitter_name_of (emitter (mapelites w)) +:+ ".json" in
  logger INFO "The population will be downloaded shortly." >>
  ret (list_to_map [("download-population.data",
                     VDownload (population_json (bins (mapelites w))) filename)]).

(** [__population_upload]. *)
Definition __population_upload (kw : Kwargs) : M (gmap string Val) :=
  logger INFO "Setting population from file..." >>
  call (load_population (upload_filename kw)) >>
  logger INFO "Set population from file successfully." >>
  modify (on_settings (set_gen_counter 0)) >>
  set_selection [] >>
  let* heatmap := _build_heatmap (pop_name kw) (metric_name kw) (method_name kw) in
  let* content := _get_elite_content None feasible None false in
  let* props := get_properties_table None in
  ret (list_to_map [("heatmap-plot.figure", VFigure heatmap);
                    ("content-plot.figure", VFigure content);
                    ("spaceship-properties.children", props)]).

(** [__close_error]. *)
Definition __close_error (kw : Kwargs) : M (gmap string Val) :=
  ret (list_to_map [("nbs-err-modal.is_open", VBool false)]).

(** [__color]: the colour is [#rrggbb]; each pair of digits is read with
    [int(_, 16)] and scaled by [1 / 256]. *)
Definition parse_color (color : string) : option Vec :=
  let digits := lstrip_while (fun c => Ascii.eqb c "#") color in
  r ← int16 (String.substring 0 2 digits);
  g ← int16 (String.substring 2 2 digits);
  b ← int16 (String.substring 4 2 digits);
  Some (scale (v3f (inject_Z r) (inject_Z g) (inject_Z b)) (1 / 256)%Q).

Definition __color (kw : Kwargs) : M (gmap string Val) :=
  let* new_color := expect ValueError (parse_color (color_picked kw)) in
  modify (set_base_color_global new_color) >>
  _update_base_color new_color >>
  let* content := preview_last_selected kw in
  let* legend := get_content_legend in
  ret (list_to_map [("content-plot.figure", VFigure content);
                    ("content-legend-div.children", legend)]).

(** [__show_quickstart_modal]. *)
Definition __show_quickstart_modal (kw : Kwargs) : M (gmap string Val) :=
  ret (list_to_map [("quickstart-usermode-modal.is_open", VBool true)]).

(** [__default]. *)
Definition __default (kw : Kwargs) : M (gmap string Val) :=
  let* heatmap := _build_heatmap (pop_name kw) (metric_name kw) (method_name kw) in
  let* w := get in
  let* content :=
    _get_elite_content (switch1 <$> last_of (selected_bins (app_settings w)))
                       (pop_of_name (pop_name kw)) None false in
  ret (list_to_map [("heatmap-plot.figure", VFigure heatmap);
                    ("content-plot.figure", VFigure content)]).

(** [__show_toggle_unsafe_mode_modal]. *)
Definition __show_toggle_unsafe_mode_modal (kw : Kwargs) : M (gmap string Val) :=
  ret (list_to_map [("sm-modal.is_open", VBool true);
                    ("unsaferules-mode-toggle.value", VBool (negb (curr_unsafemode kw)))]).

(** [__toggle_unsafe_mode]. *)
Definition __toggle_unsafe_mode (kw : Kwargs) : M (gmap string Val) :=
  let unsafe := curr_unsafemode kw in
  logger INFO ("Toggling safe mode to " +:+ py_bool (negb unsafe)) >>
  let ruleset := if unsafe then "hlrules" else "hlrules_sm" in
  (match get_rules ruleset with
   | inl new_rules =>
       modify (on_mapelites (set_hl_rules new_rules)) >>
       logger INFO "L-system rules updated."
   | inr e =>
       logger WARNING ("Failed updating L-system rules (" +:+ e +:+ ").")
   end) >>
  logger INFO "Started resetting all bins (this may take a while)..." >>
  let* w := get in
  let* hb := expect AttributeError (hull_builder (mapelites w)) in
  modify (on_mapelites
            (set_hull_builder (Some (mkHullBuilder (erosion_type hb) (apply_erosion hb) false)))) >>
  call reset >>
  logger INFO "Reset completed." >>
  modify (on_settings (set_gen_counter 0)) >>
  set_selection [] >>
  modify (on_settings (set_safe_mode (negb unsafe))) >>
  let* w' := get in
  let* heatmap := _build_heatmap (pop_name kw) (metric_name kw) (method_name kw) in
  let* content := _get_elite_content None feasible None false in
  let* props := get_properties_table None in
  ret (list_to_map
         [("sm-modal.is_open", VBool false);
          ("unsaferules-mode-toggle.value", VBool (negb unsafe));
          ("sm-modal-title.children",
           VComponent (if unsafe then "Turn on safe mode?" else "Turn off safe mode?"));
          ("sm-modal-body.children",
           VComponent (if unsafe then "toggle_safe_rules_on_msg"
                       else "toggle_safe_rules_off_msg"));
          ("hl-rules.value", VStr (rules_str (hl_rules (mapelites w'))));
          ("heatmap-plot.figure", VFigure heatmap);
          ("content-plot.figure", VFigure content);
          ("spaceship-properties.children", props)]).

(** *** The general callback *)

(** The [Input]s of the general callback: what can trigger it. *)
Inductive Input :=
| In_population_feasible | In_population_infeasible
| In_metric_fitness | In_metric_age | In_metric_coverage | In_method_radio
| In_step_btn | In_rand_step_btn | In_reset_btn | In_subdivide_btn
| In_fitness_sldr (index : nat)
| In_bc0_Major_axis_Medium_axis | In_bc0_Major_axis_Smallest_axis
| In_bc0_Average_Proportions | In_bc0_Symmetry
| In_bc1_Major_axis_Medium_axis | In_bc1_Major_axis_Smallest_axis
| In_bc1_Average_Proportions | In_bc1_Symmetry
| In_lsystem_modules | In_update_rules_btn | In_heatmap_plot
| In_selection_btn | In_selection_clr_btn
| In_emitter_human | In_emitter_random | In_emitter_greedy | In_emitter_prefmatrix
| In_emitter_prefbandit | In_emitter_conbandit | In_emitter_knn
| In_emitter_linkernel | In_emitter_rbfkernel
| In_download_btn | In_popdownload_btn | In_popupload_data
| In_symmetry_none | In_symmetry_x | In_symmetry_z
| In_nbs_err_btn | In_color_picker_btn | In_webapp_quickstart_btn
| In_voxel_preview_toggle | In_unsaferules_mode_toggle | In_tsrm_y_btn.

(** The identifier of a component: a string, or for the fitness sliders a
    dictionary with a type and an index. *)
Inductive ComponentId :=
| Id (s : string)
| Pattern (type_ : string) (index : nat).

Definition component_id (i : Input) : ComponentId :=
  match i with
  | In_population_feasible => Id "population-feasible"
  | In_population_infeasible => Id "population-infeasible"
  | In_metric_fitness => Id "metric-fitness"
  | In_metric_age => Id "metric-age"
  | In_metric_coverage => Id "metric-coverage"
  | In_method_radio => Id "method-radio"
  | In_step_btn => Id "step-btn"
  | In_rand_step_btn => Id "rand-step-btn"
  | In_reset_btn => Id "reset-btn"
  | In_subdivide_btn => Id "subdivide-btn"
  | In_fitness_sldr n => Pattern "fitness-sldr" n
  | In_bc0_Major_axis_Medium_axis => Id "bc0-Major-axis_Medium-axis"
  | In_bc0_Major_axis_Smallest_axis => Id "bc0-Major-axis_Smallest-axis"
  | In_bc0_Average_Proportions => Id "bc0-Average-Proportions"
  | In_bc0_Symmetry => Id "bc0-Symmetry"
  | In_bc1_Major_axis_Medium_axis => Id "bc1-Major-axis_Medium-axis"
  | In_bc1_Major_axis_Smallest_axis => Id "bc1-Major-axis_Smallest-axis"
  | In_bc1_Average_Proportions => Id "bc1-Average-Proportions"
  | In_bc1_Symmetry => Id "bc1-Symmetry"
  | In_lsystem_modules => Id "lsystem-modules"
  | In_update_rules_btn => Id "update-rules-btn"
  | In_heatmap_plot => Id "heatmap-plot"
  | In_selection_btn => Id "selection-btn"
  | In_selection_clr_btn => Id "selection-clr-btn"
  | In_emitter_human => Id "emitter-human"
  | In_emitter_random => Id "emitter-random"
  | In_emitter_greedy => Id "emitter-greedy"
  | In_emitter_prefmatrix => Id "emitter-prefmatrix"
  | In_emitter_prefbandit => Id "emitter-prefbandit"
  | In_emitter_conbandit => Id "emitter-conbandit"
  | In_emitter_knn => Id "emitter-knn"
  | In_emitter_linkernel => Id "emitter-linkernel"
  | In_emitter_rbfkernel => Id "emitter-rbfkernel"
  | In_download_btn => Id "download-btn"
  | In_popdownload_btn => Id "popdownload-btn"
  | In_popupload_data => Id "popupload-data"
  | In_symmetry_none => Id "symmetry-none"
  | In_symmetry_x => Id "symmetry-x"
  | In_symmetry_z => Id "symmetry-z"
  | In_nbs_err_btn => Id "nbs-err-btn"
  | In_color_picker_btn => Id "color-picker-btn"
  | In_webapp_quickstart_btn => Id "webapp-quickstart-btn"
  | In_voxel_preview_toggle => Id "voxel-preview-toggle"
  | In_unsaferules_mode_toggle => Id "unsaferules-mode-toggle"
  | In_tsrm_y_btn => Id "tsrm-y-btn"
  end.

(** [triggers_map]. *)
Definition triggers_map : gmap (option string) Handler :=
  list_to_map
    [(Some "step-btn", H_apply_step);
     (Some "rand-step-btn", H_apply_step);
     (Some "reset-btn", H_reset);
     (Some "bc0-Major-axis_Medium-axis", H_bc_change);
     (Some "bc0-Major-axis_Smallest-axis", H_bc_change);
     (Some "bc0-Average-Proportions", H_bc_change);
     (Some "bc0-Symmetry", H_bc_change);
     (Some "bc1-Major-axis_Medium-axis", H_bc_change);
     (Some "bc1-Major-axis_Smallest-axis", H_bc_change);
     (Some "bc1-Average-Proportions", H_bc_change);
     (Some "bc1-Symmetry", H_bc_change);
     (Some "subdivide-btn", H_subdivide);
     (Some "lsystem-modules", H_lsystem_modules);
     (Some "update-rules-btn", H_update_rules);
     (Some "population-feasible", H_update_heatmap);
     (Some "population-infeasible", H_update_heatmap);
     (Some "metric-fitness", H_update_heatmap);
     (Some "metric-age", H_update_heatmap);
     (Some "metric-coverage", H_update_heatmap);
     (Some "method-radio", H_update_heatmap);
     (Some "symmetry-none", H_apply_symmetry);
     (Some "symmetry-x", H_apply_symmetry);
     (Some "symmetry-z", H_apply_symmetry);
     (Some "heatmap-plot", H_update_content);
     (Some "population_dropdown", H_update_content);
     (Some "selection-btn", H_selection);
     (Some "selection-clr-btn", H_clear_selection);
     (Some "emitter-human", H_emitter);
     (Some "emitter-random", H_emitter);
     (Some "emitter-greedy", H_emitter);
     (Some "emitter-prefmatrix", H_emitter);
     (Some "emitter-prefbandit", H_emitter);
     (Some "emitter-conbandit", H_emitter);
     (Some "emitter-knn", H_emitter);
     (Some "emitter-linkernel", H_emitter);
     (Some "emitter-rbfkernel", H_emitter);
     (Some "popdownload-btn", H_population_download);
     (Some "popupload-data", H_population_upload);
     (Some "nbs-err-btn", H_close_error);
     (Some "color-picker-btn", H_color);
     (Some "fitness-sldr", H_fitness_weights);
     (Some "webapp-quickstart-btn", H_show_quickstart_modal);
     (Some "voxel-preview-toggle", H_toggle_voxelization);
     (Some "unsaferules-mode-toggle", H_show_toggle_unsafe_mode_modal);
     (Some "tsrm-y-btn", H_toggle_unsafe_mode);
     (None, H_default)].

Definition run_handler (h : Handler) (kw : Kwargs) : M (gmap string Val) :=
  match h with
  | H_apply_step => __apply_step kw
  | H_reset => __reset kw
  | H_bc_change => __bc_change kw
  | H_subdivide => __subdivide kw
  | H_lsystem_modules => __lsystem_modules kw
  | H_update_rules => __update_rules kw
  | H_fitness_weights => __fitness_weights kw
  | H_update_heatmap => __update_heatmap kw
  | H_apply_symmetry => __apply_symmetry kw
  | H_update_content => __update_content kw
  | H_toggle_voxelization => __toggle_voxelization kw
  | H_selection => __selection kw
  | H_clear_selection => __clear_selection kw
  | H_emitter => __emitter kw
  | H_population_download => __population_download kw
  | H_population_upload => __population_upload kw
  | H_close_error => __close_error kw
  | H_color => __color kw
  | H_show_quickstart_modal => __show_quickstart_modal kw
  | H_default => __default kw
  | H_show_toggle_unsafe_mode_modal => __show_toggle_unsafe_mode_modal kw
  | H_toggle_unsafe_mode => __toggle_unsafe_mode kw
  end.

(** The dictionary [output] the general callback starts from. *)
Definition initial_output (kw : Kwargs) : gmap string Val :=
  list_to_map
    [("heatmap-plot.figure", VFigure (curr_heatmap kw));
     ("content-plot.figure", VFigure (curr_content kw));
     ("hl-rules.value", VStr (rules kw));
     ("selected-bin.children", VStr "");
     ("content-string.value", VStr (cs_string_shown kw));
     ("spaceship-properties.children", cs_properties kw);
     ("step-spinner.children", VStr "");
     ("download-population.data", VNone);
     ("download-metrics.data", VNone);
     ("population-dropdown.label", VStr (pop_name kw));
     ("metric-dropdown.label", VStr (metric_name kw));
     ("b0-dropdown.label", VStr (b0 kw));
     ("b1-dropdown.label", VStr (b1 kw));
     ("symmetry-dropdown.label", VStr (symm_axis kw));
     ("quickstart-usermode-modal.is_open", VBool (qs_um_modal_show kw));
     ("nbs-err-modal.is_open", VBool (nbs_err_modal_show kw));
     ("rand-step-btn-div.style", rand_step_btn_style kw);
     ("reset-btn-div.style", reset_btn_style kw);
     ("download-btn.children", VStr (dlbtn_label kw));
     ("content-legend-div.children", curr_legend kw);
     ("emitter-dropdown.label", VStr (emitter_name kw));
     ("sm-modal.is_open", VBool false);
     ("unsaferules-mode-toggle.value", VBool (curr_unsafemode kw));
     ("unsafemode-div.style", curr_unsafemode_div_style kw);
     ("sm-modal-title.children", curr_unsafemode_title kw);
     ("sm-modal-body.children", curr_unsafemode_body kw);
     ("emitter-steps-div.style", curr_emittersteps_style kw);
     ("symmetry-div.style", no_update);
     ("experiment-settings-div.style", no_update)].

(** The first steps of the general callback: [event_trig] from what
    triggered the callback, the first launch turned into a reset, and an
    identifier that is no key of [triggers_map] read as a literal.  The one
    string identifier among the inputs that is no key, ['download-btn'], is
    no literal: [ast.literal_eval] raises [ValueError], which is logged. *)
Definition resolve_trigger (triggered : option Input) : M (option string) :=
  let* w := get in
  match triggered with
  | None =>
      if first_launch w
      then modify (set_first_launch false) >> ret (Some "reset-btn")
      else ret None
  | Some i =>
      match component_id i with
      | Id s =>
          if bool_decide (is_Some (triggers_map !! Some s)) then ret (Some s)
          else
            logger ERROR ("[" +:+ module_name_ +:+ ".general_callback] Unrecognized event_trig='"
                          +:+ s +:+ "'. No operations have been applied!") >>
            ret (Some s)
      | Pattern type_ _ => ret (Some type_)
      end
  end.

(** What [general_callback] does while it holds the process lock: it
    dispatches the handler of [event_trig], merges what the handler returns
    into [output], formats the selection, and draws the preview when bins
    are selected and the page shows none. *)
Definition dispatch (ev : option string) (kw : Kwargs) (output : gmap string Val)
    : M (gmap string Val) :=
  let* h := expect KeyError (triggers_map !! ev) in
  record (Dispatched h) >>
  let* u := run_handler h kw in
  let output := u ∪ output in
  let* selected_bins_str := _format_bins "Selected bin(s):" true true in
  let output := <["selected-bin.children" := selected_bins_str]> output in
  let* w1 := get in
  match last_of (selected_bins (app_settings w1)) with
  | Some lastb =>
      if (ndata_of (curr_content kw) =? 0)%nat then
        let* camera := scene_camera (curr_camera kw) in
        let* fig := _get_elite_content (Some (switch1 lastb)) feasible camera
                                       (curr_voxel_display kw) in
        ret (<["content-plot.figure" := VFigure fig]> output)
      else ret output
  | None => ret output
  end.

(** [general_callback]. *)
Definition general_callback (triggered : option Input) (args : Kwargs)
    : M (gmap string Val) :=
  let* ev := resolve_trigger triggered in
  let kw := set_event_trig ev args in
  let output := initial_output kw in
  let* w := get in
  if negb (is_locked (process_semaphore w)) then
    modify (fun w => set_process_semaphore (lock ev (process_semaphore w)) w) >>
    let* output := dispatch ev kw output in
    modify (fun w => set_process_semaphore (unlock (process_semaphore w)) w) >>
    ret output
  else ret output.

(** *** The other callbacks that touch the shared state *)

(** [download_content]: [dcc.send_bytes] runs [write_archive] at once. *)
Definition write_archive (kw : Kwargs) : M string :=
  scene_camera (curr_camera kw) >>
  let* w := get in
  let* lastb := expect IndexError (last_of (selected_bins (app_settings w))) in
  let* elite := get_elite (switch1 lastb) feasible in
  (match symmetry (app_settings w) with
   | Some axis =>
       let* e := read elite in
       write elite (set_cs_string (enforce_symmetry (cs_string e) axis))
   | None => ret tt
   end) >>
  let* e := read elite in
  let tmp := new_candidate (cs_string e) in
  let tmp := set_ll_string (ll_string e) tmp in
  let tmp := set_base_color (base_color e) tmp in
  let* tmp := expect InvalidGenotype (_set_structure tmp) in
  let* hb := expect AttributeError (hull_builder (mapelites w)) in
  let hullbuilder := mkHullBuilder (erosion_type hb) true true in
  modify (fun w => set_download_semaphore
                     (set_running "YES" (unlock (download_semaphore w))) w) >>
  let* structure := content tmp in
  let structure := set_color (base_color tmp) (add_external_hull hullbuilder structure) in
  modify (fun w => set_download_semaphore (set_running "NO" (download_semaphore w)) w) >>
  ret (String.concat "," (_blocks structure)).

Definition download_content (kw : Kwargs) : M Val :=
  let* w := get in
  let a := app_settings w in
  if negb (is_empty (selected_bins a)) then
    logger INFO "Your selected spaceship will be downloaded shortly." >>
    let filename :=
      "MySpaceship_" +:+ pretty (rngseed a) +:+ "_gen" +:+ pretty (gen_counter a) +:+ ".zip" in
    let* blueprint := write_archive kw in
    ret (VDownload blueprint filename)
  else ret VNone.

(** [change_emitter_steps]. *)
Definition change_emitter_steps (n_steps : nat) : M nat :=
  logger INFO ("Setting evolution iterations to " +:+ pretty n_steps +:+ "...") >>
  modify (on_settings (set_emitter_steps n_steps)) >>
  ret n_steps.

(** [download_mapelites]. *)
Definition download_mapelites : M unit :=
  logger INFO "The MAP-Elites object will be downloaded shortly.".

End Webapp.

(** ** The browser side of a callback

    The components of the page hold their current values; a callback is
    given the values of its [State] components and its result replaces the
    values of its [Output] components, except where it is [no_update]. *)

(** The [State] arguments of the general callback, by component property. *)
Definition state_values (kw : Kwargs) : gmap string Val :=
  list_to_map
    [("heatmap-plot.figure", VFigure (curr_heatmap kw));
     ("hl-rules.value", VStr (rules kw));
     ("content-plot.figure", VFigure (curr_content kw));
     ("content-string.value", VStr (cs_string_shown kw));
     ("spaceship-properties.children", cs_properties kw);
     ("population-dropdown.label", VStr (pop_name kw));
     ("metric-dropdown.label", VStr (metric_name kw));
     ("b0-dropdown.label", VStr (b0 kw));
     ("b1-dropdown.label", VStr (b1 kw));
     ("symmetry-dropdown.label", VStr (symm_axis kw));
     ("emitter-dropdown.label", VStr (emitter_name kw));
     ("quickstart-usermode-modal.is_open", VBool (qs_um_modal_show kw));
     ("nbs-err-modal.is_open", VBool (nbs_err_modal_show kw));
     ("rand-step-btn-div.style", rand_step_btn_style kw);
     ("reset-btn-div.style", reset_btn_style kw);
     ("download-btn.children", VStr (dlbtn_label kw));
     ("content-legend-div.children", curr_legend kw);
     ("color-picker.value", VStr (color_picked kw));
     ("voxel-preview-toggle.value", VBool (curr_voxel_display kw));
     ("unsaferules-mode-toggle.value", VBool (curr_unsafemode kw));
     ("unsafemode-div.style", curr_unsafemode_div_style kw);
     ("sm-modal-title.children", curr_unsafemode_title kw);
     ("sm-modal-body.children", curr_unsafemode_body kw);
     ("emitter-steps-div.style", curr_emittersteps_style kw)].

(** The page [ui] is what the callback was given. *)
Definition reflects (ui : gmap string Val) (kw : Kwargs) : Prop :=
  forall k v, state_values kw !! k = Some v -> ui !! k = Some v.

(** The value of a component property after the callback returned [out]. *)
Definition component_after (out ui : gmap string Val) (k : string) : option Val :=
  match out !! k with
  | Some no_update => ui !! k
  | Some v => Some v
  | None => ui !! k
  end.

(** The outputs of the general callback that no [State] backs, with the
    values the callback starts them at. *)
Definition fixed_outputs : gmap string Val :=
  list_to_map
    [("selected-bin.children", VStr "");
     ("step-spinner.children", VStr "");
     ("download-population.data", VNone);
     ("download-metrics.data", VNone);
     ("sm-modal.is_open", VBool false)].

(** ** Operations and the selection invariant *)

(** The callbacks of the application that write to the shared state.  The
    remaining callbacks ([show_webapp_info] and the other help toggles,
    [update_output], [update_progress], [update_gen_progress],
    [interval_updates]) only read it. *)
Inductive Operation :=
| GeneralCallback (triggered : option Input) (args : Kwargs)
| DownloadContent (args : Kwargs)
| ChangeEmitterSteps (n_steps : nat)
| DownloadMapelites.

(** The world an operation leaves, whether it returned or raised. *)
Definition run `{Collaborators} (op : Operation) (w : World) : World :=
  match op with
  | GeneralCallback triggered args => final (general_callback triggered args w)
  | DownloadContent args => final (download_content args w)
  | ChangeEmitterSteps n => final (change_emitter_steps n w)
  | DownloadMapelites => final (download_mapelites w)
  end.

(** With the single-bin limit on, at most one bin is selected. *)
Definition single_selection (w : World) : Prop :=
  enforce_qnt (mapelites w) = true -> length (selected_bins (app_settings w)) <= 1.

(** What the invariant looks at. *)
Definition view (w : World) : bool * list (nat * nat) :=
  (enforce_qnt (mapelites w), selected_bins (app_settings w)).

(** The archive methods leave the single-bin limit alone: only the
    selection toggle of the application assigns to it. *)
Definition methods_keep_limit `{Collaborators} : Prop :=
  forall c m, enforce_qnt (mapelites_method c m) = enforce_qnt m.

(** Events run one after the other through the general callback. *)
Fixpoint run_events `{Collaborators} (evs : list (option Input * Kwargs)) (w : World)
    : World :=
  match evs with
  | [] => w
  | (t, kw) :: evs' => run_events evs' (final (general_callback t kw w))
  end.

(** ** Effects as relations between the world before and the world after *)

(** A computation is [related] by [R] when every run, returning or raising,
    ends in a world that [R] relates to the world it started in. *)
Definition related (R : World -> World -> Prop) {A} (m : M A) : Prop :=
  forall w, R w (final (m w)).

(** The relations used below: the process lock is untouched; the selection
    and the single-bin limit are untouched; the selection invariant is
    carried over. *)
Definition same_lock (w w' : World) : Prop :=
  process_semaphore w' = process_semaphore w.

Definition same_view (w w' : World) : Prop := view w' = view w.

Definition carries_invariant (w w' : World) : Prop :=
  single_selection w -> single_selection w'.

(** A triple: from a world in [P] the computation returns into [Q] or
    raises into [E]. *)
Definition hoare {A} (P : World -> Prop) (m : M A) (Q : A -> World -> Prop)
    (E : World -> Prop) : Prop :=
  forall w, P w ->
    match m w with
    | Return a w' => Q a w'
    | Raise _ w' => E w'
    end.

Definition locked (w : World) : Prop := is_locked (process_semaphore w) = true.

(** The state of a step under way: the calls made since the world [w0] the
    step started in, with the generation counter still as in [w0]. *)
Definition step_trace (w0 : World) (t : list Event) (w : World) : Prop :=
  calls w = calls w0 ++ t
  /\ gen_counter (app_settings w) = gen_counter (app_settings w0).

(** The phases of a generation step, as calls of archive methods. *)
Definition step_phases (selected : list (nat * nat)) (gen steps : nat)
    (only_emitter : bool) : list Event :=
  [Called (update_elites true)]
  ++ (if only_emitter then [] else [Called (interactive_step selected gen)])
  ++ replicate steps (Called (emitter_step gen))
  ++ [Called (update_elites false)].

(** The test [valid] of [_apply_step]. *)
Definition selection_valid `{Collaborators} (selected : list (nat * nat)) (w : World) : bool :=
  if enforce_qnt (mapelites w)
  then forallb (fun idx => mem idx (valid_bins_idx (mapelites w))) selected
  else true.

(** No archive method is called and the generation counter stays. *)
Definition same_progress (w w' : World) : Prop :=
  calls w' = calls w
  /\ gen_counter (app_settings w') = gen_counter (app_settings w).

(** The archive is untouched. *)
Definition same_archive (w w' : World) : Prop := mapelites w' = mapelites w.

#[global] Instance Ref_eq_dec : EqDecision Ref.
Proof. solve_decision. Defined.


(** A candidate carries the colour [col], and so does its cached content. *)
Definition coloured (col : Vec) (c : CandidateSolution) : Prop :=
  base_color c = col /\ forall st, _content c = Some st -> color st = col.





(** The claim that a callback result leaves every component of the page as
    it is. *)
Definition returns_components_unchanged (out ui : gmap string Val) : Prop :=
  forall k, component_after out ui k = ui !! k.

(** ** A concrete setting for examples *)

(** Modelled from the spec: the collaborators are outside [src/].  Valid
    bins are the non-empty bins of the grid; [update_elites(reset=True)]
    clears every new-elite flag; an interactive step and an emitter step
    each report one new solution.  The rest is the simplest function of the
    right type. *)
Definition sample_method (c : Method) (m : MAPElites) : MAPElites :=
  match c with
  | update_elites true =>
      map_bins (fun b => mkBin (bin_idx b) (bin_size b) (_feasible b) (_infeasible b)
                               (false, false)) m
  | interactive_step _ _ => set_n_new_solutions (n_new_solutions m + 1) m
  | emitter_step _ => set_n_new_solutions (n_new_solutions m + 1) m
  | _ => m
  end.

Definition grey : Vec := v3f (45 # 100) (45 # 100) (45 # 100).

Definition sample_collaborators : Collaborators := {|
  mapelites_method := sample_method;
  _valid_bins m :=
    List.filter (fun b => non_empty feasible b || non_empty infeasible b) (all_bins m);
  enforce_symmetry s axis := s +:+ "/" +:+ axis;
  hl_to_ll s := s;
  realize s := Some (mkStructure [s] grey None);
  _prepare_cs_content hb c :=
    set_content ((fun s => set_color (base_color c) s) <$> _content c) c;
  add_external_hull hb s := mkStructure (_blocks s ++ ["hull"])%list (color s) (_air_gridmask s);
  _build_pref_matrix bs e := e;
  validate rs := None;
  get_rules name := inl [];
  rules_str rs := String.concat ";" (rule_lhs <$> rs);
  py_float s := if bool_decide (s = "1") then Some 1%Q else None;
  fitness_zmax m := 4%Q;
  emitter_name_of e := "emitter";
  population_json bs := "[]"
|}.

(** The same collaborators with a realisation that fails on the symmetric
    strings, those [enforce_symmetry] has marked with an axis. *)
Definition strict_collaborators : Collaborators := {|
  mapelites_method := sample_method;
  _valid_bins m :=
    List.filter (fun b => non_empty feasible b || non_empty infeasible b) (all_bins m);
  enforce_symmetry s axis := s +:+ "/" +:+ axis;
  hl_to_ll s := s;
  realize s :=
    if bool_decide ("/"%char ∈ String.list_ascii_of_string s) then None
    else Some (mkStructure [s] grey None);
  _prepare_cs_content hb c :=
    set_content ((fun s => set_color (base_color c) s) <$> _content c) c;
  add_external_hull hb s := mkStructure (_blocks s ++ ["hull"])%list (color s) (_air_gridmask s);
  _build_pref_matrix bs e := e;
  validate rs := None;
  get_rules name := inl [];
  rules_str rs := String.concat ";" (rule_lhs <$> rs);
  py_float s := if bool_decide (s = "1") then Some 1%Q else None;
  fitness_zmax m := 4%Q;
  emitter_name_of e := "emitter";
  population_json bs := "[]"
|}.

Definition sample_candidate (s : string) (f : Q) (feas : bool) : CandidateSolution :=
  mkCS s s (Some (mkStructure [s] grey None)) grey f (1%Q, 1%Q) feas 0%Z.

Definition sample_bin (i j : nat) (fs infs : list CandidateSolution) : MAPBin :=
  mkBin (i, j) (1%Q, 1%Q) fs infs (false, false).

(** A two-by-two grid: three bins hold candidates, bin (1, 1) is empty. *)
Definition sample_bins : list (list MAPBin) :=
  [[sample_bin 0 0 [sample_candidate "cockpit" 1 true; sample_candidate "thrust" 2 true]
                   [sample_candidate "gyro" 0 false];
    sample_bin 0 1 [sample_candidate "corridor" 1 true] []];
   [sample_bin 1 0 [sample_candidate "cargo" 3 true] [sample_candidate "light" 0 false];
    sample_bin 1 1 [] []]].

Definition sample_mapelites (limit : bool) : MAPElites :=
  mkMAPElites sample_bins limit (new_emitter ContextualBanditEmitter) 0
              (Some (mkHullBuilder "bin" true false))
              [mkLModule "cockpit" true] [] ("Major axis / Medium axis", "Symmetry") [1%Q].

Definition sample_settings (limit : bool) (sel : list (nat * nat)) (sym : option string)
    : AppSettings :=
  mkAppSettings (sample_mapelites limit) 3 sel sym 2 USER (-1)%Q
                ["Major axis / Medium axis"; "Major axis / Smallest axis";
                 "Average Proportions"; "Symmetry"]
                42 false true 4%Q.

Definition sample_world (limit : bool) (sel : list (nat * nat)) (sym : option string)
    (locked : bool) : World :=
  mkWorld (sample_settings limit sel sym) (mkSemaphore locked "NO" None)
          (mkSemaphore true "NO" None) false grey [] [].

Definition sample_kwargs : Kwargs :=
  mkKwargs None (FigGiven 1 "heatmap") "" (FigGiven 1 "content") "" (VProperties None)
           "Feasible" "Fitness" "Major axis / Medium axis" "Symmetry" "None"
           "Contextual Bandit" false false (VComponent "style") (VComponent "style")
           "Download" (VLegend grey) "#737373" (Some None) false false
           (VComponent "style") (VComponent "title") (VComponent "body")
           (VComponent "style") "Population" [1%Q] ["cockpit"] (0, 0) "population.json".

(** A page that shows what [sample_kwargs] reports, the label of a selected
    bin, and the safe-mode dialogue open. *)
Definition sample_page : gmap string Val :=
  <["selected-bin.children" := VBinsLabel "Selected bin(s):" [((0, 0), (0%Q, 0%Q))]]>
    (<["sm-modal.is_open" := VBool true]> (state_values sample_kwargs)).

(** ** Predicates for the properties of the callbacks *)

(** Every value the computation returns satisfies [P]. *)
Definition returns {A} (P : A -> Prop) (m : M A) : Prop :=
  forall w a w', m w = Return a w' -> P a.

(** The component properties the general callback writes: the [Output]s of
    its decorator, in order. *)
Definition output_names : list string :=
  ["heatmap-plot.figure"; "content-plot.figure"; "hl-rules.value";
   "selected-bin.children"; "content-string.value"; "spaceship-properties.children";
   "step-spinner.children"; "download-population.data"; "download-metrics.data";
   "population-dropdown.label"; "metric-dropdown.label"; "b0-dropdown.label";
   "b1-dropdown.label"; "symmetry-dropdown.label"; "quickstart-usermode-modal.is_open";
   "nbs-err-modal.is_open"; "rand-step-btn-div.style"; "reset-btn-div.style";
   "download-btn.children"; "content-legend-div.children"; "emitter-dropdown.label";
   "sm-modal.is_open"; "unsaferules-mode-toggle.value"; "unsafemode-div.style";
   "sm-modal-title.children"; "sm-modal-body.children"; "emitter-steps-div.style";
   "symmetry-div.style"; "experiment-settings-div.style"].

(** A dictionary of a handler names outputs only; the dictionary of the
    callback names every output. *)
Definition known_keys (u : gmap string Val) : Prop :=
  forall k, is_Some (u !! k) -> k ∈ output_names.

Definition every_output (out : gmap string Val) : Prop :=
  forall k, is_Some (out !! k) <-> k ∈ output_names.

(** The first-launch flag stays and the call history only grows. *)
Definition history_grows (w w' : World) : Prop :=
  first_launch w' = first_launch w /\ calls w `prefix_of` calls w'.

(** The generation counter stays; it stays or is set to zero; it stays,
    goes up by one or is set to zero. *)
Definition same_gen (w w' : World) : Prop :=
  gen_counter (app_settings w') = gen_counter (app_settings w).

Definition kept_or_zeroed (w w' : World) : Prop :=
  gen_counter (app_settings w') = gen_counter (app_settings w)
  \/ gen_counter (app_settings w') = 0.

Definition counter_moves (w w' : World) : Prop :=
  gen_counter (app_settings w') = gen_counter (app_settings w)
  \/ gen_counter (app_settings w') = gen_counter (app_settings w) + 1
  \/ gen_counter (app_settings w') = 0.

(** No bin is selected twice, and this is carried over. *)
Definition keeps_distinct (w w' : World) : Prop :=
  NoDup (selected_bins (app_settings w)) -> NoDup (selected_bins (app_settings w')).

(** From a world without a symmetry axis: the archive is untouched and
    there is still no axis. *)
Definition archive_only_read (w w' : World) : Prop :=
  symmetry (app_settings w) = None ->
  mapelites w' = mapelites w /\ symmetry (app_settings w') = None.

(** The handlers that only redraw or open a dialogue. *)
Definition redraws_only (h : Handler) : bool :=
  match h with
  | H_update_heatmap | H_update_content | H_toggle_voxelization | H_clear_selection
  | H_population_download | H_close_error | H_show_quickstart_modal | H_default
  | H_show_toggle_unsafe_mode_modal => true
  | _ => false
  end.

(** The symmetry axis and the selection stay. *)
Definition same_pick (w w' : World) : Prop :=
  symmetry (app_settings w') = symmetry (app_settings w)
  /\ selected_bins (app_settings w') = selected_bins (app_settings w).

(** From a world without a symmetry axis: archive, axis and selection
    stay. *)
Definition looks_only (w w' : World) : Prop :=
  symmetry (app_settings w) = None ->
  mapelites w' = mapelites w
  /\ symmetry (app_settings w') = None
  /\ selected_bins (app_settings w') = selected_bins (app_settings w).

(** Every bin of the grid carries its position in the grid as [bin_idx]. *)
Definition grid_indexed (m : MAPElites) : Prop :=
  forall idx b, bin_at m idx = Some b -> bin_idx b = idx.

(** The bin a selected index names, switched or not, holds a candidate. *)
Definition holds_candidate (m : MAPElites) (do_switch : bool) (idx : nat * nat) : bool :=
  match bin_at m (if do_switch then switch1 idx else idx) with
  | Some b => non_empty feasible b || non_empty infeasible b
  | None => false
  end.

(** ** The colour of the legend

    [get_content_legend] writes the base colour back as text:
    ['#%02x%02x%02x' % base_color.scale(256).to_veci().as_tuple()]. *)






(** ** Properties *)

(** *** The switch of tuple lists *)

Lemma switch_length {A B : Type} (ls : list (A * B)) :
  length (_switch ls) = length ls.
Proof. unfold _switch. apply length_map. Qed.

Lemma switch_elem (b : nat * nat) (l : list (nat * nat)) :
  b ∈ l -> switch1 b ∈ _switch l.
Proof.
  intros Hb. unfold _switch.
  apply (list_elem_of_fmap_2 (fun e : nat * nat => (e.2, e.1)) l b Hb).
Qed.

(** C10: [_switch] is an involution on lists of pairs, and it keeps the
    length of the list. *)
Theorem switch_involution {A B : Type} (ls : list (A * B)) :
  _switch (_switch ls) = ls /\ length (_switch ls) = length ls.
Proof.
  split; [| apply switch_length].
  unfold _switch. induction ls as [| [a b] ls IH]; simpl.
  - reflexivity.
  - now rewrite IH.
Qed.

Section Properties.

Context `{Collaborators}.

(** *** Validation of the selection in a step *)

(** The test [valid] of [_apply_step]. *)
Lemma forallb_mem_false (valid sel : list (nat * nat)) (b : nat * nat) :
  b ∈ sel -> b ∉ valid -> forallb (fun idx => mem idx valid) sel = false.
Proof.
  intros Hin Hnv. induction sel as [| x sel IH]; simpl.
  - inversion Hin.
  - apply elem_of_cons in Hin as [<- | Hin].
    + unfold mem. rewrite bool_decide_eq_false_2; auto.
    + rewrite IH by assumption. apply andb_false_r.
Qed.

Lemma forallb_mem_true (valid sel : list (nat * nat)) :
  forallb (fun idx => mem idx valid) sel = true <-> (forall b, b ∈ sel -> b ∈ valid).
Proof.
  induction sel as [| x sel IH]; simpl.
  - split; [intros _ b Hb; inversion Hb | reflexivity].
  - rewrite andb_true_iff, IH. unfold mem. rewrite bool_decide_eq_true. split.
    + intros [Hx Hs] b Hb. apply elem_of_cons in Hb as [-> | Hb]; auto.
    + intros Hall. split; [apply Hall; left | intros b Hb; apply Hall; now right].
Qed.

(** A step with an invalid bin under the single-bin limit: nothing but the
    log changes. *)
Lemma apply_step_rejected (sel : list (nat * nat)) (gen : nat) (only_emitter : bool)
    (w : World) (b : nat * nat) :
  enforce_qnt (mapelites w) = true ->
  b ∈ sel -> b ∉ valid_bins_idx (mapelites w) ->
  _apply_step sel gen only_emitter w
  = Return false
      (set_log (log w ++ [mkLog INFO "Step not applied: invalid bin(s) selected."]) w).
Proof.
  intros Hq Hin Hnv. unfold _apply_step, bind, get. rewrite Hq.
  rewrite (forallb_mem_false _ _ b Hin Hnv). reflexivity.
Qed.

(** C1: with the single-bin limit on, a step whose selection holds a bin
    that is not valid is aborted as a whole: [_apply_step] returns false
    and leaves the world as it was but for one record in the log, the
    notice that the step was not applied (so no archive method is called
    and the archive is untouched), and [__apply_step] then returns with the
    generation counter, the archive and the call history unchanged. *)
Theorem invalid_selection_aborts_step (w : World) :
  enforce_qnt (mapelites w) = true ->
  (forall sel gen only_emitter b,
      b ∈ sel -> b ∉ valid_bins_idx (mapelites w) ->
      _apply_step sel gen only_emitter w
      = Return false
          (set_log (log w ++ [mkLog INFO "Step not applied: invalid bin(s) selected."]) w))
  /\
  (forall kw b,
      b ∈ selected_bins (app_settings w) ->
      switch1 b ∉ valid_bins_idx (mapelites w) ->
      exists out,
        __apply_step kw w
        = Return out
            (set_log (log w ++ [mkLog INFO "Step not applied: invalid bin(s) selected."]) w)
        /\ gen_counter (app_settings (final (__apply_step kw w))) = gen_counter (app_settings w)
        /\ mapelites (final (__apply_step kw w)) = mapelites w
        /\ calls (final (__apply_step kw w)) = calls w).
Proof.
  intros Hq. split.
  - intros sel gen oe b Hin Hnv. now apply (apply_step_rejected sel gen oe w b).
  - intros kw b Hin Hnv.
    assert (Hne : is_empty (selected_bins (app_settings w)) = false).
    { destruct (selected_bins (app_settings w)); [inversion Hin | reflexivity]. }
    assert (Heq : exists out, __apply_step kw w
        = Return out
            (set_log (log w ++ [mkLog INFO "Step not applied: invalid bin(s) selected."]) w)).
    { unfold __apply_step, bind at 1, get. rewrite Hne. cbn [negb orb].
      unfold bind at 1.
      rewrite (apply_step_rejected _ _ _ w (switch1 b) Hq (switch_elem _ _ Hin) Hnv).
      eexists. reflexivity. }
    destruct Heq as [out Heq]. exists out. rewrite Heq. cbn. auto.
Qed.

End Properties.

Lemma invalid_selection_aborts_step_witness :
  enforce_qnt (mapelites (sample_world true [(1, 1)] None false)) = true /\
  exists out,
    @__apply_step sample_collaborators sample_kwargs (sample_world true [(1, 1)] None false)
    = Return out
        (set_log [mkLog INFO "Step not applied: invalid bin(s) selected."]
                 (sample_world true [(1, 1)] None false)).
Proof.
  split; [reflexivity |].
  destruct (@invalid_selection_aborts_step sample_collaborators
              (sample_world true [(1, 1)] None false) eq_refl) as [_ Hstep].
  destruct (Hstep sample_kwargs (1, 1)) as [out [Hout _]].
  - left.
  - vm_compute. intros Hin. repeat (apply elem_of_cons in Hin as [Hin | Hin]; [discriminate |]). inversion Hin.
  - exists out. exact Hout.
Defined.

(** *** Rules for [related] *)

Section Related.

Context (R : World -> World -> Prop) `{!PreOrder R}.

Lemma rel_ret {A} (a : A) : related R (ret a).
Proof. intros w. reflexivity. Qed.

Lemma rel_raise {A} (e : Exn) : related R (@raise A e).
Proof. intros w. reflexivity. Qed.

Lemma rel_get : related R get.
Proof. intros w. reflexivity. Qed.

Lemma rel_modify (f : World -> World) :
  (forall w, R w (f w)) -> related R (modify f).
Proof. intros Hf w. apply Hf. Qed.

Lemma rel_bind {A B} (m : M A) (k : A -> M B) :
  related R m -> (forall a, related R (k a)) -> related R (bind m k).
Proof.
  intros Hm Hk w. unfold bind. specialize (Hm w).
  destruct (m w) as [a w' | e w']; cbn in *.
  - etrans; [exact Hm | apply Hk].
  - exact Hm.
Qed.

(** After [get] the continuation runs in the world it was given. *)
Lemma rel_get_bind {B} (k : World -> M B) :
  (forall w, R w (final (k w w))) -> related R (bind get k).
Proof. intros Hk w. apply Hk. Qed.

Lemma rel_expect {A} (e : Exn) (o : option A) : related R (expect e o).
Proof. destruct o; [apply rel_ret | apply rel_raise]. Qed.

Lemma rel_when (c : bool) (body : M unit) :
  related R body -> related R (when c body).
Proof. intros Hb. destruct c; [exact Hb | apply rel_ret]. Qed.

Lemma rel_repeatM (n : nat) (body : M unit) :
  related R body -> related R (repeatM n body).
Proof.
  intros Hb. induction n as [| n IH]; cbn [repeatM].
  - apply rel_ret.
  - apply rel_bind; [exact Hb | intros _; exact IH].
Qed.

Lemma rel_forM {A} (l : list A) (body : A -> M unit) :
  (forall x, related R (body x)) -> related R (forM l body).
Proof.
  intros Hb. induction l as [| x l IH]; cbn [forM].
  - apply rel_ret.
  - apply rel_bind; [apply Hb | intros _; exact IH].
Qed.

End Related.

#[local] Instance same_lock_preorder : PreOrder same_lock.
Proof.
  split.
  - intros w. reflexivity.
  - intros a b c Hab Hbc. unfold same_lock in *. congruence.
Qed.

#[local] Instance same_view_preorder : PreOrder same_view.
Proof.
  split.
  - intros w. reflexivity.
  - intros a b c Hab Hbc. unfold same_view in *. congruence.
Qed.

#[local] Instance carries_invariant_preorder : PreOrder carries_invariant.
Proof.
  split.
  - intros w Hw. exact Hw.
  - intros a b c Hab Hbc Ha. apply Hbc, Hab, Ha.
Qed.

Create HintDb rel.

(** The head constant of an application. *)
Ltac head_of t :=
  lazymatch t with
  | ?f _ => head_of f
  | _ => t
  end.

(** One step towards [related R m]: the rule for the construct at the head
    of [m]. *)
Ltac rel_rule :=
  lazymatch goal with
  | |- related _ (bind _ _) => apply rel_bind; [typeclasses eauto | | intros ?]
  | |- related _ (ret _) => apply rel_ret; typeclasses eauto
  | |- related _ (raise _) => apply rel_raise; typeclasses eauto
  | |- related _ get => apply rel_get; typeclasses eauto
  | |- related _ (expect _ _) => apply rel_expect; typeclasses eauto
  | |- related _ (when _ _) => apply rel_when; [typeclasses eauto |]
  | |- related _ (repeatM _ _) => apply rel_repeatM; [typeclasses eauto |]
  | |- related _ (forM _ _) => apply rel_forM; [typeclasses eauto | intros ?]
  | |- related _ (match ?x with _ => _ end) => destruct x
  end.

(** [rel_auto leaf]: walk through the computation; [leaf] proves the
    relation across one [modify]; lemmas of the database [rel] are used
    where they fit; other definitions are unfolded. *)
Ltac rel_auto leaf :=
  repeat first
    [ progress cbv beta
    | solve [auto 1 with rel nocore]
    | rel_rule
    | lazymatch goal with
      | |- related _ (modify _) => apply rel_modify; intros ?; leaf
      end
    | lazymatch goal with
      | |- related _ ?m =>
          let h := head_of m in
          lazymatch h with
          | modify => fail
          | @modify => fail
          | _ => unfold h
          end
      end ].

Section Lock.

Context `{Collaborators}.

Lemma format_bins_loop_lock (sw fe : bool) (bs : list MAPBin) entries :
  related same_lock (format_bins_loop sw fe bs entries).
Proof.
  revert entries. induction bs as [| b bs IH]; intros entries; cbn [format_bins_loop].
  - apply rel_ret. typeclasses eauto.
  - apply rel_bind; [typeclasses eauto | | intros a; apply IH].
    rel_auto ltac:(exact eq_refl).
Qed.

Lemma parse_rules_related (R : World -> World -> Prop) `{!PreOrder R} (lines : list string) :
  related R (parse_rules lines).
Proof.
  induction lines as [| l lines IH]; cbn [parse_rules].
  - apply rel_ret. typeclasses eauto.
  - apply rel_bind; [typeclasses eauto | | intros r].
    + rel_auto fail.
    + apply rel_bind; [typeclasses eauto | exact IH | intros rs]. rel_auto fail.
Qed.

#[local] Hint Extern 0 (related _ (parse_rules _)) =>
  apply parse_rules_related; typeclasses eauto : rel.

Lemma run_handler_lock (h : Handler) (kw : Kwargs) :
  related same_lock (run_handler h kw).
Proof.
  destruct h; cbn [run_handler].
  all: rel_auto ltac:(exact eq_refl).
Qed.

End Lock.

Section Locked.
Context `{Collaborators}.

(** *** The general callback under the lock *)

(** Working out [event_trig] never fails and touches only the first-launch
    flag and the log. *)
Lemma resolve_trigger_returns (triggered : option Input) (w : World) :
  exists ev w',
    resolve_trigger triggered w = Return ev w'
    /\ app_settings w' = app_settings w
    /\ process_semaphore w' = process_semaphore w
    /\ download_semaphore w' = download_semaphore w
    /\ base_color_global w' = base_color_global w
    /\ calls w' = calls w.
Proof.
  unfold resolve_trigger, bind, get. destruct triggered as [i |].
  - destruct (component_id i) as [s | ty n].
    + destruct (bool_decide (is_Some (triggers_map !! Some s))).
      * eexists _, _. split; [reflexivity |]. cbn. auto.
      * eexists _, _. split; [reflexivity |]. cbn. auto.
    + eexists _, _. split; [reflexivity |]. cbn. auto.
  - destruct (first_launch w).
    + eexists _, _. split; [reflexivity |]. cbn. auto.
    + eexists _, _. split; [reflexivity |]. cbn. auto.
Qed.

(** With the lock held the general callback returns the dictionary it
    started from and leaves settings, locks and call history alone. *)
Lemma locked_callback (triggered : option Input) (args : Kwargs) (w : World) :
  is_locked (process_semaphore w) = true ->
  exists w',
    general_callback triggered args w = Return (initial_output args) w'
    /\ app_settings w' = app_settings w
    /\ process_semaphore w' = process_semaphore w
    /\ download_semaphore w' = download_semaphore w
    /\ base_color_global w' = base_color_global w
    /\ calls w' = calls w.
Proof.
  intros Hl.
  destruct (resolve_trigger_returns triggered w) as (ev & w' & Hr & Hs & Hp & Hrest).
  exists w'. split; [| auto].
  unfold general_callback, bind at 1. rewrite Hr.
  unfold bind at 1, get. rewrite Hp, Hl. reflexivity.
Qed.

Lemma initial_output_after (args : Kwargs) (ui : gmap string Val) (k : string) :
  reflects ui args ->
  component_after (initial_output args) ui k = (fixed_outputs ∪ ui) !! k.
Proof.
  intros Hr. unfold component_after, initial_output.
  repeat (rewrite list_to_map_cons; cbn [fst snd];
          rewrite lookup_insert; case_decide;
          [ subst k; rewrite lookup_union;
            first [ match goal with
                    | |- context [ui !! ?key] => rewrite (Hr key _ eq_refl)
                    end; first [reflexivity | case_match; reflexivity]
                  | match goal with
                    | |- context [ui !! ?key] => destruct (ui !! key)
                    end; reflexivity ]
          | ]).
  cbn [list_to_map foldr]. rewrite lookup_empty.
  rewrite lookup_union_r; [reflexivity |].
  unfold fixed_outputs.
  repeat (rewrite list_to_map_cons; cbn [fst snd]; rewrite lookup_insert_ne by congruence).
  apply lookup_empty.
Qed.

End Locked.

Section Triples.

Lemma hoare_bind {A B} (P : World -> Prop) (m : M A) (k : A -> M B)
    (Q1 : A -> World -> Prop) (Q : B -> World -> Prop) (E : World -> Prop) :
  hoare P m Q1 E -> (forall a, hoare (Q1 a) (k a) Q E) -> hoare P (bind m k) Q E.
Proof.
  intros Hm Hk w HP. unfold bind. specialize (Hm w HP).
  destruct (m w) as [a w' | e w']; [apply (Hk a w' Hm) | exact Hm].
Qed.

Lemma hoare_conseq {A} (P P' : World -> Prop) (m : M A)
    (Q Q' : A -> World -> Prop) (E E' : World -> Prop) :
  hoare P' m Q' E' ->
  (forall w, P w -> P' w) -> (forall a w, Q' a w -> Q a w) -> (forall w, E' w -> E w) ->
  hoare P m Q E.
Proof.
  intros Hm HP HQ HE w Hw. specialize (Hm w (HP w Hw)).
  destruct (m w); auto.
Qed.

End Triples.

Section LockRelease.
Context `{Collaborators}.

Lemma dispatch_lock (ev : option string) (kw : Kwargs) (output : gmap string Val) :
  related same_lock (dispatch ev kw output).
Proof.
  unfold dispatch.
  apply rel_bind; [typeclasses eauto | rel_auto fail | intros h].
  apply rel_bind; [typeclasses eauto | rel_auto ltac:(exact eq_refl) | intros ?].
  apply rel_bind; [typeclasses eauto | apply run_handler_lock | intros u].
  rel_auto ltac:(exact eq_refl). apply format_bins_loop_lock.
Qed.

(** An unlocked general callback that raises leaves the lock held. *)
Lemma raise_leaves_lock (triggered : option Input) (args : Kwargs) (w : World)
    (e : Exn) (w1 : World) :
  is_locked (process_semaphore w) = false ->
  general_callback triggered args w = Raise e w1 ->
  locked w1.
Proof.
  intros Hu Hr.
  destruct (resolve_trigger_returns triggered w) as (ev & w0 & Hres & _ & Hp & _).
  unfold general_callback, bind at 1 in Hr. rewrite Hres in Hr.
  unfold bind at 1, get in Hr. rewrite Hp, Hu in Hr. cbn [negb] in Hr.
  unfold bind at 1, modify at 1 in Hr. unfold bind at 1 in Hr.
  pose proof (dispatch_lock ev (set_event_trig ev args)
                (initial_output (set_event_trig ev args))
                (set_process_semaphore (lock ev (process_semaphore w0)) w0)) as Hd.
  destruct (dispatch _ _ _ _) as [out w2 | e2 w2]; [discriminate Hr |].
  injection Hr as -> ->. unfold same_lock in Hd. cbn in Hd.
  unfold locked. rewrite Hd. reflexivity.
Qed.

(** Events that reach a locked general callback are dropped, one after the
    other. *)
Lemma locked_events_dropped (evs : list (option Input * Kwargs)) (w : World) :
  locked w ->
  locked (run_events evs w)
  /\ app_settings (run_events evs w) = app_settings w
  /\ calls (run_events evs w) = calls w.
Proof.
  revert w. induction evs as [| [t kw] evs IH]; intros w Hl; cbn [run_events].
  - auto.
  - destruct (locked_callback t kw w Hl) as (w' & Hr & Hs & Hp & _ & _ & Hc).
    rewrite Hr. cbn [final].
    assert (Hl' : locked w') by (unfold locked in *; congruence).
    destruct (IH w' Hl') as (H1 & H2 & H3). repeat split; congruence.
Qed.

(** C9: no release after a raise.  When a handler dispatched by an
    unlocked general callback raises, the callback raises with it; and a raise
    of the callback leaves the process lock held, after which every further
    event is dropped: the lock stays held, and settings, archive and call
    history stay as the raise left them. *)
Theorem handler_error_keeps_lock (triggered : option Input) (args : Kwargs) (w : World) :
  is_locked (process_semaphore w) = false ->
  (forall ev w0 h e w1,
      resolve_trigger triggered w = Return ev w0 ->
      triggers_map !! ev = Some h ->
      run_handler h (set_event_trig ev args)
        (set_calls (calls w0 ++ [Dispatched h])
           (set_process_semaphore (lock ev (process_semaphore w0)) w0))
      = Raise e w1 ->
      general_callback triggered args w = Raise e w1)
  /\
  (forall e w1,
      general_callback triggered args w = Raise e w1 ->
      locked w1
      /\ forall evs,
          locked (run_events evs w1)
          /\ app_settings (run_events evs w1) = app_settings w1
          /\ calls (run_events evs w1) = calls w1).
Proof.
  intros Hu. split.
  - intros ev w0 h e w1 Hres Hh Hrun.
    destruct (resolve_trigger_returns triggered w) as (ev' & w0' & Hres' & _ & Hp & _).
    rewrite Hres in Hres'. injection Hres' as E1 E2. subst ev' w0'.
    unfold general_callback, bind at 1. rewrite Hres.
    unfold bind at 1, get. rewrite Hp, Hu. cbn [negb].
    unfold bind at 1, modify at 1. unfold bind at 1, dispatch, bind at 1.
    rewrite Hh. cbn [expect ret]. unfold bind at 1, record, modify at 1.
    unfold bind at 1.
    change (set_calls _ _) with (set_calls (calls w0 ++ [Dispatched h])
           (set_process_semaphore (lock ev (process_semaphore w0)) w0)).
    rewrite Hrun. reflexivity.
  - intros e w1 Hr.
    pose proof (raise_leaves_lock triggered args w e w1 Hu Hr) as Hl.
    split; [exact Hl |]. intros evs. now apply locked_events_dropped.
Qed.

End LockRelease.

Lemma handler_error_keeps_lock_witness :
  let w := sample_world true [(0, 0)] None false in
  is_locked (process_semaphore w) = false
  /\ (exists e w1,
        @general_callback sample_collaborators (Some In_update_rules_btn) sample_kwargs w
        = Raise e w1
        /\ locked w1
        /\ locked (@run_events sample_collaborators
                     [(Some In_step_btn, sample_kwargs); (Some In_reset_btn, sample_kwargs)] w1)).
Proof.
  intros w. split; [reflexivity |].
  destruct (@handler_error_keeps_lock sample_collaborators (Some In_update_rules_btn)
              sample_kwargs w eq_refl) as [_ Hlock].
  destruct (@general_callback sample_collaborators (Some In_update_rules_btn) sample_kwargs w)
    as [out w1 | e w1] eqn:Hrun.
  - vm_compute in Hrun. discriminate Hrun.
  - exists e, w1. destruct (Hlock e w1 eq_refl) as [Hl Hev].
    split; [reflexivity |]. split; [exact Hl |]. apply Hev.
Defined.

Section LockedTheorem.
Context `{Collaborators}.

(** C3 (amended): an event that reaches the general callback while the
    process lock is held is dropped.  The callback returns normally without
    dispatching a handler; settings (archive, generation counter, selection),
    both locks and the call history are as before; and on the page every
    component whose value the callback was given keeps it, while the five
    outputs without a [State] are set to their fixed defaults: the
    selected-bin text and the spinner text empty, the two download payloads
    absent, the safe-mode dialogue closed. *)
Theorem locked_callback_drops_event (triggered : option Input) (args : Kwargs) (w : World) :
  locked w ->
  exists out w',
    general_callback triggered args w = Return out w'
    /\ app_settings w' = app_settings w
    /\ process_semaphore w' = process_semaphore w
    /\ download_semaphore w' = download_semaphore w
    /\ calls w' = calls w
    /\ forall ui, reflects ui args ->
         forall k, component_after out ui k = (fixed_outputs ∪ ui) !! k.
Proof.
  intros Hl.
  destruct (locked_callback triggered args w Hl) as (w' & Hr & Hs & Hp & Hd & _ & Hc).
  exists (initial_output args), w'. repeat split; try assumption.
  intros ui Hu k. now apply initial_output_after.
Qed.

End LockedTheorem.

Lemma sample_page_reflects : reflects sample_page sample_kwargs.
Proof.
  intros k v Hk. unfold sample_page.
  rewrite !lookup_insert_ne; [exact Hk | |]; intros <-; vm_compute in Hk; discriminate Hk.
Qed.

Lemma locked_callback_drops_event_witness :
  locked (sample_world true [(0, 0)] None true)
  /\ exists out w',
       @general_callback sample_collaborators (Some In_step_btn) sample_kwargs
         (sample_world true [(0, 0)] None true) = Return out w'
       /\ calls w' = []
       /\ component_after out sample_page "content-string.value" = Some (VStr "").
Proof.
  split; [reflexivity |].
  destruct (@locked_callback_drops_event sample_collaborators (Some In_step_btn)
              sample_kwargs (sample_world true [(0, 0)] None true) eq_refl)
    as (out & w' & Hr & _ & _ & _ & Hc & Hpage).
  exists out, w'. split; [exact Hr |]. split; [exact Hc |].
  rewrite (Hpage sample_page sample_page_reflects). vm_compute. reflexivity.
Defined.

(** C3 as stated fails: with the lock held and a step requested, the
    callback returns values that change the page; the label of the selected
    bins is blanked. *)
Lemma locked_callback_changes_page :
  locked (sample_world true [(0, 0)] None true)
  /\ reflects sample_page sample_kwargs
  /\ exists out w',
       @general_callback sample_collaborators (Some In_step_btn) sample_kwargs
         (sample_world true [(0, 0)] None true) = Return out w'
       /\ sample_page !! "selected-bin.children"
          = Some (VBinsLabel "Selected bin(s):" [((0, 0), (0%Q, 0%Q))])
       /\ component_after out sample_page "selected-bin.children" = Some (VStr "")
       /\ ~ returns_components_unchanged out sample_page.
Proof.
  split; [reflexivity |]. split; [apply sample_page_reflects |].
  destruct (@locked_callback sample_collaborators (Some In_step_btn) sample_kwargs
              (sample_world true [(0, 0)] None true) eq_refl) as (w' & Hr & _).
  exists (initial_output sample_kwargs), w'. split; [exact Hr |].
  split; [vm_compute; reflexivity |]. split; [vm_compute; reflexivity |].
  intros Hun. specialize (Hun "selected-bin.children").
  vm_compute in Hun. discriminate Hun.
Qed.

#[local] Instance same_progress_preorder : PreOrder same_progress.
Proof.
  split.
  - intros w. split; reflexivity.
  - intros a b c [H1 H2] [H3 H4]. split; congruence.
Qed.

Section Step.
Context `{Collaborators}.

Lemma hoare_modify (P : World -> Prop) (f : World -> World)
    (Q : unit -> World -> Prop) (E : World -> Prop) :
  (forall w, P w -> Q tt (f w)) -> hoare P (modify f) Q E.
Proof. intros Hf w Hw. apply Hf, Hw. Qed.

Lemma hoare_ret {A} (P : World -> Prop) (a : A) (Q : A -> World -> Prop)
    (E : World -> Prop) :
  (forall w, P w -> Q a w) -> hoare P (ret a) Q E.
Proof. intros Ha w Hw. apply Ha, Hw. Qed.

Lemma hoare_get (P : World -> Prop) (E : World -> Prop) :
  hoare P get (fun _ => P) E.
Proof. intros w Hw. exact Hw. Qed.

Lemma hoare_repeatM (I : nat -> World -> Prop) (body : M unit) (E : World -> Prop) :
  (forall k, hoare (I k) body (fun _ => I (S k)) E) ->
  forall n k, hoare (I k) (repeatM n body) (fun _ => I (n + k)) E.
Proof.
  intros Hb n. induction n as [| n IH]; intros k; cbn [repeatM].
  - apply hoare_ret. auto.
  - eapply hoare_bind; [apply Hb |]. intros ?.
    eapply hoare_conseq; [apply (IH (S k)) | auto | | auto].
    intros ? w Hw. now replace (S n + k) with (n + S k) by lia.
Qed.

(** A modification that keeps history and counter. *)
Lemma hoare_quiet (w0 : World) (t : list Event) (f : World -> World) (E : World -> Prop) :
  (forall w, calls (f w) = calls w) ->
  (forall w, gen_counter (app_settings (f w)) = gen_counter (app_settings w)) ->
  hoare (step_trace w0 t) (modify f) (fun _ => step_trace w0 t) E.
Proof.
  intros Hc Hg. apply hoare_modify. intros w [H1 H2]. split; congruence.
Qed.

(** A call appends itself to the history and keeps the counter. *)
Lemma hoare_call (w0 : World) (t : list Event) (c : Method) (E : World -> Prop) :
  hoare (step_trace w0 t) (call c) (fun _ => step_trace w0 (t ++ [Called c])) E.
Proof.
  unfold call, record.
  eapply hoare_bind; [apply hoare_quiet; reflexivity | intros ?; apply hoare_modify].
  intros w [Hc Hg]. split; [| exact Hg]. cbn. rewrite Hc. now rewrite app_assoc.
Qed.

(** A computation that calls no archive method and keeps the counter,
    whether it returns or raises. *)
Lemma hoare_related (w0 : World) (t : list Event) {A} (m : M A) :
  related same_progress m ->
  hoare (step_trace w0 t) m (fun _ => step_trace w0 t) (step_trace w0 t).
Proof.
  intros Hm w [Hc Hg]. destruct (Hm w) as [Hc' Hg'].
  destruct (m w) as [a w' | e w']; cbn [final] in *; split; congruence.
Qed.

(** The refresh of the missing contents calls no archive method. *)
Lemma refresh_contents_progress : related same_progress refresh_contents.
Proof. rel_auto ltac:(exact (conj eq_refl eq_refl)). Qed.

(** [_apply_step], case by case on its test: a valid selection runs the
    phases in order, and returns true unless a realisation of the refresh
    raises, which leaves every phase called; an invalid one changes the log
    only. *)
Lemma apply_step_spec (sel : list (nat * nat)) (gen : nat) (only_emitter : bool)
    (w : World) :
  if selection_valid sel w then
    match _apply_step sel gen only_emitter w with
    | Return r w' =>
        r = true
        /\ step_trace w (step_phases sel gen (emitter_steps (app_settings w)) only_emitter) w'
    | Raise _ w' =>
        step_trace w (step_phases sel gen (emitter_steps (app_settings w)) only_emitter) w'
    end
  else
    _apply_step sel gen only_emitter w
    = Return false
        (set_log (log w ++ [mkLog INFO "Step not applied: invalid bin(s) selected."]) w).
Proof.
  destruct (selection_valid sel w) eqn:Hv;
    unfold _apply_step; unfold bind at 1; unfold get at 1;
    fold (selection_valid sel w); rewrite Hv; [| reflexivity].
  set (n := emitter_steps (app_settings w)).
  set (E := step_trace w (step_phases sel gen n only_emitter)).
  match goal with
  | |- match ?m w with _ => _ end =>
      assert (Hm : hoare (step_trace w [])
                     m (fun r => fun w' => r = true /\ E w') E)
  end.
  { set (t1 := [Called (update_elites true)]).
    set (t2 := t1 ++ (if only_emitter then [] else [Called (interactive_step sel gen)])).
    set (t3 := t2 ++ replicate n (Called (emitter_step gen))).
    assert (Hquiet_when : forall (t : list Event) (f : World -> World),
               (forall w, calls (f w) = calls w) ->
               (forall w, gen_counter (app_settings (f w)) = gen_counter (app_settings w)) ->
               hoare (step_trace w t) (when only_emitter (modify f))
                     (fun _ => step_trace w t) E).
    { intros t f Hc Hg. destruct only_emitter; cbn [when].
      - now apply hoare_quiet.
      - apply hoare_ret. auto. }
    assert (Hphases : t3 ++ [Called (update_elites false)] = step_phases sel gen n only_emitter).
    { unfold step_phases. subst t3 t2 t1. now rewrite <- !app_assoc. }
    eapply hoare_bind with (Q1 := fun _ => step_trace w []);
      [apply hoare_quiet; reflexivity | intros ?].
    eapply hoare_bind with (Q1 := fun _ => step_trace w t1);
      [apply (hoare_call w [] (update_elites true)) | intros ?].
    eapply hoare_bind with (Q1 := fun _ => step_trace w t1);
      [apply hoare_quiet; reflexivity | intros ?].
    eapply hoare_bind with (Q1 := fun _ => step_trace w t2).
    { subst t2. destruct only_emitter; cbn [negb when].
      - apply hoare_ret. intros w1 Hw1. now rewrite app_nil_r.
      - apply hoare_call. }
    intros ?.
    eapply hoare_bind with (Q1 := fun _ => step_trace w t2);
      [apply hoare_quiet; reflexivity | intros ?].
    eapply hoare_bind with (Q1 := fun _ => step_trace w t2).
    { eapply hoare_bind; [apply hoare_get | intros w1; apply hoare_quiet; reflexivity]. }
    intros ?.
    eapply hoare_bind with (Q1 := fun _ => step_trace w t2);
      [apply hoare_quiet; reflexivity | intros ?].
    eapply hoare_bind with (Q1 := fun _ => step_trace w t3).
    { eapply hoare_bind; [apply hoare_get | intros w2].
      eapply hoare_bind with (Q1 := fun _ => step_trace w t2);
        [apply Hquiet_when; reflexivity | intros ?].
      eapply hoare_bind with (Q1 := fun _ => step_trace w t3);
        [| intros ?; apply Hquiet_when; reflexivity].
      eapply hoare_conseq.
      - apply (hoare_repeatM
                 (fun k => step_trace w (t2 ++ replicate k (Called (emitter_step gen))))
                 _ E) with (n := n) (k := 0).
        intros k.
        eapply hoare_bind with
          (Q1 := fun _ => step_trace w ((t2 ++ replicate k (Called (emitter_step gen)))
                                        ++ [Called (emitter_step gen)]));
          [apply hoare_call | intros ?].
        rewrite replicate_S_end, app_assoc. apply hoare_quiet; reflexivity.
      - intros w3 Hw3. cbn [replicate]. now rewrite app_nil_r.
      - intros ? w3 Hw3. cbn beta in Hw3. now rewrite Nat.add_0_r in Hw3.
      - auto. }
    intros ?.
    eapply hoare_bind with (Q1 := fun _ => step_trace w t3).
    { eapply hoare_bind; [apply hoare_get | intros w3; apply hoare_quiet; reflexivity]. }
    intros ?.
    eapply hoare_bind with (Q1 := fun _ => step_trace w t3);
      [apply hoare_quiet; reflexivity | intros ?].
    eapply hoare_bind with (Q1 := fun _ => step_trace w (t3 ++ [Called (update_elites false)]));
      [apply hoare_call | intros ?].
    rewrite Hphases.
    eapply hoare_bind with (Q1 := fun _ => E);
      [apply hoare_related, refresh_contents_progress | intros ?].
    eapply hoare_bind with (Q1 := fun _ => E);
      [apply hoare_quiet; reflexivity | intros ?].
    apply hoare_ret. intros w4 Hw4. split; [reflexivity | exact Hw4]. }
  apply Hm. split; [now rewrite app_nil_r | reflexivity].
Qed.


End Step.


Section StepRequest.
Context `{Collaborators}.

(** C2 (amended): with the single-bin limit on, a step request is rejected
    exactly when some selected bin is not valid; the number of selected bins
    is not looked at.  For a non-empty selection: if a selected bin is not
    valid, [__apply_step] returns having only logged the notice, with the
    generation counter and the archive untouched; if every selected bin is
    valid, however many there are, the step is applied: the phases of the
    step are called, and the generation counter goes up by one when
    [_apply_step] returns; when a realisation in its refresh of the missing
    contents raises, the handler raises with it, after the phases and with
    the counter as it was. *)
Theorem step_request_checks_validity_only (kw : Kwargs) (w : World) :
  enforce_qnt (mapelites w) = true ->
  selected_bins (app_settings w) <> [] ->
  ((exists b, b ∈ selected_bins (app_settings w)
              /\ switch1 b ∉ valid_bins_idx (mapelites w)) ->
   exists out,
     __apply_step kw w
     = Return out
         (set_log (log w ++ [mkLog INFO "Step not applied: invalid bin(s) selected."]) w))
  /\
  ((forall b, b ∈ selected_bins (app_settings w) ->
              switch1 b ∈ valid_bins_idx (mapelites w)) ->
   let only_emitter := bool_decide (event_trig kw = Some "rand-step-btn")
                       && bool_decide (app_mode (app_settings w) = USER) in
   calls (final (__apply_step kw w))
   = calls w
     ++ step_phases (_switch (selected_bins (app_settings w)))
          (gen_counter (app_settings w)) (emitter_steps (app_settings w)) only_emitter
   /\ match _apply_step (_switch (selected_bins (app_settings w)))
                        (gen_counter (app_settings w)) only_emitter w with
      | Return _ _ =>
          gen_counter (app_settings (final (__apply_step kw w)))
          = gen_counter (app_settings w) + 1
      | Raise e w1 =>
          __apply_step kw w = Raise e w1
          /\ gen_counter (app_settings w1) = gen_counter (app_settings w)
      end).
Proof.
  intros Hq Hne.
  assert (Hemp : is_empty (selected_bins (app_settings w)) = false).
  { destruct (selected_bins (app_settings w)); [congruence | reflexivity]. }
  split.
  - intros (b & Hin & Hnv).
    unfold __apply_step, bind at 1, get at 1. rewrite Hemp. cbn [negb orb].
    unfold bind at 1.
    rewrite (apply_step_rejected _ _ _ w (switch1 b) Hq (switch_elem _ _ Hin) Hnv).
    eexists. reflexivity.
  - intros Hall only_emitter.
    pose proof (apply_step_spec (_switch (selected_bins (app_settings w)))
                  (gen_counter (app_settings w)) only_emitter w) as Hs.
    assert (Hv : selection_valid (_switch (selected_bins (app_settings w))) w = true).
    { unfold selection_valid. rewrite Hq. apply forallb_mem_true.
      intros b Hb. unfold _switch in Hb. apply list_elem_of_fmap in Hb as (b0 & -> & Hb0).
      now apply Hall. }
    rewrite Hv in Hs.
    remember (__apply_step kw w) as r eqn:Er.
    unfold __apply_step, bind at 1, get at 1 in Er. rewrite Hemp in Er.
    cbn [negb orb] in Er. unfold bind at 1 in Er. fold only_emitter in Er.
    destruct (_apply_step _ _ only_emitter w) as [res w1 | e w1].
    + destruct Hs as (-> & Hc & Hg).
      unfold bind at 1, modify at 1 in Er.
      lazymatch type of Er with
      | r = bind ?m ?k ?w2 =>
          assert (Ht : related same_progress (bind m k))
            by (rel_auto ltac:(exact (conj eq_refl eq_refl)));
          destruct (Ht w2) as [Hc2 Hg2]
      end.
      rewrite Er. split.
      * rewrite Hc2. cbn. exact Hc.
      * rewrite Hg2. cbn. rewrite Hg. lia.
    + destruct Hs as [Hc Hg]. subst r. cbn [final].
      split; [exact Hc | split; [reflexivity | exact Hg]].
Qed.

End StepRequest.

Lemma step_request_checks_validity_only_witness :
  let w := sample_world true [(0, 0); (1, 1)] None false in
  enforce_qnt (mapelites w) = true
  /\ selected_bins (app_settings w) <> []
  /\ exists out,
       @__apply_step sample_collaborators sample_kwargs w
       = Return out
           (set_log (log w ++ [mkLog INFO "Step not applied: invalid bin(s) selected."]) w).
Proof.
  intros w. split; [reflexivity |]. split; [discriminate |].
  destruct (@step_request_checks_validity_only sample_collaborators sample_kwargs w
              eq_refl ltac:(discriminate)) as [Hrej _].
  apply Hrej. exists (1, 1). split.
  - right. left.
  - vm_compute. intros Hin.
    repeat (apply elem_of_cons in Hin as [Hin | Hin]; [discriminate |]). inversion Hin.
Defined.

(** C2 as stated fails: with the single-bin limit on and two valid bins
    selected, a requested step is applied; it returns, the generation
    counter goes from 3 to 4, the interactive step runs on both bins, and
    nothing is logged about an invalid selection. *)
Lemma two_bin_step_is_applied :
  let w := sample_world true [(0, 0); (0, 1)] None false in
  let r := @__apply_step sample_collaborators
             (set_event_trig (Some "step-btn") sample_kwargs) w in
  enforce_qnt (mapelites w) = true
  /\ length (selected_bins (app_settings w)) = 2
  /\ (match r with Return _ _ => True | Raise _ _ => False end)
  /\ gen_counter (app_settings w) = 3
  /\ gen_counter (app_settings (final r)) = 4
  /\ calls (final r)
     = [Called (update_elites true); Called (interactive_step [(0, 0); (1, 0)] 3);
        Called (emitter_step 3); Called (emitter_step 3); Called (update_elites false)]
  /\ mkLog INFO "Step not applied: invalid bin(s) selected." ∉ log (final r).
Proof.
  intros w r. split; [reflexivity |]. split; [reflexivity |].
  split; [vm_compute; exact I |]. split; [reflexivity |].
  split; [vm_compute; reflexivity |]. split; [vm_compute; reflexivity |].
  vm_compute. intros Hin.
  repeat (apply elem_of_cons in Hin as [Hin | Hin]; [discriminate |]). inversion Hin.
Qed.

(** *** The selection invariant *)

Lemma bind_Return {A B} (m : M A) (k : A -> M B) (w : World) (a : A) (w' : World) :
  m w = Return a w' -> bind m k w = k a w'.
Proof. intros Hm. unfold bind. now rewrite Hm. Qed.

Lemma view_carries (w w' : World) : same_view w w' -> carries_invariant w w'.
Proof.
  unfold same_view, view, carries_invariant, single_selection.
  intros Hv Hi Hq. injection Hv as Hq' Hs'. rewrite Hs'. apply Hi. congruence.
Qed.

Lemma remove_first_length (x : nat * nat) (l : list (nat * nat)) :
  length (remove_first x l) <= length l.
Proof.
  induction l as [| y l IH]; cbn; [lia |].
  destruct (bool_decide (x = y)); cbn; lia.
Qed.

Section Selection.
Context `{Collaborators}.
Hypothesis Hkeep : methods_keep_limit.

(** Across one [modify] that leaves the selection and the limit alone. *)
Ltac view_leaf :=
  first [ exact eq_refl
        | unfold same_view, view; cbn; rewrite Hkeep; reflexivity ].

(** Across one [modify] in a handler: nothing the invariant looks at
    changes, or the selection is emptied. *)
Ltac inv_leaf :=
  first [ apply view_carries; view_leaf
        | intros ? ?; cbn; lia ].

Lemma select_clicked_carries (cell : nat * nat) :
  related carries_invariant (select_clicked cell).
Proof.
  unfold select_clicked. apply rel_get_bind. intros w.
  unfold carries_invariant, single_selection.
  destruct (enforce_qnt (mapelites w)) eqn:Hq; cbn [negb andb].
  - intros _ _. cbn. lia.
  - destruct (is_empty (selected_bins (app_settings w))); cbn [negb].
    + intros _ _. cbn. lia.
    + destruct (mem cell (selected_bins (app_settings w))); cbn [negb];
        intros _ Hq'; cbn in Hq'; unfold mapelites in Hq; congruence.
Qed.

Lemma drop_invalid_selected_carries : related carries_invariant drop_invalid_selected.
Proof.
  unfold drop_invalid_selected. apply rel_modify. intros w Hi Hq.
  cbn in *. specialize (Hi Hq).
  etrans; [apply length_filter | exact Hi].
Qed.

Lemma selection_toggle_carries (kw : Kwargs) : related carries_invariant (__selection kw).
Proof.
  intros w _. unfold __selection, single_selection.
  cbn [bind modify get logger final].
  unfold mapelites, on_mapelites, on_settings, set_selection, when.
  cbn [app_settings set_app_settings current_mapelites set_current_mapelites
       enforce_qnt set_enforce_qnt selected_bins set_log].
  destruct (last_of (selected_bins (app_settings w))) as [lastb |] eqn:Hl.
  - destruct (enforce_qnt (current_mapelites (app_settings w))); cbn; [discriminate | lia].
  - apply last_None in Hl. cbn. rewrite Hl. cbn. lia.
Qed.

Lemma format_bins_loop_carries (sw fe : bool) (bs : list MAPBin) entries :
  related carries_invariant (format_bins_loop sw fe bs entries).
Proof.
  revert entries. induction bs as [| b bs IH]; intros entries; cbn [format_bins_loop].
  - apply rel_ret. typeclasses eauto.
  - apply rel_bind; [typeclasses eauto | | intros a; apply IH].
    unfold format_bin. destruct (bin_idx b) as [i j]. destruct fe.
    + destruct (non_empty feasible b || non_empty infeasible b).
      * rel_auto inv_leaf.
      * apply rel_get_bind. intros w. cbn [bind].
        destruct (mem (i, j) (selected_bins (app_settings w))).
        -- intros Hi Hq. cbn in *. specialize (Hi Hq).
           etrans; [apply remove_first_length | exact Hi].
        -- intros Hi. exact Hi.
    + rel_auto inv_leaf.
Qed.

#[local] Hint Extern 0 (related _ (parse_rules _)) =>
  apply parse_rules_related; typeclasses eauto : rel.
#[local] Hint Resolve select_clicked_carries drop_invalid_selected_carries
  selection_toggle_carries format_bins_loop_carries : rel.

Lemma run_handler_carries (h : Handler) (kw : Kwargs) :
  related carries_invariant (run_handler h kw).
Proof.
  destruct h; cbn [run_handler].
  all: rel_auto inv_leaf.
Qed.

End Selection.

Section SelectionInvariant.
Context `{Collaborators}.
Hypothesis Hkeep : methods_keep_limit.

Ltac view_leaf :=
  first [ exact eq_refl
        | unfold same_view, view; cbn; rewrite Hkeep; reflexivity ].

Ltac inv_leaf :=
  first [ apply view_carries; view_leaf
        | intros ? ?; cbn; lia ].

Lemma dispatch_carries (ev : option string) (kw : Kwargs) (output : gmap string Val) :
  related carries_invariant (dispatch ev kw output).
Proof.
  unfold dispatch.
  apply rel_bind; [typeclasses eauto | rel_auto fail | intros h].
  apply rel_bind; [typeclasses eauto | rel_auto inv_leaf | intros ?].
  apply rel_bind; [typeclasses eauto | now apply run_handler_carries | intros u].
  rel_auto inv_leaf. now apply format_bins_loop_carries.
Qed.

Lemma general_callback_carries (triggered : option Input) (args : Kwargs) :
  related carries_invariant (general_callback triggered args).
Proof.
  unfold general_callback.
  apply rel_bind; [typeclasses eauto | rel_auto inv_leaf | intros ev].
  apply rel_bind; [typeclasses eauto | rel_auto fail | intros w].
  destruct (negb _); [| rel_auto fail].
  apply rel_bind; [typeclasses eauto | rel_auto inv_leaf | intros ?].
  apply rel_bind; [typeclasses eauto | now apply dispatch_carries | intros out].
  rel_auto inv_leaf.
Qed.

(** The preview leaves the selection and the single-bin limit alone. *)
Lemma get_elite_content_view (idx : option (nat * nat)) (pop : Pop)
    (camera : option string) (voxel : bool) :
  related same_view (_get_elite_content idx pop camera voxel).
Proof. rel_auto ltac:(exact eq_refl). Qed.

(** C7: with the single-bin limit on, the selection holds at most one bin,
    and every operation keeps it so, whether it returns or raises (the
    archive methods being such that they leave the limit alone).  A click
    with the limit on, on a cell whose bin holds a candidate of the shown
    population and is valid, makes that cell the whole selection: when the
    preview of the bin is drawn, the selection [__update_content] leaves is
    the clicked cell alone, whether the handler then returns or raises; when
    the preview raises, the handler raises with it and the selection is as
    it was.  The selection update of the click by itself makes the cell the
    whole selection.  Turning the limit on keeps only the last selected
    bin. *)
Theorem single_bin_selection_invariant :
  (forall (op : Operation) (w : World), single_selection w -> single_selection (run op w))
  /\
  (forall (kw : Kwargs) (w : World) (b : MAPBin),
      enforce_qnt (mapelites w) = true ->
      bin_at (mapelites w) (switch1 (clickData kw)) = Some b ->
      non_empty (pop_of_name (pop_name kw)) b = true ->
      switch1 (clickData kw) ∈ valid_bins_idx (mapelites w) ->
      match _get_elite_content (Some (switch1 (clickData kw))) (pop_of_name (pop_name kw))
                               None (curr_voxel_display kw) w with
      | Return _ _ =>
          selected_bins (app_settings (final (__update_content kw w))) = [clickData kw]
      | Raise e w1 =>
          __update_content kw w = Raise e w1
          /\ selected_bins (app_settings w1) = selected_bins (app_settings w)
      end)
  /\
  (forall (cell : nat * nat) (w : World),
      enforce_qnt (mapelites w) = true ->
      selected_bins (app_settings (final (select_clicked cell w))) = [cell])
  /\
  (forall (kw : Kwargs) (w : World) (lastb : nat * nat),
      enforce_qnt (mapelites w) = false ->
      last_of (selected_bins (app_settings w)) = Some lastb ->
      enforce_qnt (mapelites (final (__selection kw w))) = true
      /\ selected_bins (app_settings (final (__selection kw w))) = [lastb]).
Proof.
  split; [| split; [| split]].
  - intros op w Hw. destruct op as [t args | args | n |]; cbn [run].
    + now apply general_callback_carries.
    + revert Hw. change (carries_invariant w (final (download_content args w))).
      revert w. change (related carries_invariant (download_content args)).
      rel_auto inv_leaf.
    + revert Hw. change (carries_invariant w (final (change_emitter_steps n w))).
      revert w. change (related carries_invariant (change_emitter_steps n)).
      rel_auto inv_leaf.
    + revert Hw. change (carries_invariant w (final (download_mapelites w))).
      revert w. change (related carries_invariant download_mapelites).
      rel_auto inv_leaf.
  - intros kw w b Hq Hb Hne Hvalid.
    remember (__update_content kw w) as r eqn:Er.
    unfold __update_content in Er. revert Hb Hvalid. unfold switch1.
    destruct (clickData kw) as [i j]. cbn [fst snd]. intros Hb Hvalid.
    cbv zeta in Er. rewrite (bind_Return get _ w w w eq_refl) in Er.
    rewrite Hb in Er. cbn [expect] in Er.
    rewrite (bind_Return (ret b) _ w b w eq_refl), Hne in Er. unfold mem in Er.
    rewrite bool_decide_eq_true_2 in Er by exact Hvalid.
    unfold bind at 1 in Er.
    pose proof (get_elite_content_view (Some (j, i)) (pop_of_name (pop_name kw)) None
                  (curr_voxel_display kw) w) as Hview.
    unfold same_view, view in Hview.
    destruct (_get_elite_content (Some (j, i)) (pop_of_name (pop_name kw)) None
                                 (curr_voxel_display kw) w) as [fig w1 | e w1];
      cbn [final] in Hview; injection Hview as Hq1 Hsel1.
    + rewrite (bind_Return (select_clicked (i, j)) _ w1 tt
                 (on_settings (set_selected_bins [(i, j)]) w1)) in Er
        by (unfold select_clicked, bind, get; rewrite Hq1, Hq; reflexivity).
      lazymatch type of Er with
      | r = ?m ?w2 =>
          assert (Ht : related same_view m) by (rel_auto ltac:(exact eq_refl));
          pose proof (Ht w2) as Hfin
      end.
      rewrite <- Er in Hfin. unfold same_view, view in Hfin.
      injection Hfin as _ Hsel. rewrite Hsel. reflexivity.
    + subst r. split; [reflexivity | exact Hsel1].
  - intros cell w Hq. unfold select_clicked. cbn [bind get].
    unfold mapelites in Hq. unfold mapelites. rewrite Hq. reflexivity.
  - intros kw w lastb Hq Hl. unfold __selection.
    cbn [bind modify get logger final].
    unfold mapelites, on_mapelites, on_settings, set_selection, when in *.
    cbn [app_settings set_app_settings current_mapelites set_current_mapelites
         enforce_qnt set_enforce_qnt selected_bins set_log].
    rewrite Hl, Hq. cbn. auto.
Qed.

End SelectionInvariant.

Lemma sample_methods_keep_limit : @methods_keep_limit sample_collaborators.
Proof. intros c m. destruct c as [[] | | | | | | | |]; reflexivity. Qed.

Lemma single_bin_selection_invariant_witness :
  single_selection
    (@run sample_collaborators
       (GeneralCallback (Some In_heatmap_plot) sample_kwargs)
       (sample_world true [(0, 1)] None false))
  /\ selected_bins
       (app_settings (final (@__update_content sample_collaborators sample_kwargs
                               (sample_world true [(0, 1)] None false))))
     = [(0, 0)].
Proof.
  destruct (@single_bin_selection_invariant sample_collaborators sample_methods_keep_limit)
    as (Hinv & Hclick & _).
  split.
  - apply Hinv. intros _. cbn. lia.
  - pose proof (Hclick sample_kwargs (sample_world true [(0, 1)] None false)
                  (sample_bin 0 0 [sample_candidate "cockpit" 1 true;
                                   sample_candidate "thrust" 2 true]
                              [sample_candidate "gyro" 0 false])
                  eq_refl eq_refl eq_refl) as Hx.
    lazymatch type of Hx with
    | _ -> match ?t with _ => _ end =>
        assert (Hret : match t with Return _ _ => True | Raise _ _ => False end)
          by (vm_compute; exact I);
        destruct t; [| destruct Hret]
    end.
    apply Hx. apply (bool_decide_unpack _). vm_compute. exact I.
Defined.

#[local] Instance same_archive_preorder : PreOrder same_archive.
Proof.
  split.
  - intros w. reflexivity.
  - intros a b c Hab Hbc. unfold same_archive in *. congruence.
Qed.

(** *** Assignments through a reference *)

Lemma bin_at_alter_bin (idx : nat * nat) (g : MAPBin -> MAPBin) (m : MAPElites) :
  bin_at (alter_bin idx g m) idx = g <$> bin_at m idx.
Proof.
  unfold bin_at, alter_bin. cbn [bins set_bins].
  rewrite list_lookup_alter_eq. destruct (bins m !! idx.1) as [row |]; cbn; [| reflexivity].
  apply list_lookup_alter_eq.
Qed.

Lemma population_set_population (pop : Pop) (l : list CandidateSolution) (b : MAPBin) :
  population pop (set_population pop l b) = l.
Proof. destruct pop; reflexivity. Qed.

Lemma deref_assign (r : Ref) (f : CandidateSolution -> CandidateSolution) (m : MAPElites) :
  deref (assign r f m) r = f <$> deref m r.
Proof.
  unfold deref, assign. rewrite bin_at_alter_bin.
  destruct (bin_at m (ref_bin r)) as [b |]; cbn; [| reflexivity].
  rewrite population_set_population. apply list_lookup_alter_eq.
Qed.

Lemma final_bind_ret {A B} (m : M A) (g : A -> B) (w : World) :
  final (bind m (fun a => ret (g a)) w) = final (m w).
Proof. unfold bind. destruct (m w); reflexivity. Qed.

Lemma get_elite_Return (idx : nat * nat) (pop : Pop) (w : World) (b : MAPBin) (k : nat) :
  bin_at (mapelites w) idx = Some b ->
  elite_pos (population pop b) = Some k ->
  get_elite idx pop w = Return (mkRef idx pop k) w.
Proof.
  intros Hb Hk. unfold get_elite, bind, get. rewrite Hb. cbn [expect ret].
  rewrite Hk. reflexivity.
Qed.

Lemma read_Return (r : Ref) (w : World) (e : CandidateSolution) :
  deref (mapelites w) r = Some e -> read r w = Return e w.
Proof. intros Hd. unfold read, bind, get. rewrite Hd. reflexivity. Qed.

Section Emitter.
Context `{Collaborators}.

Lemma emitter_names_prefmatrix :
  emitter_names !! "emitter-prefmatrix" = Some "Preference Matrix".
Proof. vm_compute. reflexivity. Qed.

Lemma emitter_names_rbfkernel :
  emitter_names !! "emitter-rbfkernel" = Some "RBF Kernel".
Proof. vm_compute. reflexivity. Qed.

(** C6 (code at the failing inputs): choosing "Preference Matrix" or "RBF
    Kernel" in the emitter menu does not change the emitter.  [__emitter]
    returns the label, and the world is as before but for one error record,
    "Unrecognized emitter_name". *)
Theorem emitter_menu_misses_two_entries (kw : Kwargs) (w : World) :
  __emitter (set_event_trig (Some "emitter-prefmatrix") kw) w
  = Return (list_to_map [("emitter-dropdown.label", VStr "Preference Matrix")])
      (set_log (log w ++ [mkLog ERROR
         "[pcgsepy.guis.main_webapp.webapp.__emitter] Unrecognized emitter_name='Preference Matrix'"])
         w)
  /\
  __emitter (set_event_trig (Some "emitter-rbfkernel") kw) w
  = Return (list_to_map [("emitter-dropdown.label", VStr "RBF Kernel")])
      (set_log (log w ++ [mkLog ERROR
         "[pcgsepy.guis.main_webapp.webapp.__emitter] Unrecognized emitter_name='RBF Kernel'"])
         w).
Proof.
  split.
  - unfold __emitter. cbn [event_trig set_event_trig]. unfold bind at 1. cbn [expect ret].
    unfold bind at 1. rewrite emitter_names_prefmatrix. cbn [expect ret].
    rewrite !bool_decide_eq_false_2 by discriminate. reflexivity.
  - unfold __emitter. cbn [event_trig set_event_trig]. unfold bind at 1. cbn [expect ret].
    unfold bind at 1. rewrite emitter_names_rbfkernel. cbn [expect ret].
    rewrite !bool_decide_eq_false_2 by discriminate. reflexivity.
Qed.

(** C4 (code at the failing input): downloading the selected spaceship
    with a symmetry axis set assigns the symmetric string to the feasible
    elite of the last selected bin, in the archive, and leaves every other
    attribute of the elite as it was; its cached content in particular is
    kept, not dropped.  This holds whether the download then completes or
    fails. *)
Theorem download_rewrites_genotype_keeps_content (kw : Kwargs) (w : World)
    (lastb : nat * nat) (camera : option string) (b : MAPBin) (k : nat)
    (e : CandidateSolution) (axis : string) :
  last_of (selected_bins (app_settings w)) = Some lastb ->
  curr_camera kw = Some camera ->
  bin_at (mapelites w) (switch1 lastb) = Some b ->
  elite_pos (_feasible b) = Some k ->
  _feasible b !! k = Some e ->
  symmetry (app_settings w) = Some axis ->
  deref (mapelites (final (download_content kw w))) (mkRef (switch1 lastb) feasible k)
  = Some (set_cs_string (enforce_symmetry (cs_string e) axis) e).
Proof.
  intros Hl Hcam Hb Hk He Hsym.
  assert (Hemp : is_empty (selected_bins (app_settings w)) = false).
  { destruct (selected_bins (app_settings w)); [discriminate Hl | reflexivity]. }
  set (elite := mkRef (switch1 lastb) feasible k).
  assert (Hd : deref (mapelites w) elite = Some e).
  { unfold deref. cbn [ref_bin ref_pop ref_pos elite]. rewrite Hb. exact He. }
  set (w1 := set_log (log w ++ [mkLog INFO "Your selected spaceship will be downloaded shortly."]) w).
  set (w2 := on_mapelites (assign elite (set_cs_string (enforce_symmetry (cs_string e) axis))) w1).
  assert (Hfin : exists m : M string,
             related same_archive m
             /\ final (download_content kw w) = final (m w2)).
  { unfold download_content.
    rewrite (bind_Return get _ w w w eq_refl). cbv beta zeta. rewrite Hemp. cbn [negb].
    rewrite (bind_Return (logger _ _) _ w tt w1 eq_refl).
    rewrite final_bind_ret. unfold write_archive.
    rewrite (bind_Return (scene_camera _) _ w1 camera w1)
      by (unfold scene_camera; rewrite Hcam; reflexivity).
    rewrite (bind_Return get _ w1 w1 w1 eq_refl). cbv beta.
    rewrite (bind_Return (expect _ _) _ w1 lastb w1)
      by (change (selected_bins (app_settings w1)) with (selected_bins (app_settings w));
          rewrite Hl; reflexivity).
    rewrite (bind_Return (get_elite _ _) _ w1 elite w1)
      by (apply (get_elite_Return _ _ w1 b k); assumption).
    rewrite (bind_Return (match symmetry (app_settings w1) with
                          | Some _ => _ | None => _ end) _ w1 tt w2).
    - eexists. split; [| reflexivity]. rel_auto ltac:(exact eq_refl).
    - change (symmetry (app_settings w1)) with (symmetry (app_settings w)).
      rewrite Hsym.
      rewrite (bind_Return (read elite) _ w1 e w1)
        by (apply read_Return; exact Hd).
      reflexivity. }
  destruct Hfin as (m & Hm & ->).
  specialize (Hm w2). unfold same_archive in Hm. rewrite Hm.
  change (mapelites w2)
    with (assign elite (set_cs_string (enforce_symmetry (cs_string e) axis)) (mapelites w)).
  rewrite deref_assign, Hd. reflexivity.
Qed.

End Emitter.

Lemma download_rewrites_genotype_keeps_content_witness :
  let w := sample_world true [(0, 0)] (Some "x") false in
  let w' := final (@download_content sample_collaborators sample_kwargs w) in
  let elite := mkRef (0, 0) feasible 1 in
  (cs_string <$> deref (mapelites w) elite) = Some "thrust"
  /\ (cs_string <$> deref (mapelites w') elite) = Some "thrust/x"
  /\ (_content <$> deref (mapelites w') elite) = (_content <$> deref (mapelites w) elite)
  /\ (_content <$> deref (mapelites w') elite)
     = Some (Some (mkStructure ["thrust"] grey None)).
Proof.
  intros w w' elite.
  pose proof (@download_rewrites_genotype_keeps_content sample_collaborators sample_kwargs w
                (0, 0) None
                (sample_bin 0 0 [sample_candidate "cockpit" 1 true;
                                 sample_candidate "thrust" 2 true]
                            [sample_candidate "gyro" 0 false])
                1 (sample_candidate "thrust" 2 true) "x"
                eq_refl eq_refl eq_refl eq_refl eq_refl eq_refl) as Hd.
  change (deref (mapelites w') elite
          = Some (set_cs_string (@enforce_symmetry sample_collaborators "thrust" "x")
                                (sample_candidate "thrust" 2 true))) in Hd.
  rewrite Hd. repeat split.
Defined.

(** *** Recolouring *)

Lemma bin_at_alter_bin_other (idx idx' : nat * nat) (g : MAPBin -> MAPBin) (m : MAPElites) :
  idx <> idx' -> bin_at (alter_bin idx g m) idx' = bin_at m idx'.
Proof.
  intros Hne. destruct idx as [i j], idx' as [i' j'].
  unfold bin_at, alter_bin. cbn [bins set_bins fst snd].
  destruct (decide (i = i')) as [-> | Hi].
  - rewrite list_lookup_alter_eq. destruct (bins m !! i') as [row |]; cbn; [| reflexivity].
    apply list_lookup_alter_ne. congruence.
  - now rewrite list_lookup_alter_ne.
Qed.

Lemma deref_assign_other (r r' : Ref) (f : CandidateSolution -> CandidateSolution)
    (m : MAPElites) :
  r <> r' -> deref (assign r f m) r' = deref m r'.
Proof.
  intros Hne. destruct r as [idx pop k], r' as [idx' pop' k'].
  unfold deref, assign. cbn [ref_bin ref_pop ref_pos].
  destruct (decide (idx = idx')) as [-> | Hi].
  - rewrite bin_at_alter_bin. destruct (bin_at m idx') as [b |]; cbn; [| reflexivity].
    destruct (decide (pop = pop')) as [-> | Hp].
    + rewrite population_set_population. apply list_lookup_alter_ne. congruence.
    + destruct pop, pop'; try congruence; reflexivity.
  - now rewrite bin_at_alter_bin_other.
Qed.

Lemma deref_assign_any (r r' : Ref) (f : CandidateSolution -> CandidateSolution)
    (m : MAPElites) :
  deref (assign r f m) r' = if decide (r = r') then f <$> deref m r' else deref m r'.
Proof.
  destruct (decide (r = r')) as [<- | Hne].
  - apply deref_assign.
  - now apply deref_assign_other.
Qed.

(** Recolouring visits every place of the archive. *)
Lemma deref_recolor (c : Vec) (m : MAPElites) (r : Ref) :
  deref (map_bins (recolor_bin c) m) r = recolor c <$> deref m r.
Proof.
  unfold deref, bin_at, map_bins. cbn [bins set_bins].
  rewrite list_lookup_fmap. destruct (bins m !! (ref_bin r).1) as [row |]; cbn; [| reflexivity].
  rewrite list_lookup_fmap. destruct (row !! (ref_bin r).2) as [b |]; cbn; [| reflexivity].
  destruct (ref_pop r); cbn; apply list_lookup_fmap.
Qed.

Lemma mapelites_on_mapelites (f : MAPElites -> MAPElites) (w : World) :
  mapelites (on_mapelites f w) = f (mapelites w).
Proof. reflexivity. Qed.

Lemma deref_write (r r' : Ref) (f : CandidateSolution -> CandidateSolution) (w : World) :
  deref (mapelites (on_mapelites (assign r f) w)) r'
  = if decide (r = r') then f <$> deref (mapelites w) r' else deref (mapelites w) r'.
Proof. rewrite mapelites_on_mapelites. apply deref_assign_any. Qed.





Section Recolor.
Context `{Collaborators}.

Lemma set_structure_of_outcome (elite : Ref) (w : World) (c : CandidateSolution) :
  deref (mapelites w) elite = Some c ->
  set_structure_of elite w
  = match realize (ll_string c) with
    | Some st => Return tt (on_mapelites (assign elite (fun _ => set_content (Some st) c)) w)
    | None => Raise InvalidGenotype w
    end.
Proof.
  intros Hd. unfold set_structure_of.
  rewrite (bind_Return (read elite) _ w c w (read_Return _ _ _ Hd)).
  unfold _set_structure. destruct (realize (ll_string c)) as [st |]; reflexivity.
Qed.

Lemma symmetric_rebuild_outcome (elite : Ref) (axis : string) (hull : option HullBuilder)
    (w : World) (e : CandidateSolution) :
  deref (mapelites w) elite = Some e ->
  let sym := enforce_symmetry (cs_string e) axis in
  let ll := hl_to_ll sym in
  let ext s :=
    if is_feasible e
    then match hull with
         | Some hb => add_external_hull hb s
         | None => s
         end
    else s in
  let block :=
    (let* e := read elite in
     let original_string := cs_string e in
     write elite (set_content None) >>
     write elite (set_cs_string (enforce_symmetry (cs_string e) axis)) >>
     write elite _add_ll_strings >>
     set_structure_of elite >>
     write elite (on_content clear_air_gridmask) >>
     when (is_feasible e)
       (match hull with
        | Some hb => write elite (on_content (add_external_hull hb))
        | None => ret tt
        end) >>
     write elite (set_cs_string original_string) >>
     write elite (fun c => on_content (set_color (base_color c)) c)) in
  exists w',
    w' = on_mapelites (fun _ => mapelites w') w
    /\ match realize ll with
       | Some st =>
           block w = Return tt w'
           /\ forall r,
               deref (mapelites w') r
               = if decide (elite = r)
                 then Some (set_content
                              (Some (set_color (base_color e) (ext (clear_air_gridmask st))))
                              (set_ll_string ll e))
                 else deref (mapelites w) r
       | None =>
           block w = Raise InvalidGenotype w'
           /\ forall r,
               deref (mapelites w') r
               = if decide (elite = r)
                 then Some (set_content None (set_ll_string ll (set_cs_string sym e)))
                 else deref (mapelites w) r
       end.
Proof.
  intros Hd sym ll ext block. subst block.
  rewrite (bind_Return (read elite) _ w e w (read_Return _ _ _ Hd)). cbv beta zeta.
  rewrite (bind_Return (write _ _) _ w tt _ eq_refl).
  rewrite (bind_Return (write _ _) _ _ tt _ eq_refl).
  rewrite (bind_Return (write _ _) _ _ tt _ eq_refl).
  set (w3 := on_mapelites (assign elite _add_ll_strings) _).
  assert (Hd3 : deref (mapelites w3) elite
                = Some (_add_ll_strings (set_cs_string sym (set_content None e)))).
  { subst w3. rewrite !deref_write. rewrite !decide_True by reflexivity. rewrite Hd. reflexivity. }
  pose proof (set_structure_of_outcome elite w3 _ Hd3) as Hset.
  change (ll_string (_add_ll_strings (set_cs_string sym (set_content None e)))) with ll in Hset.
  destruct (realize ll) as [st |].
  - rewrite (bind_Return (set_structure_of elite) _ w3 tt _ Hset).
    destruct (is_feasible e) eqn:Hfeas; [destruct hull as [hb |] |].
    all: cbn [when bind write modify ret].
    all: eexists; split; [| split; [reflexivity |]].
    all: try reflexivity.
    all: intros r; subst w3; rewrite !deref_write.
    all: destruct (decide (elite = r)) as [<- | Hne]; [rewrite Hd | reflexivity].
    all: subst ext; cbn. all: rewrite ?Hfeas. all: destruct e; reflexivity.
  - exists w3. split; [reflexivity |]. split.
    + unfold bind at 1. rewrite Hset. reflexivity.
    + intros r. subst w3. rewrite !deref_write.
      destruct (decide (elite = r)) as [<- | Hne]; [rewrite Hd | reflexivity].
      destruct e; reflexivity.
Qed.








End Recolor.



(** ** Further properties of the callbacks *)

(** *** What a computation returns *)

Lemma returns_ret {A} (P : A -> Prop) (a : A) : P a -> returns P (ret a).
Proof. intros Ha w b w' [= <- _]. exact Ha. Qed.

Lemma returns_raise {A} (P : A -> Prop) (e : Exn) : returns P (@raise A e).
Proof. intros w b w' Hr. discriminate Hr. Qed.

Lemma returns_bind_with {A B} (Q : A -> Prop) (P : B -> Prop) (m : M A) (k : A -> M B) :
  returns Q m -> (forall a, Q a -> returns P (k a)) -> returns P (bind m k).
Proof.
  intros Hm Hk w b w' Hr. unfold bind in Hr.
  destruct (m w) as [a w1 | e w1] eqn:Hmw; [| discriminate Hr].
  exact (Hk a (Hm w a w1 Hmw) w1 b w' Hr).
Qed.

Lemma returns_bind {A B} (P : B -> Prop) (m : M A) (k : A -> M B) :
  (forall a, returns P (k a)) -> returns P (bind m k).
Proof.
  intros Hk. apply (returns_bind_with (fun _ => True)); [intros ? ? ? _; exact I | auto].
Qed.

(** [returns_auto leaf]: walk to every [ret] of the computation; [leaf]
    proves the property of the value returned there. *)
Ltac returns_auto leaf :=
  repeat first
    [ progress cbv beta zeta
    | lazymatch goal with
      | |- returns _ (bind _ _) => apply returns_bind; intros ?
      | |- returns _ (raise _) => apply returns_raise
      | |- returns _ (ret _) => apply returns_ret; leaf
      | |- returns _ (match ?x with _ => _ end) => destruct x
      | |- returns _ ?m => let h := head_of m in unfold h
      end ].

(** *** The outputs of the general callback *)

Lemma lookup_list_to_map_is_Some (l : list (string * Val)) (k : string) :
  is_Some ((list_to_map l : gmap string Val) !! k) <-> k ∈ l.*1.
Proof.
  rewrite <- not_eq_None_Some, <- not_elem_of_list_to_map.
  split; [apply dec_stable | auto].
Qed.

Lemma known_keys_list (l : list (string * Val)) :
  bool_decide (Forall (fun k => k ∈ output_names) l.*1) = true ->
  known_keys (list_to_map l).
Proof.
  intros Hl k Hk. apply lookup_list_to_map_is_Some in Hk.
  apply bool_decide_eq_true in Hl. rewrite Forall_forall in Hl. now apply Hl.
Qed.

Lemma known_keys_empty : known_keys ∅.
Proof. intros k [v Hk]. rewrite lookup_empty in Hk. discriminate Hk. Qed.

Lemma initial_output_every (kw : Kwargs) : every_output (initial_output kw).
Proof. intros k. unfold initial_output. now rewrite lookup_list_to_map_is_Some. Qed.

Lemma every_output_union (u o : gmap string Val) :
  known_keys u -> every_output o -> every_output (u ∪ o).
Proof.
  intros Hu Ho k. rewrite lookup_union_is_Some. split.
  - intros [Hk | Hk]; [now apply Hu | now apply Ho].
  - intros Hk. right. now apply Ho.
Qed.

Lemma every_output_insert (o : gmap string Val) (k : string) (v : Val) :
  k ∈ output_names -> every_output o -> every_output (<[k := v]> o).
Proof.
  intros Hk Ho j. rewrite lookup_insert_is_Some'. split.
  - intros [<- | Hj]; [exact Hk | now apply Ho].
  - intros Hj. right. now apply Ho.
Qed.

Section Outputs.
Context `{Collaborators}.

(** The keys of the dictionary a handler returns are outputs of the
    callback. *)
Lemma run_handler_known_keys (h : Handler) (kw : Kwargs) :
  returns known_keys (run_handler h kw).
Proof.
  destruct h; cbn [run_handler].
  all: returns_auto ltac:(first [ apply known_keys_empty
                                | apply known_keys_list; vm_compute; reflexivity ]).
Qed.

Lemma dispatch_every_output (ev : option string) (kw : Kwargs) (output : gmap string Val) :
  every_output output -> returns every_output (dispatch ev kw output).
Proof.
  intros Ho. unfold dispatch.
  apply returns_bind. intros h. apply returns_bind. intros _.
  apply (returns_bind_with known_keys); [apply run_handler_known_keys | intros u Hu].
  cbv zeta. apply returns_bind. intros label.
  assert (Hout : every_output (<["selected-bin.children" := label]> (u ∪ output))).
  { apply every_output_insert; [apply (bool_decide_unpack _); vm_compute; exact I | now apply every_output_union]. }
  returns_auto ltac:(first [ exact Hout
                           | apply every_output_insert; [apply (bool_decide_unpack _); vm_compute; exact I | exact Hout] ]).
Qed.

(** X1: a general callback that returns gives a value to each of its 29
    outputs and to nothing else, whatever the trigger and whether or not the
    lock was free: no handler returns a key that is not an output. *)
Theorem callback_returns_every_output (triggered : option Input) (args : Kwargs)
    (w : World) (out : gmap string Val) (w' : World) :
  general_callback triggered args w = Return out w' ->
  length output_names = 29 /\ forall k, is_Some (out !! k) <-> k ∈ output_names.
Proof.
  intros Hr. split; [reflexivity |]. revert w out w' Hr.
  change (returns every_output (general_callback triggered args)).
  unfold general_callback.
  apply returns_bind. intros ev. apply returns_bind. intros w.
  destruct (negb _).
  - apply returns_bind. intros _.
    apply (returns_bind_with every_output);
      [apply dispatch_every_output, initial_output_every | intros out Hout].
    returns_auto ltac:(exact Hout).
  - apply returns_ret, initial_output_every.
Qed.

End Outputs.

Lemma callback_returns_every_output_witness :
  let w := sample_world false [(0, 0)] None false in
  exists out w',
    @general_callback sample_collaborators (Some In_selection_btn) sample_kwargs w
    = Return out w'
    /\ is_Some (out !! "selected-bin.children")
    /\ ~ is_Some (out !! "download-btn.disabled").
Proof.
  intros w.
  assert (Hret : match @general_callback sample_collaborators (Some In_selection_btn)
                         sample_kwargs w with
                 | Return _ _ => True
                 | Raise _ _ => False
                 end) by (vm_compute; exact I).
  destruct (@general_callback sample_collaborators (Some In_selection_btn) sample_kwargs w)
    as [out w' | e w'] eqn:Hr; [| destruct Hret].
  exists out, w'. split; [reflexivity |].
  destruct (@callback_returns_every_output sample_collaborators _ _ _ _ _ Hr) as [_ Hk].
  split.
  - apply Hk. apply (bool_decide_unpack _). vm_compute. exact I.
  - rewrite Hk. apply (bool_decide_unpack _). vm_compute. exact I.
Defined.

(** *** The lock across a callback that returns *)

Section LockRestored.
Context `{Collaborators}.

(** The general callback with the lock free: it takes the lock, dispatches,
    and releases the lock if the dispatch returns. *)
Lemma general_callback_unlocked (triggered : option Input) (args : Kwargs) (w : World)
    (ev : option string) (w0 : World) :
  resolve_trigger triggered w = Return ev w0 ->
  is_locked (process_semaphore w) = false ->
  general_callback triggered args w =
    match dispatch ev (set_event_trig ev args) (initial_output (set_event_trig ev args))
            (set_process_semaphore (lock ev (process_semaphore w0)) w0) with
    | Return out w2 => Return out (set_process_semaphore (unlock (process_semaphore w2)) w2)
    | Raise e w2 => Raise e w2
    end.
Proof.
  intros Hres Hu.
  destruct (resolve_trigger_returns triggered w) as (ev' & w0' & Hres' & _ & Hp & _).
  rewrite Hres in Hres'. injection Hres' as E1 E2. subst ev' w0'.
  unfold general_callback, bind at 1. rewrite Hres.
  rewrite <- Hp in Hu. unfold bind at 1, get. rewrite Hu. cbn [negb].
  unfold bind at 1, modify at 1. unfold bind at 1.
  destruct (dispatch _ _ _ _); reflexivity.
Qed.

(** X2: a general callback that returns leaves the process lock as it
    found it: held if it was held (the event was dropped), free if it was
    free (the lock was taken for the handler and released after it). *)
Theorem returning_callback_restores_lock (triggered : option Input) (args : Kwargs)
    (w : World) (out : gmap string Val) (w' : World) :
  general_callback triggered args w = Return out w' ->
  is_locked (process_semaphore w') = is_locked (process_semaphore w).
Proof.
  intros Hr. destruct (is_locked (process_semaphore w)) eqn:Hl.
  - destruct (locked_callback triggered args w Hl) as (w1 & Hr1 & _ & Hp & _).
    rewrite Hr in Hr1. injection Hr1 as _ ->. now rewrite Hp.
  - destruct (resolve_trigger_returns triggered w) as (ev & w0 & Hres & _).
    rewrite (general_callback_unlocked _ _ _ _ _ Hres Hl) in Hr.
    destruct (dispatch _ _ _ _) as [o w2 | e w2]; [| discriminate Hr].
    injection Hr as _ <-. reflexivity.
Qed.

(** X3: an input of the general callback that has no entry in
    [triggers_map] (the download button is one) finds no handler: with the
    lock free the callback logs that the trigger is unrecognised, takes the
    lock, raises [KeyError] and leaves the lock held; settings, archive and
    call history are untouched. *)
Theorem unmapped_trigger_holds_lock (i : Input) (s : string) (args : Kwargs) (w : World) :
  component_id i = Id s ->
  triggers_map !! Some s = None ->
  is_locked (process_semaphore w) = false ->
  general_callback (Some i) args w
  = Raise KeyError
      (set_process_semaphore (lock (Some s) (process_semaphore w))
         (set_log (log w ++ [mkLog ERROR
            ("[" +:+ module_name_ +:+ ".general_callback] Unrecognized event_trig='"
             +:+ s +:+ "'. No operations have been applied!")]) w)).
Proof.
  intros Hid Hnone Hu.
  assert (Hres : resolve_trigger (Some i) w
                 = Return (Some s)
                     (set_log (log w ++ [mkLog ERROR
                        ("[" +:+ module_name_ +:+ ".general_callback] Unrecognized event_trig='"
                         +:+ s +:+ "'. No operations have been applied!")]) w)).
  { unfold resolve_trigger, bind at 1, get. rewrite Hid.
    rewrite bool_decide_eq_false_2; [reflexivity |].
    rewrite Hnone. intros [? ?]. discriminate. }
  rewrite (general_callback_unlocked _ _ _ _ _ Hres Hu).
  unfold dispatch, bind at 1. rewrite Hnone. reflexivity.
Qed.

End LockRestored.

Lemma returning_callback_restores_lock_witness :
  let w := sample_world false [(0, 0)] None false in
  exists out w',
    @general_callback sample_collaborators (Some In_selection_btn) sample_kwargs w
    = Return out w'
    /\ is_locked (process_semaphore w') = false.
Proof.
  intros w.
  assert (Hret : match @general_callback sample_collaborators (Some In_selection_btn)
                         sample_kwargs w with
                 | Return _ _ => True
                 | Raise _ _ => False
                 end) by (vm_compute; exact I).
  destruct (@general_callback sample_collaborators (Some In_selection_btn) sample_kwargs w)
    as [out w' | e w'] eqn:Hr; [| destruct Hret].
  exists out, w'. split; [reflexivity |].
  exact (@returning_callback_restores_lock sample_collaborators _ _ _ _ _ Hr).
Defined.

Lemma unmapped_trigger_holds_lock_witness :
  let w := sample_world false [(0, 0)] None false in
  exists w',
    @general_callback sample_collaborators (Some In_download_btn) sample_kwargs w
    = Raise KeyError w'
    /\ locked w'
    /\ app_settings w' = app_settings w
    /\ calls w' = calls w.
Proof.
  intros w. eexists. split.
  - exact (@unmapped_trigger_holds_lock sample_collaborators In_download_btn "download-btn"
             sample_kwargs w eq_refl eq_refl eq_refl).
  - repeat split.
Defined.

(** *** The first launch *)

#[local] Instance history_grows_preorder : PreOrder history_grows.
Proof.
  split.
  - intros w. split; reflexivity.
  - intros a b c [H1 H2] [H3 H4]. split; [congruence | etrans; eassumption].
Qed.

(** Across one [modify]: the flag is untouched, the history is untouched
    or one event longer. *)
Ltac grows_leaf :=
  split; [exact eq_refl | first [reflexivity | cbn; apply prefix_app_r; reflexivity]].

Section FirstLaunch.
Context `{Collaborators}.

#[local] Hint Extern 0 (related _ (parse_rules _)) =>
  apply parse_rules_related; typeclasses eauto : rel.

Lemma format_bins_loop_grows (sw fe : bool) (bs : list MAPBin) entries :
  related history_grows (format_bins_loop sw fe bs entries).
Proof.
  revert entries. induction bs as [| b bs IH]; intros entries; cbn [format_bins_loop].
  - apply rel_ret. typeclasses eauto.
  - apply rel_bind; [typeclasses eauto | | intros a; apply IH].
    rel_auto grows_leaf.
Qed.

Lemma run_handler_grows (h : Handler) (kw : Kwargs) :
  related history_grows (run_handler h kw).
Proof.
  destruct h; cbn [run_handler].
  all: rel_auto grows_leaf.
Qed.

(** A dispatch records the handler of the trigger before anything else. *)
Lemma dispatch_records (ev : option string) (kw : Kwargs) (output : gmap string Val)
    (h : Handler) (w : World) :
  triggers_map !! ev = Some h ->
  first_launch (final (dispatch ev kw output w)) = first_launch w
  /\ exists t, calls (final (dispatch ev kw output w)) = calls w ++ Dispatched h :: t.
Proof.
  intros Hh. remember (dispatch ev kw output w) as r eqn:Er.
  unfold dispatch, bind at 1 in Er. rewrite Hh in Er. cbn [expect ret] in Er.
  unfold bind at 1, record, modify at 1 in Er.
  lazymatch type of Er with
  | r = ?m ?w1 =>
      assert (Hm : related history_grows m);
        [| destruct (Hm w1) as [Hf [t Ht]] ]
  end.
  { apply rel_bind; [typeclasses eauto | apply run_handler_grows | intros u].
    rel_auto grows_leaf. apply format_bins_loop_grows. }
  rewrite <- Er in Hf, Ht.
  split; [exact Hf |]. exists t. rewrite Ht. cbn. now rewrite <- app_assoc.
Qed.

(** X4: the first launch.  A general callback without a trigger clears the
    first-launch flag, whatever else happens.  On the first launch with the
    lock free it dispatches the reset handler; on the first launch with the
    lock held the flag is cleared all the same and nothing is dispatched, so
    the initial reset is lost; after the first launch a callback without a
    trigger dispatches the default handler. *)
Theorem first_launch_is_consumed (args : Kwargs) (w : World) :
  first_launch (final (general_callback None args w)) = false
  /\ (first_launch w = true -> is_locked (process_semaphore w) = false ->
      exists t, calls (final (general_callback None args w))
                = calls w ++ Dispatched H_reset :: t)
  /\ (is_locked (process_semaphore w) = true ->
      calls (final (general_callback None args w)) = calls w)
  /\ (first_launch w = false -> is_locked (process_semaphore w) = false ->
      exists t, calls (final (general_callback None args w))
                = calls w ++ Dispatched H_default :: t).
Proof.
  set (ev := if first_launch w then Some "reset-btn" else None).
  set (w0 := if first_launch w then set_first_launch false w else w).
  assert (Hres : resolve_trigger None w = Return ev w0).
  { unfold resolve_trigger, bind at 1, get, ev, w0. destruct (first_launch w); reflexivity. }
  assert (Hf0 : first_launch w0 = false).
  { unfold w0. destruct (first_launch w) eqn:Hf; [reflexivity | exact Hf]. }
  assert (Hc0 : calls w0 = calls w).
  { unfold w0. destruct (first_launch w); reflexivity. }
  assert (Hunl : is_locked (process_semaphore w) = false ->
                 forall h, triggers_map !! ev = Some h ->
                 first_launch (final (general_callback None args w)) = false
                 /\ exists t, calls (final (general_callback None args w))
                              = calls w ++ Dispatched h :: t).
  { intros Hu h Hh. rewrite (general_callback_unlocked _ _ _ _ _ Hres Hu).
    destruct (dispatch_records ev (set_event_trig ev args)
                (initial_output (set_event_trig ev args)) h
                (set_process_semaphore (lock ev (process_semaphore w0)) w0) Hh)
      as [Hf [t Ht]].
    destruct (dispatch _ _ _ _) as [o w2 | e w2]; cbn in Hf, Ht |- *.
    all: split; [now rewrite Hf | exists t; now rewrite Ht, Hc0]. }
  assert (Hlk : is_locked (process_semaphore w) = true ->
                first_launch (final (general_callback None args w)) = false
                /\ calls (final (general_callback None args w)) = calls w).
  { intros Hl. remember (general_callback None args w) as r eqn:Er.
    unfold general_callback, bind at 1 in Er. rewrite Hres in Er.
    unfold bind at 1, get in Er.
    replace (is_locked (process_semaphore w0)) with true in Er
      by (unfold w0; destruct (first_launch w); now rewrite <- Hl).
    cbn in Er. subst r. cbn. auto. }
  split; [| split; [| split]].
  - destruct (is_locked (process_semaphore w)) eqn:Hl.
    + now apply Hlk.
    + destruct (first_launch w) eqn:Hf.
      * now apply (Hunl eq_refl H_reset).
      * now apply (Hunl eq_refl H_default).
  - intros Hf Hu. subst ev. rewrite Hf in Hunl. now apply (Hunl Hu H_reset).
  - intros Hl. now apply Hlk.
  - intros Hf Hu. subst ev. rewrite Hf in Hunl. now apply (Hunl Hu H_default).
Qed.

End FirstLaunch.

Lemma first_launch_is_consumed_witness :
  let w := set_first_launch true (sample_world false [] None false) in
  first_launch w = true
  /\ first_launch (final (@general_callback sample_collaborators None sample_kwargs w)) = false
  /\ exists t, calls (final (@general_callback sample_collaborators None sample_kwargs w))
               = Dispatched H_reset :: t.
Proof.
  intros w.
  destruct (@first_launch_is_consumed sample_collaborators sample_kwargs w)
    as (Hflag & Hreset & _).
  split; [reflexivity |]. split; [exact Hflag | exact (Hreset eq_refl eq_refl)].
Defined.

(** *** The generation counter *)

#[local] Instance same_gen_preorder : PreOrder same_gen.
Proof.
  split.
  - intros w. reflexivity.
  - intros a b c Hab Hbc. unfold same_gen in *. congruence.
Qed.

#[local] Instance kept_or_zeroed_preorder : PreOrder kept_or_zeroed.
Proof.
  split.
  - intros w. now left.
  - intros a b c [Hab | Hab] [Hbc | Hbc]; unfold kept_or_zeroed; intuition congruence.
Qed.

Lemma moves_after_same {A B} (m : M A) (k : A -> M B) :
  related same_gen m -> (forall a, related counter_moves (k a)) ->
  related counter_moves (bind m k).
Proof.
  intros Hm Hk w. unfold bind. specialize (Hm w).
  destruct (m w) as [a w1 | e w1]; cbn in *.
  - specialize (Hk a w1). unfold counter_moves, same_gen in *. rewrite <- Hm. exact Hk.
  - left. exact Hm.
Qed.

Lemma moves_then_same {A B} (m : M A) (k : A -> M B) :
  related counter_moves m -> (forall a, related same_gen (k a)) ->
  related counter_moves (bind m k).
Proof.
  intros Hm Hk w. unfold bind. specialize (Hm w).
  destruct (m w) as [a w1 | e w1]; cbn in *.
  - specialize (Hk a w1). unfold counter_moves, same_gen in *. rewrite Hk. exact Hm.
  - exact Hm.
Qed.

Lemma zeroed_moves {A} (m : M A) : related kept_or_zeroed m -> related counter_moves m.
Proof. intros Hm w. destruct (Hm w) as [Hk | Hz]; [now left | now right; right]. Qed.

Lemma same_moves {A} (m : M A) : related same_gen m -> related counter_moves m.
Proof. intros Hm w. left. apply Hm. Qed.

Section Counter.
Context `{Collaborators}.

#[local] Hint Extern 0 (related _ (parse_rules _)) =>
  apply parse_rules_related; typeclasses eauto : rel.

Lemma format_bins_loop_gen (sw fe : bool) (bs : list MAPBin) entries :
  related same_gen (format_bins_loop sw fe bs entries).
Proof.
  revert entries. induction bs as [| b bs IH]; intros entries; cbn [format_bins_loop].
  - apply rel_ret. typeclasses eauto.
  - apply rel_bind; [typeclasses eauto | | intros a; apply IH].
    rel_auto ltac:(exact eq_refl).
Qed.

Lemma apply_step_gen (sel : list (nat * nat)) (gen : nat) (only_emitter : bool) :
  related same_gen (_apply_step sel gen only_emitter).
Proof. rel_auto ltac:(exact eq_refl). Qed.

(** A step request leaves the counter or adds one to it. *)
Lemma step_handler_moves (kw : Kwargs) : related counter_moves (__apply_step kw).
Proof.
  unfold __apply_step. apply moves_after_same; [apply rel_get; typeclasses eauto | intros w0].
  cbv zeta. destruct (_ || _).
  - apply moves_after_same; [apply apply_step_gen | intros res]. destruct res.
    + intros w1. unfold bind at 1, modify at 1.
      lazymatch goal with
      | |- counter_moves _ (final (?m ?w2)) =>
          assert (Hm : related same_gen m) by (rel_auto ltac:(exact eq_refl));
          specialize (Hm w2)
      end.
      right; left. unfold same_gen in Hm. rewrite Hm. reflexivity.
    + apply same_moves. rel_auto fail.
  - apply same_moves. rel_auto ltac:(exact eq_refl).
Qed.

Lemma run_handler_moves (h : Handler) (kw : Kwargs) :
  related counter_moves (run_handler h kw).
Proof.
  destruct h; cbn [run_handler]; [apply step_handler_moves | ..].
  all: apply zeroed_moves.
  all: rel_auto ltac:(first [left; exact eq_refl | right; exact eq_refl]).
Qed.

Lemma dispatch_moves (ev : option string) (kw : Kwargs) (output : gmap string Val) :
  related counter_moves (dispatch ev kw output).
Proof.
  unfold dispatch.
  apply moves_after_same; [rel_auto fail | intros h].
  apply moves_after_same; [rel_auto ltac:(exact eq_refl) | intros _].
  apply moves_then_same; [apply run_handler_moves | intros u].
  rel_auto ltac:(exact eq_refl). apply format_bins_loop_gen.
Qed.

(** X5: every callback that writes to the shared state leaves the
    generation counter as it was, one higher, or at zero, whether it returns
    or raises: the counter never skips a generation and never goes down
    except to zero. *)
Theorem generation_counter_moves (op : Operation) (w : World) :
  let g := gen_counter (app_settings w) in
  let g' := gen_counter (app_settings (run op w)) in
  g' = g \/ g' = g + 1 \/ g' = 0.
Proof.
  cbv zeta. change (counter_moves w (run op w)).
  destruct op as [t args | args | n |]; cbn [run].
  - revert w. change (related counter_moves (general_callback t args)).
    unfold general_callback.
    apply moves_after_same; [rel_auto ltac:(exact eq_refl) | intros ev].
    apply moves_after_same; [rel_auto fail | intros w0].
    destruct (negb _); [| apply same_moves; rel_auto fail].
    apply moves_after_same; [rel_auto ltac:(exact eq_refl) | intros _].
    apply moves_then_same; [apply dispatch_moves | intros out].
    rel_auto ltac:(exact eq_refl).
  - revert w. change (related counter_moves (download_content args)).
    apply same_moves. rel_auto ltac:(exact eq_refl).
  - revert w. change (related counter_moves (change_emitter_steps n)).
    apply same_moves. rel_auto ltac:(exact eq_refl).
  - revert w. change (related counter_moves download_mapelites).
    apply same_moves. rel_auto ltac:(exact eq_refl).
Qed.

End Counter.

(** *** The selection holds no bin twice *)

#[local] Instance keeps_distinct_preorder : PreOrder keeps_distinct.
Proof.
  split.
  - intros w Hw. exact Hw.
  - intros a b c Hab Hbc Ha. apply Hbc, Hab, Ha.
Qed.

Lemma remove_first_sublist (x : nat * nat) (l : list (nat * nat)) :
  remove_first x l `sublist_of` l.
Proof.
  induction l as [| y l IH]; cbn; [reflexivity |].
  destruct (bool_decide (x = y)); [now apply sublist_cons | now apply sublist_skip].
Qed.

Lemma remove_first_snoc (x : nat * nat) (l : list (nat * nat)) :
  x ∉ l -> remove_first x (l ++ [x]) = l.
Proof.
  induction l as [| y l IH]; intros Hx; cbn.
  - now rewrite bool_decide_eq_true_2.
  - apply not_elem_of_cons in Hx as [Hxy Hx].
    rewrite bool_decide_eq_false_2 by exact Hxy. now rewrite IH.
Qed.

(** Across one [modify] of a handler: the selection is untouched, emptied,
    or set to one bin. *)
Ltac distinct_leaf :=
  intros Hn;
  first [ exact Hn | cbn; apply NoDup_nil_2 | cbn; apply NoDup_singleton ].

Section Distinct.
Context `{Collaborators}.

Lemma select_clicked_distinct (cell : nat * nat) :
  related keeps_distinct (select_clicked cell).
Proof.
  unfold select_clicked. apply rel_get_bind. intros w Hn.
  destruct (negb (enforce_qnt (mapelites w)) && negb (is_empty (selected_bins (app_settings w)))).
  - unfold mem. destruct (bool_decide (cell ∈ selected_bins (app_settings w))) eqn:Hm; cbn.
    + eapply sublist_NoDup; [exact Hn | apply remove_first_sublist].
    + apply bool_decide_eq_false in Hm. apply NoDup_app. split; [exact Hn |].
      split; [| apply NoDup_singleton].
      intros x Hx Hx'. apply list_elem_of_singleton in Hx'. now subst x.
  - cbn. apply NoDup_singleton.
Qed.

Lemma drop_invalid_selected_distinct : related keeps_distinct drop_invalid_selected.
Proof.
  unfold drop_invalid_selected. apply rel_modify. intros w Hn. cbn.
  now apply NoDup_filter.
Qed.

Lemma format_bins_loop_distinct (sw fe : bool) (bs : list MAPBin) entries :
  related keeps_distinct (format_bins_loop sw fe bs entries).
Proof.
  revert entries. induction bs as [| b bs IH]; intros entries; cbn [format_bins_loop].
  - apply rel_ret. typeclasses eauto.
  - apply rel_bind; [typeclasses eauto | | intros a; apply IH].
    unfold format_bin. destruct (bin_idx b) as [i j]. destruct fe.
    + destruct (non_empty feasible b || non_empty infeasible b).
      * rel_auto distinct_leaf.
      * apply rel_get_bind. intros w. cbn [bind].
        destruct (mem (i, j) (selected_bins (app_settings w))).
        -- intros Hn. cbn. eapply sublist_NoDup; [exact Hn | apply remove_first_sublist].
        -- intros Hn. exact Hn.
    + rel_auto distinct_leaf.
Qed.

#[local] Hint Extern 0 (related _ (parse_rules _)) =>
  apply parse_rules_related; typeclasses eauto : rel.
#[local] Hint Resolve select_clicked_distinct drop_invalid_selected_distinct
  format_bins_loop_distinct : rel.

Lemma run_handler_distinct (h : Handler) (kw : Kwargs) :
  related keeps_distinct (run_handler h kw).
Proof.
  destruct h; cbn [run_handler].
  all: rel_auto distinct_leaf.
Qed.

#[local] Hint Resolve run_handler_distinct : rel.

(** X6: no bin is ever selected twice.  If the selection holds each bin at
    most once, it still does after every callback that writes to the shared
    state, whether the callback returns or raises. *)
Theorem selection_stays_distinct (op : Operation) (w : World) :
  NoDup (selected_bins (app_settings w)) ->
  NoDup (selected_bins (app_settings (run op w))).
Proof.
  change (keeps_distinct w (run op w)).
  destruct op as [t args | args | n |]; cbn [run]; revert w.
  - change (related keeps_distinct (general_callback t args)). rel_auto distinct_leaf.
  - change (related keeps_distinct (download_content args)). rel_auto distinct_leaf.
  - change (related keeps_distinct (change_emitter_steps n)). rel_auto distinct_leaf.
  - change (related keeps_distinct download_mapelites). rel_auto distinct_leaf.
Qed.

(** X7: with the single-bin limit off, the selection update of a click
    toggles the clicked cell: clicking twice a cell that was not selected
    gives the selection back as it was, in the same order. *)
Theorem double_click_restores_selection (cell : nat * nat) (w : World) :
  enforce_qnt (mapelites w) = false ->
  cell ∉ selected_bins (app_settings w) ->
  selected_bins (app_settings (final (select_clicked cell (final (select_clicked cell w)))))
  = selected_bins (app_settings w)
  /\ enforce_qnt (mapelites (final (select_clicked cell (final (select_clicked cell w)))))
     = false.
Proof.
  intros Hq Hc. unfold mapelites in *.
  assert (H1 : final (select_clicked cell w)
               = on_settings (set_selected_bins
                                (if is_empty (selected_bins (app_settings w))
                                 then [cell] else selected_bins (app_settings w) ++ [cell])) w).
  { unfold select_clicked, bind, get, mapelites. rewrite Hq. cbn [negb andb].
    unfold mem. rewrite bool_decide_eq_false_2 by exact Hc.
    destruct (selected_bins (app_settings w)); reflexivity. }
  rewrite H1. set (w1 := on_settings _ w).
  assert (Hin : cell ∈ selected_bins (app_settings w1)).
  { unfold w1. cbn. destruct (selected_bins (app_settings w)); cbn; set_solver. }
  unfold select_clicked, bind, get, mapelites.
  change (enforce_qnt (current_mapelites (app_settings w1)))
    with (enforce_qnt (current_mapelites (app_settings w))).
  rewrite Hq. cbn [negb andb]. unfold mem. rewrite bool_decide_eq_true_2 by exact Hin.
  replace (is_empty (selected_bins (app_settings w1))) with false
    by (destruct (selected_bins (app_settings w1)); [inversion Hin | reflexivity]).
  cbn. split; [| exact Hq].
  destruct (selected_bins (app_settings w)) as [| b l] eqn:Hs; cbn.
  - now rewrite bool_decide_eq_true_2.
  - change (remove_first cell ((b :: l) ++ [cell]) = b :: l).
    now apply remove_first_snoc.
Qed.

End Distinct.

Lemma selection_stays_distinct_witness :
  NoDup (selected_bins (app_settings
           (@run sample_collaborators (GeneralCallback (Some In_heatmap_plot) sample_kwargs)
              (sample_world false [(0, 1); (1, 0)] None false)))).
Proof.
  apply (@selection_stays_distinct sample_collaborators).
  apply (bool_decide_unpack _). vm_compute. exact I.
Defined.

Lemma double_click_restores_selection_witness :
  let w := sample_world false [(0, 1); (1, 0)] None false in
  selected_bins (app_settings
    (final (select_clicked (0, 0) (final (select_clicked (0, 0) w)))))
  = [(0, 1); (1, 0)].
Proof.
  intros w.
  refine (proj1 (double_click_restores_selection (0, 0) w eq_refl _)).
  apply (bool_decide_unpack _). vm_compute. exact I.
Defined.

(** *** A step request with nothing selected *)

Section Handlers.
Context `{Collaborators}.

(** [__apply_step] with nothing selected and not from the random-step
    button: one error record, the error modal, nothing else. *)
Lemma apply_step_nothing_selected (kw : Kwargs) (w : World) :
  selected_bins (app_settings w) = [] ->
  event_trig kw <> Some "rand-step-btn" ->
  exists out,
    __apply_step kw w
    = Return out (set_log (log w ++ [mkLog ERROR "Step not applied: no bin(s) selected."]) w)
    /\ out !! "nbs-err-modal.is_open" = Some (VBool true).
Proof.
  intros Hs Hev. unfold __apply_step, bind at 1, get. rewrite Hs.
  rewrite bool_decide_eq_false_2 by exact Hev. cbn [is_empty negb orb].
  eexists. split; reflexivity.
Qed.

Lemma format_bins_nothing_selected (prefix : string) (sw fe : bool) (w : World) :
  selected_bins (app_settings w) = [] ->
  _format_bins prefix sw fe w = Return (VBinsLabel prefix []) w.
Proof. intros Hs. unfold _format_bins, bind at 1, get. rewrite Hs. reflexivity. Qed.

(** X8: a click on the step button with no bin selected and the lock free
    is answered, not applied: the general callback returns with the error
    modal opened and an empty selection label; the step handler was
    dispatched but no archive method was called; one error record is
    logged; settings, archive and generation counter are as before and the
    lock is free again. *)
Theorem step_without_selection_opens_modal (args : Kwargs) (w : World) :
  is_locked (process_semaphore w) = false ->
  selected_bins (app_settings w) = [] ->
  exists out w',
    general_callback (Some In_step_btn) args w = Return out w'
    /\ out !! "nbs-err-modal.is_open" = Some (VBool true)
    /\ out !! "selected-bin.children" = Some (VBinsLabel "Selected bin(s):" [])
    /\ app_settings w' = app_settings w
    /\ calls w' = calls w ++ [Dispatched H_apply_step]
    /\ log w' = log w ++ [mkLog ERROR "Step not applied: no bin(s) selected."]
    /\ is_locked (process_semaphore w') = false.
Proof.
  intros Hu Hs.
  assert (Hres : resolve_trigger (Some In_step_btn) w = Return (Some "step-btn") w).
  { unfold resolve_trigger, bind at 1, get. cbn [component_id].
    now replace (bool_decide (is_Some (triggers_map !! Some "step-btn"))) with true
      by (vm_compute; reflexivity). }
  rewrite (general_callback_unlocked _ _ _ _ _ Hres Hu).
  set (kw := set_event_trig (Some "step-btn") args).
  set (w1 := set_process_semaphore (lock (Some "step-btn") (process_semaphore w)) w).
  set (w2 := set_calls (calls w1 ++ [Dispatched H_apply_step]) w1).
  destruct (apply_step_nothing_selected kw w2 Hs ltac:(discriminate)) as (u & Hstep & Hmodal).
  unfold dispatch.
  rewrite (bind_Return (expect _ _) _ w1 H_apply_step w1) by (vm_compute; reflexivity).
  rewrite (bind_Return (record _) _ w1 tt w2 eq_refl).
  rewrite (bind_Return (run_handler H_apply_step kw) _ w2 u _ Hstep). cbv zeta.
  set (w3 := set_log _ w2).
  assert (Hs3 : selected_bins (app_settings w3) = []) by exact Hs.
  rewrite (bind_Return (_format_bins _ _ _) _ _ _ _
             (format_bins_nothing_selected "Selected bin(s):" true true w3 Hs3)).
  rewrite (bind_Return get _ w3 w3 w3 eq_refl). cbv beta. rewrite Hs3. cbn [last_of last ret].
  eexists _, _. split; [reflexivity |].
  split; [| split; [| repeat split; exact Hs || reflexivity]].
  - rewrite lookup_insert_ne by discriminate. now apply lookup_union_Some_l.
  - apply lookup_insert_eq.
Qed.

(** *** Subdividing the selected bins *)

Lemma subdivide_loop (l : list (nat * nat)) (w : World) :
  exists w',
    forM l (fun idx => call (subdivide_range idx)) w = Return tt w'
    /\ calls w' = calls w ++ ((fun idx => Called (subdivide_range idx)) <$> l)
    /\ log w' = log w
    /\ selected_bins (app_settings w') = selected_bins (app_settings w).
Proof.
  revert w. induction l as [| idx l IH]; intros w; cbn [forM].
  - exists w. cbn. rewrite app_nil_r. auto.
  - unfold bind at 1, call, bind at 1, modify at 1, record, modify at 1.
    destruct (IH (set_calls (calls (on_mapelites (mapelites_method (subdivide_range idx)) w)
                             ++ [Called (subdivide_range idx)])
                    (on_mapelites (mapelites_method (subdivide_range idx)) w)))
      as (w' & Hr & Hc & Hl & Hs).
    exists w'. split; [exact Hr |]. rewrite Hc, Hl, Hs. cbn.
    rewrite <- app_assoc. auto.
Qed.

(** X9: [__subdivide] calls [subdivide_range] once for every selected bin,
    in the order of the selection and on the switched index, and nothing
    else of the archive; when the heat map can be built it then logs the
    bins, empties the selection and returns the new heat map. *)
Theorem subdivide_visits_each_selected_bin (kw : Kwargs) (w : World) :
  calls (final (__subdivide kw w))
  = calls w ++ ((fun b => Called (subdivide_range (switch1 b)))
                <$> selected_bins (app_settings w))
  /\ (is_Some (hm_pop (pop_name kw)) ->
      exists out w',
        __subdivide kw w = Return out w'
        /\ selected_bins (app_settings w') = []
        /\ log w' = log w ++ [mkLog INFO ("Subdivided bin(s): "
                                          +:+ py_list (selected_bins (app_settings w)) +:+ ".")]
        /\ is_Some (out !! "heatmap-plot.figure")).
Proof.
  destruct (subdivide_loop (_switch (selected_bins (app_settings w))) w)
    as (w1 & Hloop & Hc & Hl & Hs).
  assert (Hcalls : calls w1 = calls w ++ ((fun b => Called (subdivide_range (switch1 b)))
                                          <$> selected_bins (app_settings w))).
  { rewrite Hc. f_equal. unfold _switch.
    change (map ?f ?l) with (f <$> l). now rewrite <- list_fmap_compose. }
  remember (__subdivide kw w) as r eqn:Er.
  unfold __subdivide, bind at 1, get in Er. cbv zeta in Er.
  rewrite (bind_Return _ _ _ _ _ Hloop) in Er.
  unfold _build_heatmap, bind at 1, bind at 1, get in Er.
  destruct (hm_pop (pop_name kw)) as [p |]; cbn [expect ret raise bind] in Er.
  - split.
    + subst r. cbn. exact Hcalls.
    + intros _. eexists _, _. split; [exact Er |]. cbn. rewrite Hl. repeat split.
      eexists. reflexivity.
  - split.
    + subst r. cbn. exact Hcalls.
    + intros [? ?]. discriminate.
Qed.

(** *** Toggling L-system modules *)

Lemma first_to_toggle_agree (chosen : list string) (ms : list LModule) :
  Forall (fun m => bool_decide (module_name m ∈ chosen) = active m) ms ->
  first_to_toggle chosen ms = None.
Proof.
  induction 1 as [| m ms Hm _ IH]; cbn; [reflexivity |].
  rewrite Hm. destruct (active m); cbn; exact IH.
Qed.

Lemma first_to_toggle_first (chosen : list string) (pre post : list LModule) (m : LModule) :
  Forall (fun m => bool_decide (module_name m ∈ chosen) = active m) pre ->
  bool_decide (module_name m ∈ chosen) <> active m ->
  first_to_toggle chosen (pre ++ m :: post) = Some (module_name m).
Proof.
  intros Hpre Hm. induction Hpre as [| m0 pre Hm0 _ IH]; cbn.
  - destruct (bool_decide (module_name m ∈ chosen)), (active m); cbn; congruence.
  - rewrite Hm0. destruct (active m0); cbn; exact IH.
Qed.

(** X10: [__lsystem_modules] toggles at most one module per event.  When
    the check list agrees with the activity of every module, no archive
    method is called; otherwise [toggle_module_mutability] is called once,
    for the first module, in the order of the L-system, whose activity
    disagrees with the check list, whatever the modules after it. *)
Theorem modules_event_toggles_first_mismatch (kw : Kwargs) (w : World) :
  let agrees m := bool_decide (module_name m ∈ modules kw) = active m in
  (Forall agrees (lsystem_modules (mapelites w)) ->
   calls (final (__lsystem_modules kw w)) = calls w)
  /\ (forall pre m post,
        lsystem_modules (mapelites w) = pre ++ m :: post ->
        Forall agrees pre -> ~ agrees m ->
        calls (final (__lsystem_modules kw w))
        = calls w ++ [Called (toggle_module_mutability (module_name m))]).
Proof.
  cbv zeta. split.
  - intros Hall. unfold __lsystem_modules, bind at 1, get.
    rewrite (first_to_toggle_agree _ _ Hall). reflexivity.
  - intros pre m post Hms Hpre Hm. unfold __lsystem_modules, bind at 1, get.
    rewrite Hms, (first_to_toggle_first _ _ _ _ Hpre Hm). reflexivity.
Qed.

(** *** Updating the rules *)

Lemma parse_rule_pure (line : string) (w : World) :
  (exists r, parse_rule line w = Return r w) \/ parse_rule line w = Raise ValueError w.
Proof.
  unfold parse_rule.
  destruct (split_on " " (strip line)) as [| l [| x [| r [| ? ?]]]]; try (now right).
  unfold bind. destruct (py_float x); cbn; eauto.
Qed.

Lemma parse_rules_pure (lines : list string) (w : World) :
  (exists rs, parse_rules lines w = Return rs w) \/ parse_rules lines w = Raise ValueError w.
Proof.
  induction lines as [| line lines IH].
  - left. now exists [].
  - assert (Heq : parse_rules (line :: lines) w
                  = match parse_rule line w with
                    | Return r w1 =>
                        match parse_rules lines w1 with
                        | Return rs w2 => Return (r :: rs) w2
                        | Raise e w2 => Raise e w2
                        end
                    | Raise e w1 => Raise e w1
                    end).
    { cbn [parse_rules]. unfold bind at 1. destruct (parse_rule line w); [| reflexivity].
      unfold bind at 1. destruct (parse_rules lines _); reflexivity. }
    rewrite Heq. destruct (parse_rule_pure line w) as [[r Hr] | Hr]; rewrite Hr.
    + destruct IH as [[rs Hrs] | Hrs]; rewrite Hrs; [left; eexists; reflexivity | now right].
    + now right.
Qed.

Lemma parse_rules_bad_line (lines : list string) (line : string) (w : World) :
  line ∈ lines ->
  length (split_on " " (strip line)) <> 3 ->
  parse_rules lines w = Raise ValueError w.
Proof.
  intros Hin Hbad. induction lines as [| l lines IH]; [inversion Hin |].
  cbn [parse_rules]. unfold bind at 1.
  destruct (parse_rule_pure l w) as [[r Hr] | Hr]; rewrite Hr; [| reflexivity].
  apply elem_of_cons in Hin as [<- | Hin].
  - exfalso. unfold parse_rule in Hr.
    destruct (split_on " " (strip line)) as [| a [| b [| c [| ? ?]]]];
      cbn in Hbad; try discriminate Hr. now apply Hbad.
  - unfold bind at 1. now rewrite (IH Hin).
Qed.

(** X11: the rules are replaced all at once or not at all.  If a line of
    the text does not parse, [__update_rules] raises [ValueError] before
    anything is changed, and a line that, with the white space at its ends
    stripped, is not made of exactly three fields separated by single spaces
    (an empty line is one) does not parse.  If every line parses, the rule
    set is validated: a valid one becomes the rule set of the L-system, an
    invalid one is dropped with a log record, and either way the text box is
    set to the rules the L-system then has. *)
Theorem rules_update_is_all_or_nothing (kw : Kwargs) (w : World) :
  ((__update_rules kw w = Raise ValueError w)
   \/ exists rs,
        parse_rules (split_on newline (rules kw)) w = Return rs w
        /\ match validate rs with
           | None =>
               exists out,
                 __update_rules kw w
                 = Return out (set_log (log w ++ [mkLog INFO "L-system rules updated."])
                                 (on_mapelites (set_hl_rules rs) w))
                 /\ out !! "hl-rules.value" = Some (VStr (rules_str rs))
           | Some e =>
               exists out,
                 __update_rules kw w
                 = Return out (set_log (log w ++ [mkLog INFO
                                 ("Failed updating L-system rules (" +:+ e +:+ ").")]) w)
                 /\ out !! "hl-rules.value"
                    = Some (VStr (rules_str (hl_rules (mapelites w))))
           end)
  /\ (forall line,
        line ∈ split_on newline (rules kw) ->
        length (split_on " " (strip line)) <> 3 ->
        __update_rules kw w = Raise ValueError w).
Proof.
  split.
  - destruct (parse_rules_pure (split_on newline (rules kw)) w) as [[rs Hrs] | Hrs].
    + right. exists rs. split; [exact Hrs |].
      unfold __update_rules. rewrite (bind_Return _ _ _ _ _ Hrs).
      destruct (validate rs) as [e |]; eexists; (split; [reflexivity |]); reflexivity.
    + left. unfold __update_rules, bind at 1. now rewrite Hrs.
  - intros line Hin Hbad. unfold __update_rules, bind at 1.
    now rewrite (parse_rules_bad_line _ _ _ Hin Hbad).
Qed.

End Handlers.

(** *** The colour picker *)

Lemma hex_digit_facts (c : ascii) (d : Z) :
  hex_digit c = Some d ->
  (0 <= d <= 15)%Z /\ is_int_space c = false /\ Ascii.eqb c "#" = false.
Proof.
  destruct c as [[] [] [] [] [] [] [] []]; vm_compute; intros Hd;
    first [discriminate Hd | injection Hd as <-; repeat split; discriminate].
Qed.

Lemma int16_two_hex (c1 c2 : ascii) (d1 d2 : Z) :
  hex_digit c1 = Some d1 -> hex_digit c2 = Some d2 ->
  int16 (String c1 (String c2 EmptyString)) = Some (16 * d1 + d2)%Z.
Proof.
  intros H1 H2. destruct (hex_digit_facts c2 d2 H2) as (_ & Hs2 & _).
  destruct (hex_digit_facts c1 d1 H1) as (_ & Hs1 & _).
  assert (Hstrip : rev_string (lstrip_while is_int_space
                                  (rev_string (lstrip_while is_int_space
                                                 (String c1 (String c2 EmptyString)))))
                   = String c1 (String c2 EmptyString)).
  { cbn [lstrip_while]. rewrite Hs1.
    unfold rev_string. cbn [String.list_ascii_of_string rev app String.string_of_list_ascii
                            lstrip_while].
    rewrite Hs2. reflexivity. }
  unfold int16. rewrite Hstrip.
  assert (Hv : hex_value 0 (String c1 (String c2 EmptyString)) = Some (16 * d1 + d2)%Z).
  { cbn [hex_value]. rewrite H1. cbn [mbind option_bind]. rewrite H2. cbn [mbind option_bind].
    f_equal; lia. }
  rewrite <- Hv. clear Hv Hstrip Hs1.
  destruct c1 as [[] [] [] [] [] [] [] []]; first [reflexivity | vm_compute in H1; discriminate H1].
Qed.

Lemma substring_beyond (s : string) (n m : nat) :
  String.length s <= n -> String.substring n m s = EmptyString.
Proof.
  revert n. induction s as [| c s IH]; intros n Hn.
  - destruct n, m; reflexivity.
  - destruct n as [| n]; cbn in Hn; [lia |]. cbn. apply IH. lia.
Qed.

Lemma parse_color_hex (c1 c2 c3 c4 c5 c6 : ascii) (d1 d2 d3 d4 d5 d6 : Z) :
  hex_digit c1 = Some d1 -> hex_digit c2 = Some d2 -> hex_digit c3 = Some d3 ->
  hex_digit c4 = Some d4 -> hex_digit c5 = Some d5 -> hex_digit c6 = Some d6 ->
  parse_color (String "#" (String c1 (String c2 (String c3 (String c4
                 (String c5 (String c6 EmptyString)))))))
  = Some (scale (v3f (inject_Z (16 * d1 + d2)) (inject_Z (16 * d3 + d4))
                     (inject_Z (16 * d5 + d6))) (1 / 256)%Q).
Proof.
  intros H1 H2 H3 H4 H5 H6.
  destruct (hex_digit_facts _ _ H1) as (_ & _ & E1).
  unfold parse_color. cbn [lstrip_while].
  change (Ascii.eqb "#" "#") with true. cbv iota. rewrite E1.
  cbn [String.substring].
  rewrite (int16_two_hex _ _ _ _ H1 H2), (int16_two_hex _ _ _ _ H3 H4),
    (int16_two_hex _ _ _ _ H5 H6).
  reflexivity.
Qed.

Section Colour.
Context `{Collaborators}.

(** X12: a colour written [#rrggbb] with six hexadecimal digits is always
    accepted, and each component of the colour is its two-digit value
    divided by 256: it lies between 0 and 255/256, so no picked colour,
    white included, has a component equal to 1. *)
Theorem hex_colour_is_accepted (c1 c2 c3 c4 c5 c6 : ascii) (d1 d2 d3 d4 d5 d6 : Z) :
  hex_digit c1 = Some d1 -> hex_digit c2 = Some d2 -> hex_digit c3 = Some d3 ->
  hex_digit c4 = Some d4 -> hex_digit c5 = Some d5 -> hex_digit c6 = Some d6 ->
  let r := (16 * d1 + d2)%Z in
  let g := (16 * d3 + d4)%Z in
  let b := (16 * d5 + d6)%Z in
  let col := scale (v3f (inject_Z r) (inject_Z g) (inject_Z b)) (1 / 256)%Q in
  parse_color (String "#" (String c1 (String c2 (String c3 (String c4
                 (String c5 (String c6 EmptyString)))))))
  = Some col
  /\ (0 <= r <= 255)%Z /\ (0 <= g <= 255)%Z /\ (0 <= b <= 255)%Z
  /\ (0 <= vx col)%Q /\ (vx col < 1)%Q
  /\ (0 <= vy col)%Q /\ (vy col < 1)%Q
  /\ (0 <= vz col)%Q /\ (vz col < 1)%Q.
Proof.
  intros H1 H2 H3 H4 H5 H6 r g b col.
  destruct (hex_digit_facts _ _ H1) as (R1 & _ & _).
  destruct (hex_digit_facts _ _ H2) as (R2 & _ & _).
  destruct (hex_digit_facts _ _ H3) as (R3 & _ & _).
  destruct (hex_digit_facts _ _ H4) as (R4 & _ & _).
  destruct (hex_digit_facts _ _ H5) as (R5 & _ & _).
  destruct (hex_digit_facts _ _ H6) as (R6 & _ & _).
  split; [| split; [| split; [| split]]]; try (subst r g b; lia).
  - now apply parse_color_hex.
  - subst col. cbn [vx vy vz scale]. unfold Qle, Qlt. cbn.
    subst r g b. repeat split; lia.
Qed.

(** X13: a picked colour with fewer than five characters after its leading
    [#] signs is rejected: [__color] raises [ValueError] before anything is
    changed. *)
Theorem short_colour_is_rejected (kw : Kwargs) (w : World) :
  String.length (lstrip_while (fun c => Ascii.eqb c "#") (color_picked kw)) <= 4 ->
  __color kw w = Raise ValueError w.
Proof.
  intros Hlen. unfold __color, bind at 1, parse_color.
  rewrite (substring_beyond _ 4 2 Hlen).
  change (int16 EmptyString) with (@None Z).
  destruct (int16 (String.substring 0 2 _)) as [r |]; [| reflexivity].
  destruct (int16 (String.substring 2 2 _)) as [g |]; reflexivity.
Qed.

End Colour.

Lemma hex_colour_is_accepted_witness :
  parse_color "#ffFF0a" = Some (scale (v3f (inject_Z 255) (inject_Z 255) (inject_Z 10)) (1 / 256)%Q).
Proof.
  exact (proj1 (hex_colour_is_accepted "f" "f" "F" "F" "0" "a" 15 15 15 15 0 10
                  eq_refl eq_refl eq_refl eq_refl eq_refl eq_refl)).
Defined.

Lemma short_colour_is_rejected_witness :
  exists kw,
    color_picked kw = "#fff"
    /\ @__color sample_collaborators kw (sample_world false [] None false)
       = Raise ValueError (sample_world false [] None false).
Proof.
  exists (mkKwargs None (FigGiven 1 "heatmap") "" (FigGiven 1 "content") "" (VProperties None)
           "Feasible" "Fitness" "Major axis / Medium axis" "Symmetry" "None"
           "Contextual Bandit" false false (VComponent "style") (VComponent "style")
           "Download" (VLegend grey) "#fff" (Some None) false false
           (VComponent "style") (VComponent "title") (VComponent "body")
           (VComponent "style") "Population" [1%Q] ["cockpit"] (0, 0) "population.json").
  split; [reflexivity |].
  apply (@short_colour_is_rejected sample_collaborators). cbn. lia.
Defined.

(** *** Reset *)

Section Reset.
Context `{Collaborators}.

(** Building the heat map leaves the world alone. *)
Lemma build_heatmap_pure (pn mn me : string) : related eq (_build_heatmap pn mn me).
Proof. rel_auto fail. Qed.

(** X14: after [__reset], whether it returns or fails on the heat map, the
    generation counter is zero, the selection is empty, [reset] has been
    called once on the archive and nothing else, and every candidate the
    reset archive holds carries the current base colour, on itself and on
    its cached content.  With a population label the heat map knows, it
    returns the new heat map and the empty preview. *)
Theorem reset_restarts_the_run (kw : Kwargs) (w : World) :
  let w' := final (__reset kw w) in
  gen_counter (app_settings w') = 0
  /\ selected_bins (app_settings w') = []
  /\ calls w' = calls w ++ [Called reset]
  /\ base_color_global w' = base_color_global w
  /\ (forall r cs, deref (mapelites w') r = Some cs -> coloured (base_color_global w) cs)
  /\ (is_Some (hm_pop (pop_name kw)) ->
      exists out,
        __reset kw w = Return out w'
        /\ out !! "content-plot.figure" = Some (VFigure (FigEmpty None))
        /\ is_Some (out !! "heatmap-plot.figure")).
Proof.
  cbv zeta. remember (__reset kw w) as r eqn:Er. unfold __reset in Er.
  rewrite (bind_Return (logger _ _) _ _ tt _ eq_refl) in Er.
  rewrite (bind_Return (call _) _ _ tt _ eq_refl) in Er.
  rewrite (bind_Return (logger _ _) _ _ tt _ eq_refl) in Er.
  rewrite (bind_Return (modify _) _ _ tt _ eq_refl) in Er.
  rewrite (bind_Return (set_selection _) _ _ tt _ eq_refl) in Er.
  rewrite (bind_Return (bind get _) _ _ tt _ eq_refl) in Er.
  lazymatch type of Er with
  | r = ?m ?w6 =>
      set (w1 := w6) in *;
      assert (Hm : related eq m) by (rel_auto fail);
      pose proof (Hm w1) as Hfin; rewrite <- Er in Hfin
  end.
  rewrite <- Hfin.
  split; [reflexivity |]. split; [reflexivity |].
  split; [reflexivity |]. split; [reflexivity |]. split.
  - intros ref cs Hd. subst w1. rewrite mapelites_on_mapelites, deref_recolor in Hd.
    destruct (deref _ ref) as [cs0 |]; [| discriminate Hd]. injection Hd as <-.
    split; [reflexivity |]. cbn. intros st Hst.
    destruct (_content cs0); [| discriminate Hst]. injection Hst as <-. reflexivity.
  - intros [p Hp]. subst r. unfold _build_heatmap, bind at 1, bind at 1, get.
    rewrite Hp. cbn. eexists. split; [reflexivity |]. split; [reflexivity |].
    eexists. reflexivity.
Qed.

End Reset.

Lemma reset_restarts_the_run_witness :
  let w := sample_world false [(0, 1)] None false in
  exists out w',
    @__reset sample_collaborators sample_kwargs w = Return out w'
    /\ gen_counter (app_settings w') = 0
    /\ selected_bins (app_settings w') = [].
Proof.
  intros w.
  destruct (@reset_restarts_the_run sample_collaborators sample_kwargs w)
    as (Hg & Hs & _ & _ & _ & Hret).
  destruct (Hret ltac:(eexists; reflexivity)) as (out & Hout & _).
  exists out, (final (@__reset sample_collaborators sample_kwargs w)).
  split; [exact Hout |]. split; [exact Hg | exact Hs].
Defined.

Lemma step_without_selection_opens_modal_witness :
  let w := sample_world false [] None false in
  exists out w',
    @general_callback sample_collaborators (Some In_step_btn) sample_kwargs w = Return out w'
    /\ out !! "nbs-err-modal.is_open" = Some (VBool true)
    /\ calls w' = [Dispatched H_apply_step].
Proof.
  intros w.
  destruct (@step_without_selection_opens_modal sample_collaborators sample_kwargs w
              eq_refl eq_refl) as (out & w' & Hr & Hm & _ & _ & Hc & _).
  exists out, w'. split; [exact Hr |]. split; [exact Hm | exact Hc].
Defined.

Lemma subdivide_visits_each_selected_bin_witness :
  let w := sample_world false [(0, 1); (1, 0)] None false in
  exists out w',
    @__subdivide sample_collaborators sample_kwargs w = Return out w'
    /\ selected_bins (app_settings w') = []
    /\ calls (final (@__subdivide sample_collaborators sample_kwargs w))
       = [Called (subdivide_range (1, 0)); Called (subdivide_range (0, 1))].
Proof.
  intros w.
  destruct (@subdivide_visits_each_selected_bin sample_collaborators sample_kwargs w)
    as [Hc Hret].
  destruct (Hret ltac:(eexists; reflexivity)) as (out & w' & Hr & Hs & _).
  exists out, w'. split; [exact Hr |]. split; [exact Hs | exact Hc].
Defined.

Lemma modules_event_toggles_first_mismatch_witness :
  let m := mkMAPElites sample_bins false (new_emitter ContextualBanditEmitter) 0
             (Some (mkHullBuilder "bin" true false))
             [mkLModule "cockpit" true; mkLModule "thrust" true; mkLModule "gyro" true] []
             ("Major axis / Medium axis", "Symmetry") [1%Q] in
  let w := on_mapelites (fun _ => m) (sample_world false [] None false) in
  calls (final (@__lsystem_modules sample_collaborators sample_kwargs w))
  = [Called (toggle_module_mutability "thrust")].
Proof.
  intros m w.
  destruct (@modules_event_toggles_first_mismatch sample_collaborators sample_kwargs w)
    as [_ Hfirst].
  apply (Hfirst [mkLModule "cockpit" true] (mkLModule "thrust" true) [mkLModule "gyro" true]).
  - reflexivity.
  - repeat constructor.
  - vm_compute. discriminate.
Defined.

Lemma rules_update_is_all_or_nothing_witness :
  let w := sample_world false [] None false in
  let text := "A 1 B " +:+ String (ascii_of_nat 160) EmptyString in
  let kw :=
    mkKwargs None (FigGiven 1 "heatmap") text (FigGiven 1 "content") "" (VProperties None)
             "Feasible" "Fitness" "Major axis / Medium axis" "Symmetry" "None"
             "Contextual Bandit" false false (VComponent "style") (VComponent "style")
             "Download" (VLegend grey) "#737373" (Some None) false false
             (VComponent "style") (VComponent "title") (VComponent "body")
             (VComponent "style") "Population" [1%Q] ["cockpit"] (0, 0) "population.json" in
  @__update_rules sample_collaborators sample_kwargs w = Raise ValueError w
  /\ strip text = "A 1 B"
  /\ hl_rules (mapelites (final (@__update_rules sample_collaborators kw w)))
     = [mkRule "A" "B" 1].
Proof.
  intros w text kw. split; [| split].
  - destruct (@rules_update_is_all_or_nothing sample_collaborators sample_kwargs w)
      as [_ Hbad].
    apply (Hbad ""); [vm_compute; left | vm_compute; discriminate].
  - vm_compute. reflexivity.
  - vm_compute. reflexivity.
Defined.

(** *** The label of the selected bins *)

Section FormatBins.

Lemma bin_label_spec (i j : nat) (w : World) :
  (exists sizes, bin_label i j w = Return ((i, j), sizes) w)
  \/ bin_label i j w = Raise IndexError w.
Proof.
  remember (bin_label i j w) as r eqn:Er. unfold bin_label, bind at 1, get in Er.
  destruct (column_prefix (mapelites w) i j) as [c |]; [| now right].
  cbn [expect ret bind] in Er.
  destruct (row_prefix (mapelites w) i j) as [rw |]; [| now right].
  left. eexists. exact Er.
Qed.

(** The loop of [_format_bins] with [filter_out_empty]: one entry for each
    non-empty bin, in order; the selection only loses bins; the rest of the
    world stays. *)
Lemma format_bins_loop_spec (sw : bool) (bs : list MAPBin)
    (acc entries : list ((nat * nat) * (Q * Q))) (w w' : World) :
  format_bins_loop sw true bs acc w = Return entries w' ->
  entries.*1
  = acc.*1 ++ ((fun b => if sw then switch1 (bin_idx b) else bin_idx b)
               <$> filter (fun b => non_empty feasible b || non_empty infeasible b = true) bs)
  /\ selected_bins (app_settings w') `sublist_of` selected_bins (app_settings w)
  /\ mapelites w' = mapelites w
  /\ gen_counter (app_settings w') = gen_counter (app_settings w)
  /\ calls w' = calls w.
Proof.
  revert acc w. induction bs as [| b bs IH]; intros acc w Hr; cbn [format_bins_loop] in Hr.
  - injection Hr as <- <-. cbn. rewrite app_nil_r. auto.
  - unfold bind at 1, format_bin in Hr. destruct (bin_idx b) as [i j] eqn:Hidx.
    destruct (non_empty feasible b || non_empty infeasible b) eqn:Hne.
    + rewrite filter_cons_True by exact Hne. cbn [fmap list_fmap].
      assert (Hlab : forall i' j',
                 (if sw then (j, i) else (i, j)) = (i', j') ->
                 match (let* e := bin_label i' j' in ret (acc ++ [e])) w with
                 | Return a w1 => format_bins_loop sw true bs a w1
                 | Raise e w1 => Raise e w1
                 end = Return entries w' ->
                 entries.*1 = acc.*1 ++ (i', j') :: ((fun b => if sw then switch1 (bin_idx b) else bin_idx b)
                     <$> filter (fun b => non_empty feasible b || non_empty infeasible b = true) bs)
                 /\ selected_bins (app_settings w') `sublist_of` selected_bins (app_settings w)
                 /\ mapelites w' = mapelites w
                 /\ gen_counter (app_settings w') = gen_counter (app_settings w)
                 /\ calls w' = calls w).
      { intros i' j' _ Hr'. unfold bind at 1 in Hr'.
        destruct (bin_label_spec i' j' w) as [[sizes Hl] | Hl]; rewrite Hl in Hr';
          [| discriminate Hr'].
        cbn [ret] in Hr'. destruct (IH _ _ Hr') as (He & Hrest).
        split; [| exact Hrest]. rewrite He, fmap_app. cbn. now rewrite <- app_assoc. }
      rewrite ?Hidx. destruct sw; cbn [switch1 fst snd].
      * apply (Hlab j i eq_refl). exact Hr.
      * apply (Hlab i j eq_refl). exact Hr.
    + rewrite filter_cons_False by (rewrite Hne; discriminate).
      unfold bind at 1, get in Hr.
      destruct (mem (i, j) (selected_bins (app_settings w))); cbn in Hr.
      * destruct (IH _ _ Hr) as (He & Hs & Hm & Hg & Hc). cbn in Hs, Hm, Hg, Hc.
        split; [exact He |]. split; [| auto].
        etrans; [exact Hs | apply remove_first_sublist].
      * exact (IH _ _ Hr).
Qed.

(** In a grid where every bin carries its position, the indices the label
    shows are the selected indices of the bins that hold a candidate. *)
Lemma bins_of_labels (m : MAPElites) (sw : bool) (l : list (nat * nat)) (bs : list MAPBin) :
  grid_indexed m ->
  bins_of m sw l = Some bs ->
  (fun b => if sw then switch1 (bin_idx b) else bin_idx b)
    <$> filter (fun b => non_empty feasible b || non_empty infeasible b = true) bs
  = filter (fun idx => holds_candidate m sw idx = true) l.
Proof.
  intros Hgrid. revert bs. induction l as [| [i j] l IH]; intros bs Hbs; cbn [bins_of] in Hbs.
  - injection Hbs as <-. reflexivity.
  - destruct (bin_at m (if sw then (j, i) else (i, j))) as [b |] eqn:Hb;
      cbn [mbind option_bind] in Hbs; [| discriminate Hbs].
    destruct (bins_of m sw l) as [bs' |]; cbn [mbind option_bind] in Hbs; [| discriminate Hbs].
    injection Hbs as <-. specialize (IH bs' eq_refl).
    assert (Hh : holds_candidate m sw (i, j)
                 = non_empty feasible b || non_empty infeasible b).
    { unfold holds_candidate, switch1. cbn [fst snd]. now rewrite Hb. }
    assert (Hidx : (if sw then switch1 (bin_idx b) else bin_idx b) = (i, j)).
    { rewrite (Hgrid _ _ Hb). now destruct sw. }
    destruct (non_empty feasible b || non_empty infeasible b) eqn:Hne.
    + rewrite filter_cons_True by exact Hne.
      rewrite (filter_cons_True (fun idx => holds_candidate m sw idx = true))
        by (now rewrite Hh).
      cbn [fmap list_fmap]. rewrite Hidx. f_equal. exact IH.
    + rewrite filter_cons_False by (rewrite Hne; discriminate).
      rewrite (filter_cons_False (fun idx => holds_candidate m sw idx = true))
        by (rewrite Hh; discriminate).
      exact IH.
Qed.

(** X15: [_format_bins] as the general callback calls it (empty bins
    filtered out).  When it returns, the label lists one entry for each
    selected bin that holds a candidate, in the order of the selection, under
    the index the bin carries, switched back when the selection was switched
    to find the bin; in an archive where every bin carries its position in
    the grid, these are the selected indices themselves, of the bins that
    hold a candidate.  The selection afterwards is the old one with bins
    removed, never added or reordered; the archive, the generation counter
    and the call history are untouched.  A selected index outside the grid
    raises [IndexError] before anything is changed. *)
Theorem format_bins_lists_non_empty_bins (prefix : string) (sw : bool) (w : World) :
  (forall v w',
      _format_bins prefix sw true w = Return v w' ->
      exists bs entries,
        bins_of (mapelites w) sw (selected_bins (app_settings w)) = Some bs
        /\ v = VBinsLabel prefix entries
        /\ entries.*1
           = ((fun b => if sw then switch1 (bin_idx b) else bin_idx b)
              <$> filter (fun b => non_empty feasible b || non_empty infeasible b = true) bs)
        /\ (grid_indexed (mapelites w) ->
            entries.*1
            = filter (fun idx => holds_candidate (mapelites w) sw idx = true)
                     (selected_bins (app_settings w)))
        /\ selected_bins (app_settings w') `sublist_of` selected_bins (app_settings w)
        /\ mapelites w' = mapelites w
        /\ gen_counter (app_settings w') = gen_counter (app_settings w)
        /\ calls w' = calls w)
  /\ (bins_of (mapelites w) sw (selected_bins (app_settings w)) = None ->
      _format_bins prefix sw true w = Raise IndexError w).
Proof.
  split.
  - intros v w' Hr. unfold _format_bins, bind at 1, get in Hr. unfold bind at 1 in Hr.
    destruct (bins_of (mapelites w) sw (selected_bins (app_settings w))) as [bs |] eqn:Hbs;
      [| discriminate Hr].
    cbn [expect ret] in Hr. unfold bind at 1 in Hr.
    destruct (format_bins_loop sw true bs [] w) as [entries w1 | e w1] eqn:Hloop;
      [| discriminate Hr].
    cbn [ret] in Hr. injection Hr as <- <-. exists bs, entries. split; [reflexivity |].
    split; [reflexivity |].
    destruct (format_bins_loop_spec _ _ _ _ _ _ Hloop) as (He & Hrest).
    split; [exact He |]. split; [| exact Hrest].
    intros Hgrid. rewrite He. cbn [fmap list_fmap app]. now apply bins_of_labels.
  - intros Hnone. unfold _format_bins, bind at 1, get. now rewrite Hnone.
Qed.

End FormatBins.

Lemma format_bins_lists_non_empty_bins_witness :
  let w := sample_world false [(0, 1); (1, 1)] None false in
  grid_indexed (mapelites w)
  /\ exists entries w',
       _format_bins "Selected bin(s):" true true w
       = Return (VBinsLabel "Selected bin(s):" entries) w'
       /\ entries.*1 = [(0, 1)]
       /\ selected_bins (app_settings w') `sublist_of` [(0, 1); (1, 1)].
Proof.
  intros w.
  assert (Hgrid : grid_indexed (mapelites w)).
  { intros [[| [| i]] [| [| j]]] b; cbn; intros Hb; try discriminate Hb;
      injection Hb as <-; reflexivity. }
  split; [exact Hgrid |].
  assert (Hret : match _format_bins "Selected bin(s):" true true w with
                 | Return _ _ => True
                 | Raise _ _ => False
                 end) by (vm_compute; exact I).
  destruct (_format_bins "Selected bin(s):" true true w)
    as [v w' | e w'] eqn:Hr; [| destruct Hret].
  destruct (format_bins_lists_non_empty_bins "Selected bin(s):" true w)
    as [Hspec _].
  destruct (Hspec v w' Hr) as (bs & entries & _ & -> & _ & He & Hs & _).
  exists entries, w'. split; [reflexivity |]. split; [| exact Hs].
  rewrite (He Hgrid). vm_compute. reflexivity.
Defined.

(** *** Toggling the single-bin limit twice *)

Lemma selection_toggle_once (kw : Kwargs) (w : World) :
  let w1 := final (__selection kw w) in
  enforce_qnt (mapelites w1) = negb (enforce_qnt (mapelites w))
  /\ selected_bins (app_settings w1)
     = (if enforce_qnt (mapelites w) then selected_bins (app_settings w)
        else match last_of (selected_bins (app_settings w)) with
             | Some lastb => [lastb]
             | None => []
             end)
  /\ bins (mapelites w1) = bins (mapelites w)
  /\ gen_counter (app_settings w1) = gen_counter (app_settings w).
Proof.
  cbv zeta. unfold __selection.
  cbn [bind modify get logger final].
  unfold mapelites, on_mapelites, on_settings, set_selection, when.
  cbn [app_settings set_app_settings current_mapelites set_current_mapelites
       enforce_qnt set_enforce_qnt selected_bins set_log].
  destruct (last_of (selected_bins (app_settings w))) as [lastb |] eqn:Hl.
  - destruct (enforce_qnt (current_mapelites (app_settings w))); cbn; repeat split.
  - apply last_None in Hl.
    destruct (enforce_qnt (current_mapelites (app_settings w))); cbn; rewrite ?Hl;
      repeat split.
Qed.

(** X16: toggling the single-bin limit twice puts the limit back as it
    was, but not the selection: whichever way the limit started, only the
    last selected bin is left. *)
Theorem double_toggle_keeps_last_bin (kw : Kwargs) (w : World) :
  let w2 := final (__selection kw (final (__selection kw w))) in
  enforce_qnt (mapelites w2) = enforce_qnt (mapelites w)
  /\ selected_bins (app_settings w2)
     = match last_of (selected_bins (app_settings w)) with
       | Some lastb => [lastb]
       | None => []
       end
  /\ bins (mapelites w2) = bins (mapelites w)
  /\ gen_counter (app_settings w2) = gen_counter (app_settings w).
Proof.
  cbv zeta.
  destruct (selection_toggle_once kw w) as (Hq1 & Hs1 & Hb1 & Hg1).
  destruct (selection_toggle_once kw (final (__selection kw w))) as (Hq2 & Hs2 & Hb2 & Hg2).
  cbv zeta in *. rewrite Hq2, Hs2, Hb2, Hg2, Hq1, Hs1, Hb1, Hg1.
  rewrite negb_involutive. repeat split.
  destruct (enforce_qnt (mapelites w)); cbn [negb]; [reflexivity |].
  destruct (last_of (selected_bins (app_settings w))); reflexivity.
Qed.

(** *** The preview with a symmetry axis *)

Section Preview.
Context `{Collaborators}.

(** X17: the preview of an elite with a symmetry axis set rebuilds the
    cached content of the elite, in the archive, from the symmetric string.
    When the realisation of the symmetric string succeeds, the preview
    returns the figure of the new content, and afterwards the elite has its
    own string back, the low-level string of the symmetric string, and as
    content the structure realised from it (with the external hull if the
    elite is feasible and the archive has a hull builder) in the base colour
    of the elite.  When the realisation fails, the preview raises and
    nothing is put back: the elite is left in the archive with the symmetric
    string as its string, the low-level string of it, and no content. *)
Theorem preview_rebuilds_content_from_symmetric_string (idx : nat * nat) (pop : Pop)
    (camera : option string) (voxel : bool) (w : World) (b : MAPBin) (k : nat)
    (e : CandidateSolution) (axis : string) :
  bin_at (mapelites w) idx = Some b ->
  elite_pos (population pop b) = Some k ->
  population pop b !! k = Some e ->
  symmetry (app_settings w) = Some axis ->
  let sym := enforce_symmetry (cs_string e) axis in
  let ll := hl_to_ll sym in
  let hull s :=
    if is_feasible e
    then match hull_builder (mapelites w) with
         | Some hb => add_external_hull hb s
         | None => s
         end
    else s in
  exists w',
    app_settings w' = set_current_mapelites (mapelites w') (app_settings w)
    /\ calls w' = calls w
    /\ match realize ll with
       | Some st =>
           let shown := set_color (base_color e) (hull (clear_air_gridmask st)) in
           _get_elite_content (Some idx) pop camera voxel w
           = Return (FigElite shown camera voxel (base_color_global w)) w'
           /\ deref (mapelites w') (mkRef idx pop k)
              = Some (set_content (Some shown) (set_ll_string ll e))
       | None =>
           _get_elite_content (Some idx) pop camera voxel w = Raise InvalidGenotype w'
           /\ deref (mapelites w') (mkRef idx pop k)
              = Some (set_content None (set_ll_string ll (set_cs_string sym e)))
       end.
Proof.
  intros Hb Hk He Hsym. cbv zeta.
  set (elite := mkRef idx pop k).
  assert (Hd : deref (mapelites w) elite = Some e).
  { unfold deref. cbn [ref_bin ref_pop ref_pos elite]. rewrite Hb. exact He. }
  remember (_get_elite_content (Some idx) pop camera voxel w) as o eqn:Ho.
  unfold _get_elite_content in Ho.
  rewrite (bind_Return (get_elite _ _) _ w elite w) in Ho
    by (now apply (get_elite_Return _ _ w b k)).
  rewrite (bind_Return get _ w w w eq_refl) in Ho. cbv beta in Ho. rewrite Hsym in Ho.
  destruct (symmetric_rebuild_outcome elite axis (hull_builder (mapelites w)) w e Hd)
    as (w' & Hw' & Hout).
  cbv zeta in Hout. exists w'.
  split; [rewrite Hw' at 1; reflexivity |]. split; [rewrite Hw'; reflexivity |].
  destruct (realize (hl_to_ll (enforce_symmetry (cs_string e) axis))) as [st |];
    destruct Hout as [Hret Hderef].
  - rewrite (bind_Return _ _ w tt w' Hret) in Ho.
    assert (Hd' : deref (mapelites w') elite = Some _)
      by (rewrite Hderef, decide_True by reflexivity; reflexivity).
    rewrite (bind_Return (read elite) _ w' _ w' (read_Return _ _ _ Hd')) in Ho.
    unfold content in Ho. cbn [_content set_content expect bind ret get final] in Ho.
    subst o. split; [| exact Hd'].
    rewrite Hw' at 1. reflexivity.
  - unfold bind at 1 in Ho. rewrite Hret in Ho. subst o. split; [reflexivity |].
    rewrite Hderef, decide_True by reflexivity. reflexivity.
Qed.

End Preview.

Lemma preview_rebuilds_content_from_symmetric_string_witness :
  let w := sample_world false [(0, 0)] (Some "x") false in
  let elite := mkRef (0, 0) feasible 1 in
  (exists w',
     @_get_elite_content sample_collaborators (Some (0, 0)) feasible None false w
     = Return (FigElite (mkStructure ["thrust/x"; "hull"] grey None) None false grey) w'
     /\ (cs_string <$> deref (mapelites w') elite) = Some "thrust"
     /\ (_content <$> deref (mapelites w') elite)
        = Some (Some (mkStructure ["thrust/x"; "hull"] grey None)))
  /\ (exists w',
        @_get_elite_content strict_collaborators (Some (0, 0)) feasible None false w
        = Raise InvalidGenotype w'
        /\ (cs_string <$> deref (mapelites w') elite) = Some "thrust/x"
        /\ (_content <$> deref (mapelites w') elite) = Some None).
Proof.
  intros w elite. split.
  - destruct (@preview_rebuilds_content_from_symmetric_string sample_collaborators
                (0, 0) feasible None false w
                (sample_bin 0 0 [sample_candidate "cockpit" 1 true;
                                 sample_candidate "thrust" 2 true]
                            [sample_candidate "gyro" 0 false])
                1 (sample_candidate "thrust" 2 true) "x"
                eq_refl eq_refl eq_refl eq_refl) as (w' & _ & _ & Hr & Hd).
    exists w'. split; [exact Hr |]. subst elite. rewrite Hd. split; reflexivity.
  - destruct (@preview_rebuilds_content_from_symmetric_string strict_collaborators
                (0, 0) feasible None false w
                (sample_bin 0 0 [sample_candidate "cockpit" 1 true;
                                 sample_candidate "thrust" 2 true]
                            [sample_candidate "gyro" 0 false])
                1 (sample_candidate "thrust" 2 true) "x"
                eq_refl eq_refl eq_refl eq_refl) as (w' & _ & _ & Hr & Hd).
    exists w'. split; [exact Hr |]. subst elite. rewrite Hd. split; reflexivity.
Defined.

(** *** The emitter menu, the entries that work *)

Section EmitterEntries.
Context `{Collaborators}.

(** X18: seven of the nine entries of the emitter menu set the emitter of
    the archive to a fresh instance of their class and return the name of
    the entry as the label of the menu; the bins of the archive, the
    selection and the generation counter are untouched. *)
Theorem emitter_entries_that_work (kw : Kwargs) (w : World) :
  Forall (fun '(ev, name, cls) =>
            exists out w',
              __emitter (set_event_trig (Some ev) kw) w = Return out w'
              /\ out !! "emitter-dropdown.label" = Some (VStr name)
              /\ emitter (mapelites w') = new_emitter cls
              /\ bins (mapelites w') = bins (mapelites w)
              /\ selected_bins (app_settings w') = selected_bins (app_settings w)
              /\ gen_counter (app_settings w') = gen_counter (app_settings w))
    [("emitter-human", "Human", HumanEmitter);
     ("emitter-random", "Random", RandomEmitter);
     ("emitter-greedy", "Greedy", GreedyEmitter);
     ("emitter-prefbandit", "Preference Bandit", PreferenceBanditEmitter);
     ("emitter-conbandit", "Contextual Bandit", ContextualBanditEmitter);
     ("emitter-knn", "KNN", KNEmitter);
     ("emitter-linkernel", "Linear Kernel", KernelEmitter)].
Proof.
  repeat constructor.
  all: unfold __emitter; cbn [event_trig set_event_trig]; unfold bind at 1; cbn [expect ret].
  all: unfold bind at 1.
  all: lazymatch goal with
       | |- context [emitter_names !! ?ev] =>
           let r := eval vm_compute in (emitter_names !! ev) in
           replace (emitter_names !! ev) with r by (vm_compute; reflexivity)
       end.
  all: cbn [expect ret].
  all: eexists _, _; split; [reflexivity |]; repeat split.
Qed.

End EmitterEntries.

(** *** What the callback returns for the menus *)

Lemma list_to_map_lookup_None (l : list (string * Val)) (k : string) :
  bool_decide (k ∉ l.*1) = true -> (list_to_map l : gmap string Val) !! k = None.
Proof. intros Hk. apply bool_decide_eq_true in Hk. now apply not_elem_of_list_to_map. Qed.

Section MenuLabels.
Context `{Collaborators}.

(** No handler returns a label for the population, metric or descriptor
    menus. *)
Lemma run_handler_leaves_menu_labels (h : Handler) (kw : Kwargs) :
  returns (fun u => u !! "population-dropdown.label" = None
                    /\ u !! "metric-dropdown.label" = None
                    /\ u !! "b0-dropdown.label" = None
                    /\ u !! "b1-dropdown.label" = None)
          (run_handler h kw).
Proof.
  destruct h; cbn [run_handler].
  all: returns_auto ltac:(first [ repeat split; apply lookup_empty
                                | repeat split; apply list_to_map_lookup_None;
                                  vm_compute; reflexivity ]).
Qed.

(** X19: the general callback never changes the labels of the population,
    metric and descriptor menus: whatever the trigger, when it returns, the
    values for these four outputs are the labels it was given.  A choice in
    one of these menus is applied to the heat map or the archive of this
    call only; the menu keeps showing, and the next call is given, the old
    label. *)
Theorem menu_labels_are_returned_as_given (triggered : option Input) (args : Kwargs)
    (w : World) (out : gmap string Val) (w' : World) :
  general_callback triggered args w = Return out w' ->
  out !! "population-dropdown.label" = Some (VStr (pop_name args))
  /\ out !! "metric-dropdown.label" = Some (VStr (metric_name args))
  /\ out !! "b0-dropdown.label" = Some (VStr (b0 args))
  /\ out !! "b1-dropdown.label" = Some (VStr (b1 args)).
Proof.
  revert w out w'.
  change (returns (fun out => out !! "population-dropdown.label" = Some (VStr (pop_name args))
                              /\ out !! "metric-dropdown.label" = Some (VStr (metric_name args))
                              /\ out !! "b0-dropdown.label" = Some (VStr (b0 args))
                              /\ out !! "b1-dropdown.label" = Some (VStr (b1 args)))
                  (general_callback triggered args)).
  assert (Hinit : forall ev,
             let o := initial_output (set_event_trig ev args) in
             o !! "population-dropdown.label" = Some (VStr (pop_name args))
             /\ o !! "metric-dropdown.label" = Some (VStr (metric_name args))
             /\ o !! "b0-dropdown.label" = Some (VStr (b0 args))
             /\ o !! "b1-dropdown.label" = Some (VStr (b1 args))).
  { intros ev. cbv zeta. repeat split; vm_compute; reflexivity. }
  unfold general_callback.
  apply returns_bind. intros ev. apply returns_bind. intros w0.
  destruct (negb _); [| apply returns_ret, Hinit].
  apply returns_bind. intros _.
  eapply returns_bind_with; [| intros o Ho; returns_auto ltac:(exact Ho)].
  unfold dispatch.
  apply returns_bind. intros h. apply returns_bind. intros _.
  apply (returns_bind_with _ _ _ _ (run_handler_leaves_menu_labels h _)).
  intros u (Hu1 & Hu2 & Hu3 & Hu4). cbv zeta.
  destruct (Hinit ev) as (Hi1 & Hi2 & Hi3 & Hi4).
  returns_auto ltac:(rewrite ?lookup_insert_ne by discriminate;
                     rewrite !lookup_union_r by assumption;
                     auto).
Qed.

End MenuLabels.

Lemma menu_labels_are_returned_as_given_witness :
  let w := sample_world false [] None false in
  exists out w',
    @general_callback sample_collaborators (Some In_bc0_Symmetry) sample_kwargs w
    = Return out w'
    /\ out !! "b0-dropdown.label" = Some (VStr "Major axis / Medium axis")
    /\ calls w' = [Dispatched H_bc_change; Called (update_behavior_descriptors "Symmetry" "Symmetry")].
Proof.
  intros w.
  assert (Hret : match @general_callback sample_collaborators (Some In_bc0_Symmetry)
                         sample_kwargs w with
                 | Return _ _ => True
                 | Raise _ _ => False
                 end) by (vm_compute; exact I).
  assert (Hcalls : calls (final (@general_callback sample_collaborators (Some In_bc0_Symmetry)
                                   sample_kwargs w))
                   = [Dispatched H_bc_change;
                      Called (update_behavior_descriptors "Symmetry" "Symmetry")])
    by (vm_compute; reflexivity).
  destruct (@general_callback sample_collaborators (Some In_bc0_Symmetry) sample_kwargs w)
    as [out w' | e w'] eqn:Hr; [| destruct Hret].
  exists out, w'. split; [reflexivity |].
  destruct (@menu_labels_are_returned_as_given sample_collaborators _ _ _ _ _ Hr)
    as (_ & _ & Hb0 & _).
  split; [exact Hb0 | exact Hcalls].
Defined.

(** *** Handlers that leave the archive alone *)

#[local] Instance archive_only_read_preorder : PreOrder archive_only_read.
Proof.
  split.
  - intros w Hs. auto.
  - intros a b c Hab Hbc Ha. destruct (Hab Ha) as [Hm Hs].
    destruct (Hbc Hs) as [Hm' Hs']. split; congruence.
Qed.

Section ReadOnly.
Context `{Collaborators}.

(** X20: choosing a symmetry axis records the axis and empties the
    selection, and that is all: the archive is untouched, no candidate is
    rewritten by the choice itself.  A trigger that is none of the three
    entries of the menu raises [UnboundLocalError] after the first log
    record, with nothing else changed. *)
Theorem symmetry_choice_leaves_archive (kw : Kwargs) (w : World) :
  mapelites (final (__apply_symmetry kw w)) = mapelites w
  /\ (forall axis, (event_trig kw, axis) ∈ [(Some "symmetry-none", None);
                                           (Some "symmetry-x", Some "x");
                                           (Some "symmetry-z", Some "z")] ->
      symmetry (app_settings (final (__apply_symmetry kw w))) = axis
      /\ selected_bins (app_settings (final (__apply_symmetry kw w))) = [])
  /\ (event_trig kw ∉ [Some "symmetry-none"; Some "symmetry-x"; Some "symmetry-z"] ->
      __apply_symmetry kw w
      = Raise UnboundLocalError
          (set_log (log w ++ [mkLog INFO "Updating all solutions to enforce symmetry..."]) w)).
Proof.
  split; [| split].
  - revert w. change (related same_archive (__apply_symmetry kw)).
    rel_auto ltac:(exact eq_refl).
  - intros axis Hin.
    assert (Hcase : forall (label : string) (w1 : World),
               let r1 := (modify (on_settings (set_symmetry axis)) >>
                          set_selection [] >>
                          let* heatmap := _build_heatmap (pop_name kw) (metric_name kw)
                                                         (method_name kw) in
                          let* fig := _get_elite_content None feasible None false in
                          logger INFO "Symmetry enforcement completed." >>
                          let* props := get_properties_table None in
                          ret (list_to_map (M := gmap string Val)
                                 [("content-plot.figure", VFigure fig);
                                  ("heatmap-plot.figure", VFigure heatmap);
                                  ("content-string.value", VStr "");
                                  ("symmetry-dropdown.label", VStr label);
                                  ("spaceship-properties.children", props)])) w1 in
               symmetry (app_settings (final r1)) = axis
               /\ selected_bins (app_settings (final r1)) = []).
    { intros label w1. cbv zeta.
      rewrite (bind_Return (modify _) _ _ tt _ eq_refl).
      rewrite (bind_Return (set_selection _) _ _ tt _ eq_refl).
      unfold _build_heatmap, bind at 1, bind at 1, get.
      destruct (hm_pop (pop_name kw)); cbn; auto. }
    unfold __apply_symmetry.
    rewrite (bind_Return (logger _ _) _ _ tt _ eq_refl).
    repeat (apply elem_of_cons in Hin as [Hin | Hin]); [| | | inversion Hin].
    all: injection Hin as Hev ->; rewrite Hev.
    + rewrite bool_decide_eq_true_2 by reflexivity.
      rewrite (bind_Return (ret _) _ _ ("None", None) _ eq_refl). apply Hcase.
    + rewrite bool_decide_eq_false_2 by discriminate.
      rewrite bool_decide_eq_true_2 by reflexivity.
      rewrite (bind_Return (ret _) _ _ ("X-axis", Some "x") _ eq_refl). apply Hcase.
    + rewrite !bool_decide_eq_false_2 by discriminate.
      rewrite bool_decide_eq_true_2 by reflexivity.
      rewrite (bind_Return (ret _) _ _ ("Z-axis", Some "z") _ eq_refl). apply Hcase.
  - intros Hev. unfold __apply_symmetry.
    rewrite (bind_Return (logger _ _) _ _ tt _ eq_refl).
    rewrite !bool_decide_eq_false_2; [reflexivity | | |]; intros E; apply Hev; rewrite E;
      set_solver.
Qed.

End ReadOnly.

Section Redraw.
Context `{Collaborators}.

(** Across one [modify] of a redrawing handler: neither the archive nor the
    axis is touched. *)
Ltac read_leaf := intros Hs; split; [exact eq_refl | exact Hs].

(** Without a symmetry axis the preview only reads. *)
Lemma get_elite_content_reads (idx : option (nat * nat)) (pop : Pop)
    (camera : option string) (voxel : bool) :
  related archive_only_read (_get_elite_content idx pop camera voxel).
Proof.
  unfold _get_elite_content. destruct idx as [idx |]; [| rel_auto fail].
  apply rel_bind; [typeclasses eauto | rel_auto fail | intros elite].
  apply rel_get_bind. intros w Hs. rewrite Hs.
  lazymatch goal with
  | |- context [final (?m w)] =>
      assert (Hm : related eq m) by (rel_auto fail); rewrite <- (Hm w)
  end.
  auto.
Qed.

#[local] Hint Resolve get_elite_content_reads : rel.

Lemma select_clicked_reads (cell : nat * nat) : related archive_only_read (select_clicked cell).
Proof. rel_auto read_leaf. Qed.

#[local] Hint Resolve select_clicked_reads : rel.

(** X21: looking at the archive does not change it.  With no symmetry axis
    set, the handlers that only redraw or open a dialogue (heat-map update,
    click on a cell, voxel toggle, clearing the selection, population
    download, the default handler and the three dialogues) leave the archive
    exactly as it was, whether they return or raise. *)
Theorem redrawing_leaves_archive (h : Handler) (kw : Kwargs) (w : World) :
  redraws_only h = true ->
  symmetry (app_settings w) = None ->
  mapelites (final (run_handler h kw w)) = mapelites w
  /\ symmetry (app_settings (final (run_handler h kw w))) = None.
Proof.
  intros Hh. revert w. change (related archive_only_read (run_handler h kw)).
  destruct h; try discriminate Hh; cbn [run_handler].
  all: rel_auto read_leaf.
Qed.

End Redraw.

Lemma redrawing_leaves_archive_witness :
  let w := sample_world false [(0, 0)] None false in
  mapelites (final (@run_handler sample_collaborators H_update_content sample_kwargs w))
  = mapelites w.
Proof.
  intros w.
  exact (proj1 (@redrawing_leaves_archive sample_collaborators H_update_content sample_kwargs w
                  eq_refl eq_refl)).
Defined.

Lemma symmetry_choice_leaves_archive_witness :
  let w := sample_world false [(0, 0)] None false in
  let kw := set_event_trig (Some "symmetry-x") sample_kwargs in
  symmetry (app_settings (final (@__apply_symmetry sample_collaborators kw w))) = Some "x"
  /\ selected_bins (app_settings (final (@__apply_symmetry sample_collaborators kw w))) = [].
Proof.
  intros w kw.
  destruct (@symmetry_choice_leaves_archive sample_collaborators kw w) as (_ & Hset & _).
  apply Hset. right. left.
Defined.

(** *** The selection after an applied step *)

#[local] Instance same_pick_preorder : PreOrder same_pick.
Proof.
  split.
  - intros w. split; reflexivity.
  - intros a b c [H1 H2] [H3 H4]. split; congruence.
Qed.

#[local] Instance looks_only_preorder : PreOrder looks_only.
Proof.
  split.
  - intros w Hs. auto.
  - intros a b c Hab Hbc Ha. destruct (Hab Ha) as (Hm & Hs & Hsel).
    destruct (Hbc Hs) as (Hm' & Hs' & Hsel'). repeat split; congruence.
Qed.

Lemma bind_bind {A B C} (m : M A) (f : A -> M B) (g : B -> M C) (w : World) :
  bind (bind m f) g w = bind m (fun a => bind (f a) g) w.
Proof. unfold bind. destruct (m w); reflexivity. Qed.

Section StaleBins.
Context `{Collaborators}.

Lemma apply_step_pick (sel : list (nat * nat)) (gen : nat) (only_emitter : bool) :
  related same_pick (_apply_step sel gen only_emitter).
Proof. rel_auto ltac:(exact (conj eq_refl eq_refl)). Qed.

Lemma get_elite_content_looks (idx : option (nat * nat)) (pop : Pop)
    (camera : option string) (voxel : bool) :
  related looks_only (_get_elite_content idx pop camera voxel).
Proof.
  unfold _get_elite_content. destruct idx as [idx |]; [| rel_auto fail].
  apply rel_bind; [typeclasses eauto | rel_auto fail | intros elite].
  apply rel_get_bind. intros w Hs. rewrite Hs.
  lazymatch goal with
  | |- context [final (?m w)] =>
      assert (Hm : related eq m) by (rel_auto fail); rewrite <- (Hm w)
  end.
  auto.
Qed.

#[local] Hint Resolve get_elite_content_looks : rel.

(** X22: after a step that is applied, no stale bin stays selected.  With
    no symmetry axis set and a non-empty selection that passes the test of
    the step, when [_apply_step] returns, [__apply_step] leaves a selection
    that is the old one without the bins that are no longer valid in the
    archive the step produced: every bin still selected is valid there, and
    the order is kept; the generation counter is one higher.  When a
    realisation in the refresh of [_apply_step] raises, the selection and
    the counter are as they were. *)
Theorem applied_step_drops_stale_bins (kw : Kwargs) (w : World) :
  symmetry (app_settings w) = None ->
  selected_bins (app_settings w) <> [] ->
  selection_valid (_switch (selected_bins (app_settings w))) w = true ->
  let only_emitter := bool_decide (event_trig kw = Some "rand-step-btn")
                      && bool_decide (app_mode (app_settings w) = USER) in
  let w' := final (__apply_step kw w) in
  match _apply_step (_switch (selected_bins (app_settings w)))
                    (gen_counter (app_settings w)) only_emitter w with
  | Return _ _ =>
      selected_bins (app_settings w')
      = filter (fun b => switch1 b ∈ valid_bins_idx (mapelites w'))
               (selected_bins (app_settings w))
      /\ gen_counter (app_settings w') = gen_counter (app_settings w) + 1
  | Raise _ _ =>
      selected_bins (app_settings w') = selected_bins (app_settings w)
      /\ gen_counter (app_settings w') = gen_counter (app_settings w)
  end.
Proof.
  intros Hsym Hne Hv only_emitter. cbv zeta.
  assert (Hemp : is_empty (selected_bins (app_settings w)) = false).
  { destruct (selected_bins (app_settings w)); [congruence | reflexivity]. }
  pose proof (apply_step_spec (_switch (selected_bins (app_settings w)))
                (gen_counter (app_settings w)) only_emitter w) as Hs.
  rewrite Hv in Hs.
  destruct (apply_step_pick (_switch (selected_bins (app_settings w)))
              (gen_counter (app_settings w)) only_emitter w) as [Hs1 Hsel1].
  remember (__apply_step kw w) as r eqn:Er.
  unfold __apply_step, bind at 1, get at 1 in Er. rewrite Hemp in Er.
  cbn [negb orb] in Er. unfold bind at 1 in Er. fold only_emitter in Er.
  destruct (_apply_step _ _ only_emitter w) as [res w1 | ex w1];
    cbn [final] in Hs1, Hsel1.
  - destruct Hs as (-> & _ & Hg).
    unfold bind at 1, modify at 1 in Er. unfold bind at 1, get at 1 in Er.
    cbn [selected_bins app_settings on_settings set_app_settings set_gen_counter] in Er.
    rewrite Hsel1, Hemp in Er. cbn [negb] in Er.
    rewrite bind_bind in Er.
    rewrite (bind_Return drop_invalid_selected _ _ tt _ eq_refl) in Er.
    lazymatch type of Er with
    | r = ?m ?w3 =>
        set (w2 := w3) in *;
        assert (Hm : related looks_only m /\ related same_gen m);
          [| destruct Hm as [Hm Hgen]; pose proof (Hm w2) as Hfin;
             pose proof (Hgen w2) as Hgfin ]
    end.
    { split.
      - rel_auto ltac:(intros Hs; repeat split; [exact eq_refl | exact Hs | exact eq_refl]).
      - rel_auto ltac:(exact eq_refl). }
    rewrite <- Er in Hfin, Hgfin.
    assert (Hw2 : symmetry (app_settings w2) = None) by (subst w2; cbn; congruence).
    destruct (Hfin Hw2) as (Hm2 & _ & Hsel2).
    rewrite Hsel2, Hm2. unfold same_gen in Hgfin. rewrite Hgfin.
    subst w2. cbn. rewrite Hsel1, Hg. split; [reflexivity | lia].
  - destruct Hs as [_ Hg]. subst r. cbn [final]. split; [exact Hsel1 | exact Hg].
Qed.

End StaleBins.

Lemma applied_step_drops_stale_bins_witness :
  let w := sample_world true [(0, 1)] None false in
  let w' := final (@__apply_step sample_collaborators sample_kwargs w) in
  selected_bins (app_settings w') = [(0, 1)]
  /\ gen_counter (app_settings w') = 4.
Proof.
  intros w w'.
  pose proof (@applied_step_drops_stale_bins sample_collaborators sample_kwargs w
                eq_refl ltac:(discriminate) eq_refl) as Hx.
  cbv zeta in Hx.
  lazymatch type of Hx with
  | match ?t with _ => _ end =>
      assert (Hret : match t with Return _ _ => True | Raise _ _ => False end)
        by (vm_compute; exact I);
      destruct t; [| destruct Hret]
  end.
  destruct Hx as [Hsel Hgen].
  split; [| exact Hgen].
  etrans; [exact Hsel |]. vm_compute. reflexivity.
Defined.

(** *** Clicks that select nothing *)

Section Clicks.
Context `{Collaborators}.

(** X23: a click on the heat map that cannot select leaves the selection
    and the archive alone.  A click outside the grid raises [IndexError]
    with nothing changed; a click on a bin whose displayed population is
    empty logs an error and returns the page values it was given; a click
    on a bin that is not valid returns them without a trace. *)
Theorem click_that_cannot_select (kw : Kwargs) (w : World) :
  let cell := clickData kw in
  let given :=
    (list_to_map [("heatmap-plot.figure", VFigure (curr_heatmap kw));
                  ("content-plot.figure", VFigure (curr_content kw));
                  ("content-string.value", VStr (cs_string_shown kw));
                  ("spaceship-properties.children", cs_properties kw)]
     : gmap string Val) in
  (bin_at (mapelites w) (switch1 cell) = None ->
   __update_content kw w = Raise IndexError w)
  /\ (forall b,
        bin_at (mapelites w) (switch1 cell) = Some b ->
        non_empty (pop_of_name (pop_name kw)) b = false ->
        __update_content kw w
        = Return given
            (set_log (log w ++ [mkLog ERROR
               ("[" +:+ module_name_ +:+ ".__update_content] Empty bin selected: (i, j)="
                +:+ py_tuple cell)]) w))
  /\ (forall b,
        bin_at (mapelites w) (switch1 cell) = Some b ->
        non_empty (pop_of_name (pop_name kw)) b = true ->
        switch1 cell ∉ valid_bins_idx (mapelites w) ->
        __update_content kw w = Return given w).
Proof.
  cbv zeta. unfold __update_content, switch1.
  destruct (clickData kw) as [i j]. cbn [fst snd]. cbv zeta.
  split; [| split].
  - intros Hb. unfold bind at 1, get. now rewrite Hb.
  - intros b Hb Hne. unfold bind at 1, get. rewrite Hb. cbn [expect ret].
    rewrite (bind_Return (ret b) _ w b w eq_refl), Hne. reflexivity.
  - intros b Hb Hne Hnv. unfold bind at 1, get. rewrite Hb. cbn [expect ret].
    rewrite (bind_Return (ret b) _ w b w eq_refl), Hne. unfold mem.
    rewrite bool_decide_eq_false_2 by exact Hnv. reflexivity.
Qed.

End Clicks.

Lemma click_that_cannot_select_witness :
  let w := sample_world false [(0, 0)] None false in
  exists kw,
    clickData kw = (1, 1)
    /\ selected_bins (app_settings (final (@__update_content sample_collaborators kw w)))
       = [(0, 0)]
    /\ length (log (final (@__update_content sample_collaborators kw w))) = 1.
Proof.
  intros w.
  exists (mkKwargs None (FigGiven 1 "heatmap") "" (FigGiven 1 "content") "" (VProperties None)
           "Feasible" "Fitness" "Major axis / Medium axis" "Symmetry" "None"
           "Contextual Bandit" false false (VComponent "style") (VComponent "style")
           "Download" (VLegend grey) "#737373" (Some None) false false
           (VComponent "style") (VComponent "title") (VComponent "body")
           (VComponent "style") "Population" [1%Q] ["cockpit"] (1, 1) "population.json").
  split; [reflexivity |].
  match goal with
  | |- context [@__update_content _ ?kw w] =>
      destruct (@click_that_cannot_select sample_collaborators kw w) as (_ & Hempty & _);
      rewrite (Hempty (sample_bin 1 1 [] []) eq_refl eq_refl)
  end.
  split; reflexivity.
Defined.

(** *** The picked colour in the legend *)





